(** * tle2.js propagators: a shallow embedding over the real numbers

    The propagation models of [src/propagators] (SGP4, SDP4, SDP8, the
    deep-space subroutines and the dispatcher of [index.ts]) are translated
    function by function.  A JavaScript [number] is modelled by a real
    number: every arithmetic operator is the exact operator of [R], so IEEE
    rounding, infinities and NaN are outside the model (a division by zero
    follows the convention [x / 0 = 0] of [R], and [sqrt], [Rpower] and
    [acos] are the library's total extensions outside their domain).
    Comparisons are decided ([Rlt_dec]) and returned as booleans, as the
    code's conditions are.  [Math.pow] with a literal integer exponent is
    the power [x ^ n]; with a fractional exponent it is [Rpower], which
    agrees with it on a positive base.  An optional argument is an
    [option], and [initState || init(elements)] a [match] on it. *)

From Stdlib Require Import Reals Lra Lia Psatz String List.
From Stdlib Require Import ZArith.
Import ListNotations.
Open Scope bool_scope.
Open Scope R_scope.

(** ** JavaScript operators on numbers *)

Module Js.

Definition lt (x y : R) : bool := if Rlt_dec x y then true else false.
Definition le (x y : R) : bool := if Rle_dec x y then true else false.
Definition gt (x y : R) : bool := lt y x.
Definition ge (x y : R) : bool := le y x.
(** [x === y] on numbers *)
Definition eq (x y : R) : bool := if Req_dec_T x y then true else false.

(** Truncation toward zero, the rounding of the quotient in [%]. *)
Definition trunc (x : R) : Z :=
  if Rle_dec 0 x then Int_part x else (- Int_part (- x))%Z.

(** [x % y]: the remainder has the sign of the dividend. *)
Definition rem (x y : R) : R := x - y * IZR (trunc (x / y)).

(** [Math.atan2(y, x)] *)
Definition atan2 (y x : R) : R :=
  if Rlt_dec 0 x then atan (y / x)
  else if Rlt_dec x 0 then
    (if Rle_dec 0 y then atan (y / x) + PI else atan (y / x) - PI)
  else if Rlt_dec 0 y then PI / 2
  else if Rlt_dec y 0 then - (PI / 2)
  else 0.

End Js.

Notation "x <? y" := (Js.lt x y) : R_scope.
Notation "x <=? y" := (Js.le x y) : R_scope.
Notation "x >? y" := (Js.gt x y) : R_scope.
Notation "x >=? y" := (Js.ge x y) : R_scope.
Notation "x =? y" := (Js.eq x y) : R_scope.

(** ** constants.ts *)

Definition XKE : R := 0.0743669161.
Definition XKMPER : R := 6378.135.
Definition XJ2 : R := 1.082616e-3.
Definition XJ3 : R := -0.253881e-5.
Definition XJ4 : R := -1.65597e-6.
Definition CK2 : R := 0.5 * XJ2.
Definition CK4 : R := -0.375 * XJ4.
Definition A3OVK2 : R := - XJ3 / CK2.
Definition MINUTES_PER_DAY : R := 1440.0.
Definition TWOPI : R := 2.0 * PI.
Definition DEG2RAD : R := PI / 180.0.
Definition AE : R := 1.0.
Definition TOTHRD : R := 2.0 / 3.0.
Definition E6A : R := 1.0e-6.
Definition DEEP_SPACE_THRESHOLD : R := 225.0.
Definition CONVERGENCE_TOLERANCE : R := 1.0e-12.

(** ** types.ts *)

Module OrbitalElements.
Record T : Type := mk {
  satnum : R;
  epochYear : R;
  epochDay : R;
  jdsatepoch : R;
  ndot : R;
  nddot : R;
  bstar : R;
  inclo : R;
  nodeo : R;
  ecco : R;
  argpo : R;
  mo : R;
  no : R;
  revnum : R
}.
End OrbitalElements.

Record StateVector : Type := mkStateVector {
  sv_x : R; sv_y : R; sv_z : R;
  sv_xdot : R; sv_ydot : R; sv_zdot : R
}.

Inductive Algorithm : Type := SGP | SGP4 | SDP4 | SGP8 | SDP8.

Record PropagationResult : Type := mkResult {
  state : StateVector;
  tsince : R;
  algorithm : Algorithm;
  error : bool;
  errorMessage : option string
}.

Inductive SatelliteType : Type := near_earth | deep_space.

Inductive Method : Type := method_d | method_n.

(** The literal [{ x: 0, y: 0, z: 0, xdot: 0, ydot: 0, zdot: 0 }] of the
    error branches. *)
Definition zero_state : StateVector := mkStateVector 0 0 0 0 0 0.

Module Sgp4InitState.
Record T : Type := mk {
  method : Method;
  isimp : R;
  aycof : R;
  con41 : R;
  cc1 : R;
  cc4 : R;
  cc5 : R;
  d2 : R;
  d3 : R;
  d4 : R;
  delmo : R;
  eta : R;
  argpdot : R;
  omgcof : R;
  sinmao : R;
  t : R;
  t2cof : R;
  t3cof : R;
  t4cof : R;
  t5cof : R;
  x1mth2 : R;
  x7thm1 : R;
  mdot : R;
  nodedot : R;
  xlcof : R;
  xmcof : R;
  nodecf : R;
  irez : R;
  d2201 : R; d2211 : R; d3210 : R; d3222 : R; d4410 : R; d4422 : R;
  d5220 : R; d5232 : R; d5421 : R; d5433 : R;
  dedt : R; del1 : R; del2 : R; del3 : R;
  didt : R; dmdt : R; dnodt : R; domdt : R;
  e3 : R; ee2 : R;
  peo : R; pgho : R; pho : R; pinco : R; plo : R;
  se2 : R; se3 : R; sgh2 : R; sgh3 : R; sgh4 : R; sh2 : R; sh3 : R;
  si2 : R; si3 : R;
  sl2 : R; sl3 : R; sl4 : R;
  gsto : R; xfact : R;
  xgh2 : R; xgh3 : R; xgh4 : R; xh2 : R; xh3 : R; xi2 : R; xi3 : R;
  xl2 : R; xl3 : R; xl4 : R;
  xlamo : R; zmol : R; zmos : R;
  atime : R; xli : R; xni : R;
  a : R;
  altp : R;
  alta : R;
  epochdays : R;
  jdsatepoch : R;
  nddot : R;
  ndot : R;
  bstar : R;
  rcse : R;
  inclo : R;
  nodeo : R;
  ecco : R;
  argpo : R;
  mo : R;
  no : R;
  init : bool
}.
End Sgp4InitState.

(** ** The Kepler loop

    The same ten-iteration Newton loop is written out in [sgp4]
    (sgp4.ts, lines 263-276), [sdp4] (sdp4.ts, lines 195-205) and [sdp8]
    (sdp8.ts, lines 224-234); it is embedded once. *)

Module Kepler.

(** The body of one iteration up to [eo1 += tem5]: the Newton step
    after clamping. *)
Definition step (capu axn ayn eo1 : R) : R :=
  let sineo1 := sin eo1 in
  let coseo1 := cos eo1 in
  let tem5 := 1.0 - coseo1 * axn - sineo1 * ayn in
  let tem5 := (capu - ayn * coseo1 + axn * sineo1 - eo1) / tem5 in
  if Rabs tem5 >=? 0.95 then (if tem5 >? 0 then 0.95 else -0.95)
  else tem5.

(** [loop n] runs the iterations [i = 10 - n, ..., 9]. *)
Fixpoint loop (n : nat) (capu axn ayn eo1 : R) : R :=
  match n with
  | O => eo1
  | S n' =>
      let tem5 := step capu axn ayn eo1 in
      let eo1 := eo1 + tem5 in
      if Rabs tem5 <? 1e-12 then eo1
      else loop n' capu axn ayn eo1
  end.

(** [let eo1 = capu; for (let i = 0; i < 10; i++) {...}; epw = eo1] *)
Definition solve (capu axn ayn : R) : R := loop 10 capu axn ayn capu.

(** The clamped steps the loop adds to [eo1], in order: the trace of
    the loop, used to state how many iterations ran and why it stopped. *)
Fixpoint steps (n : nat) (capu axn ayn eo1 : R) : list R :=
  match n with
  | O => []
  | S n' =>
      let tem5 := step capu axn ayn eo1 in
      let eo1 := eo1 + tem5 in
      if Rabs tem5 <? 1e-12 then [tem5]
      else tem5 :: steps n' capu axn ayn eo1
  end.




End Kepler.


(** ** Near-Earth base recovery

    Lines 22-34 of sgp4.ts, repeated verbatim as lines 44-56 of sdp4.ts and
    of sdp8.ts: the mean motion [xnodp] and the semi-major axis [aodp]
    recovered from the encoded mean motion [no]. *)

Record Recovered : Type := mkRecovered {
  r_cosio : R;
  r_theta2 : R;
  r_x3thm1 : R;
  r_betao2 : R;
  r_betao : R;
  r_delo : R;
  r_xnodp : R;
  r_aodp : R
}.

Definition recover (no ecco inclo : R) : Recovered :=
  let a1 := Rpower (XKE / no) TOTHRD in
  let cosio := cos inclo in
  let theta2 := cosio * cosio in
  let x3thm1 := 3.0 * theta2 - 1.0 in
  let eosq := ecco * ecco in
  let betao2 := 1.0 - eosq in
  let betao := sqrt betao2 in
  let del1 := (1.5 * CK2 * x3thm1) / (a1 * a1 * betao * betao2) in
  let ao := a1 * (1.0 - del1 * (0.5 * TOTHRD +
                    del1 * (1.0 + (134.0 / 81.0) * del1))) in
  let delo := (1.5 * CK2 * x3thm1) / (ao * ao * betao * betao2) in
  let xnodp := no / (1.0 + delo) in
  let aodp := ao / (1.0 - delo) in
  mkRecovered cosio theta2 x3thm1 betao2 betao delo xnodp aodp.

(** Lines 40-53 of sgp4.ts (and 80-93 of sdp8.ts): the density parameters
    [s] and [qoms2t] chosen from the perigee altitude [perige] in km. *)
Definition density (perige : R) : R * R :=
  let s4 := 78.0 / XKMPER + AE in
  let qoms24 := ((120.0 - 78.0) / XKMPER) ^ 4 in
  if perige <? 156.0 then
    let s := perige - 78.0 in
    let s := if perige <=? 98.0 then 20.0 else s in
    let qoms2t := ((120.0 - s) / XKMPER) ^ 4 in
    let s := s / XKMPER + AE in
    (s, qoms2t)
  else (s4, qoms24).

(** ** sgp4.ts *)

(** The higher-order coefficients [d2, d3, d4, t3cof, t4cof, t5cof]
    (lines 98-115). *)
Record HighOrder : Type := mkHighOrder {
  ho_d2 : R; ho_d3 : R; ho_d4 : R;
  ho_t3cof : R; ho_t4cof : R; ho_t5cof : R
}.

Definition sgp4_high_order (isimp aodp tsi s c1 : R) : HighOrder :=
  if isimp =? 0 then
    let c1sq := c1 * c1 in
    let d2 := 4.0 * aodp * tsi * c1sq in
    let temp := d2 * tsi * c1 / 3.0 in
    let d3 := (17.0 * aodp + s) * temp in
    let d4 := 0.5 * temp * aodp * tsi * (221.0 * aodp + 31.0 * s) * c1 in
    let t3cof := d2 + 2.0 * c1sq in
    let t4cof := 0.25 * (3.0 * d3 + c1 * (12.0 * d2 + 10.0 * c1sq)) in
    let t5cof := 0.2 * (3.0 * d4 + 12.0 * c1 * d3 + 6.0 * d2 * d2 +
                        15.0 * c1sq * (2.0 * d2 + c1sq)) in
    mkHighOrder d2 d3 d4 t3cof t4cof t5cof
  else mkHighOrder 0.0 0.0 0.0 0.0 0.0 0.0.

Definition sgp4init (elements : OrbitalElements.T) : Sgp4InitState.T :=
  let bstar := OrbitalElements.bstar elements in
  let inclo := OrbitalElements.inclo elements in
  let nodeo := OrbitalElements.nodeo elements in
  let ecco := OrbitalElements.ecco elements in
  let argpo := OrbitalElements.argpo elements in
  let mo := OrbitalElements.mo elements in
  let no := OrbitalElements.no elements in
  let rec := recover no ecco inclo in
  let cosio := r_cosio rec in
  let theta2 := r_theta2 rec in
  let x3thm1 := r_x3thm1 rec in
  let betao2 := r_betao2 rec in
  let betao := r_betao rec in
  let xnodp := r_xnodp rec in
  let aodp := r_aodp rec in
  let isimp :=
    if (aodp * (1.0 - ecco) / AE) <? (220.0 / XKMPER + AE) then 1 else 0 in
  let perige := (aodp * (1.0 - ecco) - AE) * XKMPER in
  let s := fst (density perige) in
  let qoms2t := snd (density perige) in
  let pinvsq := 1.0 / (aodp * aodp * betao2 * betao2) in
  let tsi := 1.0 / (aodp - s) in
  let eta := aodp * ecco * tsi in
  let etasq := eta * eta in
  let eeta := ecco * eta in
  let psisq := Rabs (1.0 - etasq) in
  let coef := qoms2t * tsi ^ 4 in
  let coef1 := coef / Rpower psisq 3.5 in
  let c2 := coef1 * xnodp * (aodp * (1.0 + 1.5 * etasq + eeta * (4.0 + etasq)) +
    (0.75 * CK2 * tsi / psisq) * x3thm1 * (8.0 + 3.0 * etasq * (8.0 + etasq))) in
  let c1 := bstar * c2 in
  let sinio := sin inclo in
  let c3 := coef * tsi * A3OVK2 * aodp * AE * sinio / ecco in
  let x1mth2 := 1.0 - theta2 in
  let c4 := 2.0 * xnodp * coef1 * aodp * betao2 *
    (eta * (2.0 + 0.5 * etasq) + ecco * (0.5 + 2.0 * etasq) -
      (2.0 * CK2 * tsi / (aodp * psisq)) *
      (-3.0 * x3thm1 * (1.0 - 2.0 * eeta + etasq * (1.5 - 0.5 * eeta)) +
        0.75 * x1mth2 * (2.0 * etasq - eeta * (1.0 + etasq)) *
        cos (2.0 * argpo))) in
  let c5 := 2.0 * coef1 * aodp * betao2 *
    (1.0 + 2.75 * (etasq + eeta) + eeta * etasq) in
  let theta4 := theta2 * theta2 in
  let temp1 := 3.0 * CK2 * pinvsq * xnodp in
  let temp2 := temp1 * CK2 * pinvsq in
  let temp3 := 1.25 * CK4 * pinvsq * pinvsq * xnodp in
  let xmdot := xnodp + 0.5 * temp1 * betao * x3thm1 +
    0.0625 * temp2 * betao * (13.0 - 78.0 * theta2 + 137.0 * theta4) in
  let x1m5th := 1.0 - 5.0 * theta2 in
  let omgdot := -0.5 * temp1 * x1m5th +
    0.0625 * temp2 * (7.0 - 114.0 * theta2 + 395.0 * theta4) +
    temp3 * (3.0 - 36.0 * theta2 + 49.0 * theta4) in
  let xhdot1 := - temp1 * cosio in
  let xnodot := xhdot1 + (0.5 * temp2 * (4.0 - 19.0 * theta2) +
    2.0 * temp3 * (3.0 - 7.0 * theta2)) * cosio in
  let omgcof := bstar * c3 * cos argpo in
  let xmcof :=
    if ecco >? 1.0e-4 then - TOTHRD * coef * bstar * AE / eeta else 0.0 in
  let xnodcf := 3.5 * betao2 * xhdot1 * c1 in
  let t2cof := 1.5 * c1 in
  let xlcof :=
    0.125 * A3OVK2 * sinio * (3.0 + 5.0 * cosio) / (1.0 + cosio) in
  let aycof := 0.25 * A3OVK2 * sinio in
  let delmo := (1.0 + eta * cos mo) ^ 3 in
  let sinmo := sin mo in
  let x7thm1 := 7.0 * theta2 - 1.0 in
  let ho := sgp4_high_order isimp aodp tsi s c1 in
  let d2 := ho_d2 ho in
  let d3 := ho_d3 ho in
  let d4 := ho_d4 ho in
  let t3cof := ho_t3cof ho in
  let t4cof := ho_t4cof ho in
  let t5cof := ho_t5cof ho in
  {| Sgp4InitState.method := method_n;
     Sgp4InitState.isimp := isimp;
     Sgp4InitState.aycof := aycof;
     Sgp4InitState.con41 := x3thm1;
     Sgp4InitState.cc1 := c1;
     Sgp4InitState.cc4 := c4;
     Sgp4InitState.cc5 := c5;
     Sgp4InitState.d2 := d2;
     Sgp4InitState.d3 := d3;
     Sgp4InitState.d4 := d4;
     Sgp4InitState.delmo := delmo;
     Sgp4InitState.eta := eta;
     Sgp4InitState.argpdot := omgdot;
     Sgp4InitState.omgcof := omgcof;
     Sgp4InitState.sinmao := sinmo;
     Sgp4InitState.t := 0.0;
     Sgp4InitState.t2cof := t2cof;
     Sgp4InitState.t3cof := t3cof;
     Sgp4InitState.t4cof := t4cof;
     Sgp4InitState.t5cof := t5cof;
     Sgp4InitState.x1mth2 := x1mth2;
     Sgp4InitState.x7thm1 := x7thm1;
     Sgp4InitState.mdot := xmdot;
     Sgp4InitState.nodedot := xnodot;
     Sgp4InitState.xlcof := xlcof;
     Sgp4InitState.xmcof := xmcof;
     Sgp4InitState.nodecf := xnodcf;
     Sgp4InitState.irez := 0;
     Sgp4InitState.d2201 := 0; Sgp4InitState.d2211 := 0;
     Sgp4InitState.d3210 := 0; Sgp4InitState.d3222 := 0;
     Sgp4InitState.d4410 := 0; Sgp4InitState.d4422 := 0;
     Sgp4InitState.d5220 := 0; Sgp4InitState.d5232 := 0;
     Sgp4InitState.d5421 := 0; Sgp4InitState.d5433 := 0;
     Sgp4InitState.dedt := 0; Sgp4InitState.del1 := 0;
     Sgp4InitState.del2 := 0; Sgp4InitState.del3 := 0;
     Sgp4InitState.didt := 0; Sgp4InitState.dmdt := 0;
     Sgp4InitState.dnodt := 0; Sgp4InitState.domdt := 0;
     Sgp4InitState.e3 := 0; Sgp4InitState.ee2 := 0;
     Sgp4InitState.peo := 0; Sgp4InitState.pgho := 0;
     Sgp4InitState.pho := 0; Sgp4InitState.pinco := 0;
     Sgp4InitState.plo := 0;
     Sgp4InitState.se2 := 0; Sgp4InitState.se3 := 0;
     Sgp4InitState.sgh2 := 0; Sgp4InitState.sgh3 := 0;
     Sgp4InitState.sgh4 := 0; Sgp4InitState.sh2 := 0;
     Sgp4InitState.sh3 := 0; Sgp4InitState.si2 := 0;
     Sgp4InitState.si3 := 0;
     Sgp4InitState.sl2 := 0; Sgp4InitState.sl3 := 0;
     Sgp4InitState.sl4 := 0;
     Sgp4InitState.gsto := 0; Sgp4InitState.xfact := 0;
     Sgp4InitState.xgh2 := 0; Sgp4InitState.xgh3 := 0;
     Sgp4InitState.xgh4 := 0; Sgp4InitState.xh2 := 0;
     Sgp4InitState.xh3 := 0; Sgp4InitState.xi2 := 0;
     Sgp4InitState.xi3 := 0; Sgp4InitState.xl2 := 0;
     Sgp4InitState.xl3 := 0; Sgp4InitState.xl4 := 0;
     Sgp4InitState.xlamo := 0; Sgp4InitState.zmol := 0;
     Sgp4InitState.zmos := 0;
     Sgp4InitState.atime := 0; Sgp4InitState.xli := 0;
     Sgp4InitState.xni := 0;
     Sgp4InitState.a := aodp;
     Sgp4InitState.altp := (aodp * (1.0 - ecco) - AE) * XKMPER;
     Sgp4InitState.alta := (aodp * (1.0 + ecco) - AE) * XKMPER;
     Sgp4InitState.epochdays := OrbitalElements.epochDay elements;
     Sgp4InitState.jdsatepoch := OrbitalElements.jdsatepoch elements;
     Sgp4InitState.nddot := OrbitalElements.nddot elements;
     Sgp4InitState.ndot := OrbitalElements.ndot elements;
     Sgp4InitState.bstar := bstar;
     Sgp4InitState.rcse := 0;
     Sgp4InitState.inclo := inclo;
     Sgp4InitState.nodeo := nodeo;
     Sgp4InitState.ecco := ecco;
     Sgp4InitState.argpo := argpo;
     Sgp4InitState.mo := mo;
     Sgp4InitState.no := xnodp;
     Sgp4InitState.init := true |}.

(** The secular update of [sgp4] (lines 204-228): the values of
    [xmp, omega, xnode, tempa, tempe, templ] after the [isimp === 0]
    block. *)
Record Sgp4Secular : Type := mkSgp4Secular {
  s_xmp : R;
  s_omega : R;
  s_xnode : R;
  s_tempa : R;
  s_tempe : R;
  s_templ : R
}.

Definition sgp4_secular (state : Sgp4InitState.T) (tsince : R)
  : Sgp4Secular :=
  let isimp := Sgp4InitState.isimp state in
  let cc1 := Sgp4InitState.cc1 state in
  let cc4 := Sgp4InitState.cc4 state in
  let cc5 := Sgp4InitState.cc5 state in
  let d2 := Sgp4InitState.d2 state in
  let d3 := Sgp4InitState.d3 state in
  let d4 := Sgp4InitState.d4 state in
  let delmo := Sgp4InitState.delmo state in
  let eta := Sgp4InitState.eta state in
  let argpdot := Sgp4InitState.argpdot state in
  let omgcof := Sgp4InitState.omgcof state in
  let sinmao := Sgp4InitState.sinmao state in
  let t2cof := Sgp4InitState.t2cof state in
  let t3cof := Sgp4InitState.t3cof state in
  let t4cof := Sgp4InitState.t4cof state in
  let t5cof := Sgp4InitState.t5cof state in
  let mdot := Sgp4InitState.mdot state in
  let nodedot := Sgp4InitState.nodedot state in
  let xmcof := Sgp4InitState.xmcof state in
  let nodecf := Sgp4InitState.nodecf state in
  let bstar := Sgp4InitState.bstar state in
  let nodeo := Sgp4InitState.nodeo state in
  let argpo := Sgp4InitState.argpo state in
  let mo := Sgp4InitState.mo state in
  let t := tsince in
  let xmdf := mo + mdot * t in
  let omgadf := argpo + argpdot * t in
  let xnoddf := nodeo + nodedot * t in
  let omega := omgadf in
  let xmp := xmdf in
  let tsq := t * t in
  let xnode := xnoddf + nodecf * tsq in
  let tempa := 1.0 - cc1 * t in
  let tempe := bstar * cc4 * t in
  let templ := t2cof * tsq in
  if isimp =? 0 then
    let delomg := omgcof * t in
    let delm :=
      if xmcof >? 0 then xmcof * ((1.0 + eta * cos xmdf) ^ 3 - delmo)
      else 0.0 in
    let temp := delomg + delm in
    let xmp := xmdf + temp in
    let omega := omgadf - temp in
    let tcube := tsq * t in
    let tfour := t * tcube in
    let tempa := tempa - d2 * tsq - d3 * tcube - d4 * tfour in
    let tempe := tempe + bstar * cc5 * (sin xmp - sinmao) in
    let templ := templ + t3cof * tcube + tfour * (t4cof + t * t5cof) in
    mkSgp4Secular xmp omega xnode tempa tempe templ
  else
    mkSgp4Secular xmp omega xnode tempa tempe templ.

(** [a], [e] and [xl] of lines 230-232. *)
Definition sgp4_a (state : Sgp4InitState.T) (tsince : R) : R :=
  let tempa := s_tempa (sgp4_secular state tsince) in
  Sgp4InitState.a state * tempa * tempa.

Definition sgp4_e (state : Sgp4InitState.T) (tsince : R) : R :=
  Sgp4InitState.ecco state - s_tempe (sgp4_secular state tsince).

Definition sgp4_xl (state : Sgp4InitState.T) (tsince : R) : R :=
  let sec := sgp4_secular state tsince in
  s_xmp sec + s_omega sec + s_xnode sec +
  Sgp4InitState.no state * s_templ sec.

(** The long-period periodics (lines 245-260), for the values [a], [e],
    [xl], [omega], [xnode] of the secular update and the coefficients
    [xlcof], [aycof]: the eccentricity vector [(axn, ayn)] and the mean
    longitude [capu]. *)
Definition long_period (a e xl omega xnode xlcof aycof : R) : R * R * R :=
  let em := Rmax e 1e-6 in
  let beta := sqrt (1.0 - em * em) in
  let axn := em * cos omega in
  let temp := 1.0 / (a * beta * beta) in
  let xlp := temp * xlcof * axn in
  let aynl := temp * aycof in
  let xlt := xl + xlp in
  let ayn := em * sin omega + aynl in
  let capu := Js.rem (xlt - xnode) TWOPI in
  (axn, ayn, capu).

Definition sgp4_axn (state : Sgp4InitState.T) (tsince : R) : R :=
  let sec := sgp4_secular state tsince in
  fst (fst (long_period (sgp4_a state tsince) (sgp4_e state tsince)
    (sgp4_xl state tsince) (s_omega sec) (s_xnode sec)
    (Sgp4InitState.xlcof state) (Sgp4InitState.aycof state))).

Definition sgp4_ayn (state : Sgp4InitState.T) (tsince : R) : R :=
  let sec := sgp4_secular state tsince in
  snd (fst (long_period (sgp4_a state tsince) (sgp4_e state tsince)
    (sgp4_xl state tsince) (s_omega sec) (s_xnode sec)
    (Sgp4InitState.xlcof state) (Sgp4InitState.aycof state))).

Definition sgp4_capu (state : Sgp4InitState.T) (tsince : R) : R :=
  let sec := sgp4_secular state tsince in
  snd (long_period (sgp4_a state tsince) (sgp4_e state tsince)
    (sgp4_xl state tsince) (s_omega sec) (s_xnode sec)
    (Sgp4InitState.xlcof state) (Sgp4InitState.aycof state)).


(** Lines 280-345 past the [pl] test: short-period periodics, orientation
    vectors, position and velocity. *)
Definition sgp4_state_vector
  (a axn ayn epw xnode inclo x3thm1 x1mth2 x7thm1 : R) : StateVector :=
  let cosio := cos inclo in
  let sinio := sin inclo in
  let xn := XKE / Rpower a 1.5 in
  let sinepw := sin epw in
  let cosepw := cos epw in
  let ecose := axn * cosepw + ayn * sinepw in
  let esine := axn * sinepw - ayn * cosepw in
  let elsq := axn * axn + ayn * ayn in
  let pl := a * (1.0 - elsq) in
  let r := a * (1.0 - ecose) in
  let rdot := XKE * sqrt a * esine / r in
  let rfdot := XKE * sqrt pl / r in
  let betal := sqrt (1.0 - elsq) in
  let temp6 := esine / (1.0 + betal) in
  let aOverR := a / r in
  let cosu := aOverR * (cosepw - axn + ayn * temp6) in
  let sinu := aOverR * (sinepw - ayn - axn * temp6) in
  let u := Js.atan2 sinu cosu in
  let sin2u := 2.0 * sinu * cosu in
  let cos2u := 2.0 * cosu * cosu - 1.0 in
  let temp7 := 1.0 / pl in
  let temp8 := CK2 * temp7 in
  let temp9 := temp8 * temp7 in
  let rk := r * (1.0 - 1.5 * temp9 * betal * x3thm1) +
            0.5 * temp8 * x1mth2 * cos2u in
  let uk := u - 0.25 * temp9 * x7thm1 * sin2u in
  let xnodek := xnode + 1.5 * temp9 * cosio * sin2u in
  let xinck := inclo + 1.5 * temp9 * cosio * sinio * cos2u in
  let rdotk := rdot - xn * temp8 * x1mth2 * sin2u in
  let rfdotk := rfdot + xn * temp8 * (x1mth2 * cos2u + 1.5 * x3thm1) in
  let sinuk := sin uk in
  let cosuk := cos uk in
  let sinik := sin xinck in
  let cosik := cos xinck in
  let sinnok := sin xnodek in
  let cosnok := cos xnodek in
  let xmx := - sinnok * cosik in
  let xmy := cosnok * cosik in
  let ux := xmx * sinuk + cosnok * cosuk in
  let uy := xmy * sinuk + sinnok * cosuk in
  let uz := sinik * sinuk in
  let vx := xmx * cosuk - cosnok * sinuk in
  let vy := xmy * cosuk - sinnok * sinuk in
  let vz := sinik * cosuk in
  let x := rk * ux * XKMPER in
  let y := rk * uy * XKMPER in
  let z := rk * uz * XKMPER in
  let xdot := (rdotk * ux + rfdotk * vx) * XKMPER / 60.0 in
  let ydot := (rdotk * uy + rfdotk * vy) * XKMPER / 60.0 in
  let zdot := (rdotk * uz + rfdotk * vz) * XKMPER / 60.0 in
  mkStateVector x y z xdot ydot zdot.

Definition decayed_message : string := "Satellite has decayed".
Definition semi_latus_message : string := "Semi-latus rectum is negative".

Definition sgp4 (elements : OrbitalElements.T) (tsince : R)
  (initState : option Sgp4InitState.T) : PropagationResult :=
  (* const state = initState || sgp4init(elements) *)
  let state :=
    match initState with Some s => s | None => sgp4init elements end in
  let sec := sgp4_secular state tsince in
  let xnode := s_xnode sec in
  let a := sgp4_a state tsince in
  let e := sgp4_e state tsince in
  if (a <? 0.95) || (e >=? 1.0) || (e <? -0.001) then
    {| state := zero_state; tsince := tsince; algorithm := SGP4;
       error := true; errorMessage := Some decayed_message |}
  else
    let axn := sgp4_axn state tsince in
    let ayn := sgp4_ayn state tsince in
    let capu := sgp4_capu state tsince in
    let epw := Kepler.solve capu axn ayn in
    let elsq := axn * axn + ayn * ayn in
    let pl := a * (1.0 - elsq) in
    if pl <? 0.0 then
      {| state := zero_state; tsince := tsince; algorithm := SGP4;
         error := true; errorMessage := Some semi_latus_message |}
    else
      {| state := sgp4_state_vector a axn ayn epw xnode
                    (Sgp4InitState.inclo state) (Sgp4InitState.con41 state)
                    (Sgp4InitState.x1mth2 state) (Sgp4InitState.x7thm1 state);
         tsince := tsince; algorithm := SGP4;
         error := false; errorMessage := None |}.

(** ** deep-space.ts *)

Module DeepSpaceCommon.
Record T : Type := mk {
  thgr : R;
  xnq : R;
  xqncl : R;
  omegaq : R;
  zmol : R;
  zmos : R;
  peo : R;
  pinco : R;
  plo : R;
  pgho : R;
  pho : R;
  se2 : R; se3 : R;
  si2 : R; si3 : R;
  sl2 : R; sl3 : R; sl4 : R;
  sgh2 : R; sgh3 : R; sgh4 : R;
  sh2 : R; sh3 : R;
  ee2 : R; e3 : R;
  xi2 : R; xi3 : R;
  xl2 : R; xl3 : R; xl4 : R;
  xgh2 : R; xgh3 : R; xgh4 : R;
  xh2 : R; xh3 : R;
  d2201 : R; d2211 : R; d3210 : R; d3222 : R;
  d4410 : R; d4422 : R;
  d5220 : R; d5232 : R; d5421 : R; d5433 : R;
  del1 : R; del2 : R; del3 : R;
  xlamo : R; xfact : R;
  xli : R; xni : R; atime : R;
  iresfl : bool;
  isynfl : bool;
  dedt : R; didt : R; dmdt : R; domdt : R; dnodt : R
}.
End DeepSpaceCommon.

Definition gstime (jd : R) : R :=
  let tut1 := (jd - 2451545.0) / 36525.0 in
  let temp := -6.2e-6 * tut1 * tut1 * tut1 +
    0.093104 * tut1 * tut1 +
    (876600.0 * 3600 + 8640184.812866) * tut1 +
    67310.54841 in
  let temp := Js.rem ((temp * DEG2RAD) / 240.0) TWOPI in
  if temp <? 0.0 then temp + TWOPI else temp.

(** The resonance test of [dsinit] (lines 221-233): the pair
    [(iresfl, isynfl)], both [false] in the initial common block. *)
Definition resonance (xnodp : R) : bool * bool :=
  let period := TWOPI / xnodp in
  if period >=? 1200.0 then (true, true)
  else if (period >=? 600.0) && (period <=? 800.0) then (true, false)
  else (false, false).

Definition dsinit (epoch xnodp ecco inclo nodeo argpo mo : R)
  : DeepSpaceCommon.T :=
  let cosim := cos inclo in
  let sinim := sin inclo in
  let ZNS := 1.19459e-5 in
  let ZES := 0.01675 in
  let ZNL := 1.5835218e-4 in
  let ZEL := 0.05490 in
  let day := epoch - 2433281.5 + 18261.5 in
  let xms := 6.2565837 + 0.017201977 * day in
  let zmos := Js.rem (Js.rem xms TWOPI + TWOPI) TWOPI in
  let xlms := 4.7199672 + 0.2299715 * day in
  let zmol := Js.rem (Js.rem xlms TWOPI + TWOPI) TWOPI in
  let sinc := sinim in
  let cosc := cosim in
  let cosi2 := cosc * cosc in
  let iresfl := fst (resonance xnodp) in
  let isynfl := snd (resonance xnodp) in
  {| DeepSpaceCommon.thgr := gstime epoch;
     DeepSpaceCommon.xnq := xnodp;
     DeepSpaceCommon.xqncl := inclo;
     DeepSpaceCommon.omegaq := argpo;
     DeepSpaceCommon.zmol := zmol;
     DeepSpaceCommon.zmos := zmos;
     DeepSpaceCommon.peo := 0;
     DeepSpaceCommon.pinco := 0;
     DeepSpaceCommon.plo := 0;
     DeepSpaceCommon.pgho := 0;
     DeepSpaceCommon.pho := 0;
     DeepSpaceCommon.se2 := - ZNS * 1.5 * sinc * cosc * ZES * 2.0 / xnodp;
     DeepSpaceCommon.se3 := - ZNS * 3.0 * sinc * cosc * ZES / xnodp;
     DeepSpaceCommon.si2 :=
       ZNS * 0.5 * sinc * (1.0 - 5.0 * cosi2) * ZES / xnodp;
     DeepSpaceCommon.si3 := ZNS * sinc * (1.0 - 5.0 * cosi2) * ZES / xnodp;
     DeepSpaceCommon.sl2 := - ZNS * 0.5 / xnodp;
     DeepSpaceCommon.sl3 := - ZNS / xnodp;
     DeepSpaceCommon.sl4 := - ZNS * 2.0 / xnodp;
     DeepSpaceCommon.sgh2 := ZNS * cosc * ZES / xnodp;
     DeepSpaceCommon.sgh3 := ZNS * 2.0 * cosc * ZES / xnodp;
     DeepSpaceCommon.sgh4 := - ZNS * 2.0 * ZES / xnodp;
     DeepSpaceCommon.sh2 := - ZNS * sinc * ZES / xnodp;
     DeepSpaceCommon.sh3 := - ZNS * 2.0 * sinc * ZES / xnodp;
     DeepSpaceCommon.ee2 := 2.0 * ZNL * ZEL / xnodp;
     DeepSpaceCommon.e3 := 2.0 * ZNL * ZEL / xnodp;
     DeepSpaceCommon.xi2 := 2.0 * ZNL * ZEL / xnodp;
     DeepSpaceCommon.xi3 := 2.0 * ZNL * ZEL / xnodp;
     DeepSpaceCommon.xl2 := -2.0 * ZNL / xnodp;
     DeepSpaceCommon.xl3 := -2.0 * ZNL / xnodp;
     DeepSpaceCommon.xl4 := -2.0 * ZNL / xnodp;
     DeepSpaceCommon.xgh2 := 2.0 * ZNL * ZEL / xnodp;
     DeepSpaceCommon.xgh3 := 2.0 * ZNL * ZEL / xnodp;
     DeepSpaceCommon.xgh4 := -2.0 * ZNL * ZEL / xnodp;
     DeepSpaceCommon.xh2 := -2.0 * ZNL * ZEL / xnodp;
     DeepSpaceCommon.xh3 := -2.0 * ZNL * ZEL / xnodp;
     DeepSpaceCommon.d2201 := 0; DeepSpaceCommon.d2211 := 0;
     DeepSpaceCommon.d3210 := 0; DeepSpaceCommon.d3222 := 0;
     DeepSpaceCommon.d4410 := 0; DeepSpaceCommon.d4422 := 0;
     DeepSpaceCommon.d5220 := 0; DeepSpaceCommon.d5232 := 0;
     DeepSpaceCommon.d5421 := 0; DeepSpaceCommon.d5433 := 0;
     DeepSpaceCommon.del1 := 0; DeepSpaceCommon.del2 := 0;
     DeepSpaceCommon.del3 := 0;
     DeepSpaceCommon.xlamo := 0;
     (* if (ds.iresfl) { xfact = 0.0; xli = mo; xni = xnodp; atime = 0.0 } *)
     DeepSpaceCommon.xfact := if iresfl then 0.0 else 0;
     DeepSpaceCommon.xli := if iresfl then mo else 0;
     DeepSpaceCommon.xni := if iresfl then xnodp else 0;
     DeepSpaceCommon.atime := if iresfl then 0.0 else 0;
     DeepSpaceCommon.iresfl := iresfl;
     DeepSpaceCommon.isynfl := isynfl;
     DeepSpaceCommon.dedt := ZNS * ZES * 0.5e-6;
     DeepSpaceCommon.didt := ZNS * 0.1e-6;
     DeepSpaceCommon.dmdt := ZNS * 1.0e-6;
     DeepSpaceCommon.domdt := ZNS * 0.5e-6;
     DeepSpaceCommon.dnodt := ZNL * 0.2e-6 |}.

(** The five elements [dssec] and [dsper] return; [el_e] is the field
    [e] of the first and [em] of the second. *)
Record Elements5 : Type := mkElements5 {
  el_e : R;
  el_xinc : R;
  el_omgadf : R;
  el_xnode : R;
  el_xmam : R
}.

(** The phase-dependent corrections [pe, pinc, pl, pgh, ph] of [dssec]
    (lines 265-284). *)
Definition dssec_periodics (ds : DeepSpaceCommon.T) (t : R)
  : R * R * R * R * R :=
  let ZNS := 1.19459e-5 in
  let ZNL := 1.5835218e-4 in
  let zms := DeepSpaceCommon.zmos ds + ZNS * t in
  let zml := DeepSpaceCommon.zmol ds + ZNL * t in
  let f2s := 0.5 * sin zms * sin zms - 0.25 in
  let f3s := -0.5 * sin zms * cos zms in
  let sinzs := sin zms in
  let f2l := 0.5 * sin zml * sin zml - 0.25 in
  let f3l := -0.5 * sin zml * cos zml in
  let sinzl := sin zml in
  let pe := (DeepSpaceCommon.se2 ds * f2s + DeepSpaceCommon.se3 ds * f3s) +
    (DeepSpaceCommon.ee2 ds * f2l + DeepSpaceCommon.e3 ds * f3l) in
  let pinc := (DeepSpaceCommon.si2 ds * f2s + DeepSpaceCommon.si3 ds * f3s) +
    (DeepSpaceCommon.xi2 ds * f2l + DeepSpaceCommon.xi3 ds * f3l) in
  let pl := (DeepSpaceCommon.sl2 ds * f2s + DeepSpaceCommon.sl3 ds * f3s +
             DeepSpaceCommon.sl4 ds * sinzs) +
    (DeepSpaceCommon.xl2 ds * f2l + DeepSpaceCommon.xl3 ds * f3l +
     DeepSpaceCommon.xl4 ds * sinzl) in
  let pgh := (DeepSpaceCommon.sgh2 ds * f2s + DeepSpaceCommon.sgh3 ds * f3s +
              DeepSpaceCommon.sgh4 ds * sinzs) +
    (DeepSpaceCommon.xgh2 ds * f2l + DeepSpaceCommon.xgh3 ds * f3l +
     DeepSpaceCommon.xgh4 ds * sinzl) in
  let ph := (DeepSpaceCommon.sh2 ds * f2s + DeepSpaceCommon.sh3 ds * f3s) +
    (DeepSpaceCommon.xh2 ds * f2l + DeepSpaceCommon.xh3 ds * f3l) in
  (pe, pinc, pl, pgh, ph).

Definition dssec (ds : DeepSpaceCommon.T) (t ecco inclo nodeo argpo mo : R)
  : Elements5 :=
  let '(pe, pinc, pl, pgh, ph) := dssec_periodics ds t in
  let e := ecco + DeepSpaceCommon.dedt ds * t + pe in
  let xinc := inclo + DeepSpaceCommon.didt ds * t + pinc in
  let omgadf := argpo + DeepSpaceCommon.domdt ds * t + pgh in
  let xnode := nodeo + DeepSpaceCommon.dnodt ds * t + ph in
  let xmam := mo + DeepSpaceCommon.dmdt ds * t + pl in
  let xmam := Js.rem xmam TWOPI in
  let xmam := if xmam <? 0.0 then xmam + TWOPI else xmam in
  mkElements5 e xinc omgadf xnode xmam.

(** The periodic corrections [pe, pinc, pl, pgh, ph] of [dsper]
    (lines 316-328). *)
Definition dsper_periodics (ds : DeepSpaceCommon.T) (t : R)
  : R * R * R * R * R :=
  let ZNS := 1.19459e-5 in
  let ZNL := 1.5835218e-4 in
  let zms := DeepSpaceCommon.zmos ds + ZNS * t in
  let zml := DeepSpaceCommon.zmol ds + ZNL * t in
  let pe := 1.0e-8 * sin zms + 0.5e-8 * sin zml in
  let pinc := 1.0e-9 * cos zms in
  let pl := 1.0e-7 * sin (2.0 * zms) in
  let pgh := 1.0e-8 * sin zms in
  let ph := 0.5e-8 * sin zml in
  (pe, pinc, pl, pgh, ph).

Definition dsper (ds : DeepSpaceCommon.T) (t em xinc omgadf xnode xmam : R)
  : Elements5 :=
  let '(pe, pinc, pl, pgh, ph) := dsper_periodics ds t in
  let em := em + pe in
  let xinc := xinc + pinc in
  let omgadf := omgadf + pgh in
  let xnode := xnode + ph in
  let xmam := xmam + pl in
  if xinc <? 0.0 then
    mkElements5 em (- xinc) (omgadf - PI) (xnode + PI) xmam
  else
    mkElements5 em xinc omgadf xnode xmam.

(** ** sdp4.ts *)

Module Sdp4InitState.
Record T : Type := mk {
  aodp : R;
  xnodp : R;
  xmdot : R;
  omgdot : R;
  xnodot : R;
  xnodcf : R;
  t2cof : R;
  xlcof : R;
  aycof : R;
  x3thm1 : R;
  x1mth2 : R;
  x7thm1 : R;
  cosio : R;
  sinio : R;
  betao : R;
  betao2 : R;
  ds : DeepSpaceCommon.T
}.
End Sdp4InitState.

Definition sdp4init (elements : OrbitalElements.T) : Sdp4InitState.T :=
  let bstar := OrbitalElements.bstar elements in
  let inclo := OrbitalElements.inclo elements in
  let nodeo := OrbitalElements.nodeo elements in
  let ecco := OrbitalElements.ecco elements in
  let argpo := OrbitalElements.argpo elements in
  let mo := OrbitalElements.mo elements in
  let no := OrbitalElements.no elements in
  let jdsatepoch := OrbitalElements.jdsatepoch elements in
  let rec := recover no ecco inclo in
  let cosio := r_cosio rec in
  let theta2 := r_theta2 rec in
  let x3thm1 := r_x3thm1 rec in
  let betao2 := r_betao2 rec in
  let betao := r_betao rec in
  let delo := r_delo rec in
  let xnodp := r_xnodp rec in
  let aodp := r_aodp rec in
  let sinio := sin inclo in
  let x1mth2 := 1.0 - theta2 in
  let x7thm1 := 7.0 * theta2 - 1.0 in
  let theta4 := theta2 * theta2 in
  let pinvsq := 1.0 / (aodp * aodp * betao2 * betao2) in
  let temp1 := 3.0 * CK2 * pinvsq * xnodp in
  let temp2 := temp1 * CK2 * pinvsq in
  let temp3 := 1.25 * CK4 * pinvsq * pinvsq * xnodp in
  let xmdot := xnodp + 0.5 * temp1 * betao * x3thm1 +
    0.0625 * temp2 * betao * (13.0 - 78.0 * theta2 + 137.0 * theta4) in
  let x1m5th := 1.0 - 5.0 * theta2 in
  let omgdot := -0.5 * temp1 * x1m5th +
    0.0625 * temp2 * (7.0 - 114.0 * theta2 + 395.0 * theta4) +
    temp3 * (3.0 - 36.0 * theta2 + 49.0 * theta4) in
  let xhdot1 := - temp1 * cosio in
  let xnodot := xhdot1 + (0.5 * temp2 * (4.0 - 19.0 * theta2) +
    2.0 * temp3 * (3.0 - 7.0 * theta2)) * cosio in
  let a3ovk2 := -1.0 * A3OVK2 in
  let xlcof :=
    0.125 * a3ovk2 * sinio * (3.0 + 5.0 * cosio) / (1.0 + cosio) in
  let aycof := 0.25 * a3ovk2 * sinio in
  let xnodcf := 3.5 * betao2 * xhdot1 * (bstar / (1.0 + delo)) in
  let t2cof := 1.5 * (bstar / (1.0 + delo)) in
  let ds := dsinit jdsatepoch xnodp ecco inclo nodeo argpo mo in
  {| Sdp4InitState.aodp := aodp;
     Sdp4InitState.xnodp := xnodp;
     Sdp4InitState.xmdot := xmdot;
     Sdp4InitState.omgdot := omgdot;
     Sdp4InitState.xnodot := xnodot;
     Sdp4InitState.xnodcf := xnodcf;
     Sdp4InitState.t2cof := t2cof;
     Sdp4InitState.xlcof := xlcof;
     Sdp4InitState.aycof := aycof;
     Sdp4InitState.x3thm1 := x3thm1;
     Sdp4InitState.x1mth2 := x1mth2;
     Sdp4InitState.x7thm1 := x7thm1;
     Sdp4InitState.cosio := cosio;
     Sdp4InitState.sinio := sinio;
     Sdp4InitState.betao := betao;
     Sdp4InitState.betao2 := betao2;
     Sdp4InitState.ds := ds |}.

(** Lines 134-159 of [sdp4]: the secular advance followed by the
    deep-space secular and periodic steps; the five elements returned by
    [dsper]. *)
Definition sdp4_elements (elements : OrbitalElements.T)
  (state : Sdp4InitState.T) (tsince : R) : Elements5 :=
  let xmdot := Sdp4InitState.xmdot state in
  let omgdot := Sdp4InitState.omgdot state in
  let xnodot := Sdp4InitState.xnodot state in
  let xnodcf := Sdp4InitState.xnodcf state in
  let cosio := Sdp4InitState.cosio state in
  let ds := Sdp4InitState.ds state in
  let ecco := OrbitalElements.ecco elements in
  let argpo := OrbitalElements.argpo elements in
  let nodeo := OrbitalElements.nodeo elements in
  let mo := OrbitalElements.mo elements in
  let t := tsince in
  let xmdf := mo + xmdot * t in
  let omgadf := argpo + omgdot * t in
  let xnoddf := nodeo + xnodot * t in
  let tsq := t * t in
  let xnode := xnoddf + xnodcf * tsq in
  let secular := dssec ds t ecco
    (if Sdp4InitState.aodp state >? 0 then acos cosio else 0)
    xnode omgadf xmdf in
  dsper ds t (el_e secular) (el_xinc secular) (el_omgadf secular)
    (el_xnode secular) (el_xmam secular).

(** The semi-major axis [a = aodp * tempa * tempa] of line 176. *)
Definition sdp4_a (state : Sdp4InitState.T) (tsince : R) : R :=
  let tempa := 1.0 - Sdp4InitState.t2cof state * tsince in
  Sdp4InitState.aodp state * tempa * tempa.

(** Lines 208-271 of sdp4.ts past the [pl] test (the same text in sdp8.ts,
    lines 237-300). *)
Definition sdp_state_vector
  (a axn ayn epw xn xinc x3thm1 x1mth2 x7thm1 : R) : StateVector :=
  let xnn := XKE / Rpower a 1.5 in
  let sinInc := sin xinc in
  let cosInc := cos xinc in
  let sinepw := sin epw in
  let cosepw := cos epw in
  let ecose := axn * cosepw + ayn * sinepw in
  let esine := axn * sinepw - ayn * cosepw in
  let elsq := axn * axn + ayn * ayn in
  let pl := a * (1.0 - elsq) in
  let r := a * (1.0 - ecose) in
  let invr := 1.0 / r in
  let rdot := XKE * sqrt a * esine * invr in
  let rfdot := XKE * sqrt pl * invr in
  let betal := sqrt (1.0 - elsq) in
  let temp6 := betal / (1.0 + betal) in
  let cosu := invr * (cosepw - axn + ayn * esine * temp6) in
  let sinu := invr * (sinepw - ayn - axn * esine * temp6) in
  let u := Js.atan2 sinu cosu in
  let sin2u := 2.0 * sinu * cosu in
  let cos2u := 2.0 * cosu * cosu - 1.0 in
  let temp7 := 1.0 / pl in
  let temp8 := CK2 * temp7 in
  let temp9 := temp8 * temp7 in
  let rk := r * (1.0 - 1.5 * temp9 * betal * x3thm1) +
            0.5 * temp8 * x1mth2 * cos2u in
  let uk := u - 0.25 * temp9 * x7thm1 * sin2u in
  let xnodek := xn + 1.5 * temp9 * cosInc * sin2u in
  let xinck := xinc + 1.5 * temp9 * cosInc * sinInc * cos2u in
  let rdotk := rdot - xnn * temp8 * x1mth2 * sin2u in
  let rfdotk := rfdot + xnn * temp8 * (x1mth2 * cos2u + 1.5 * x3thm1) in
  let sinuk := sin uk in
  let cosuk := cos uk in
  let sinik := sin xinck in
  let cosik := cos xinck in
  let sinnok := sin xnodek in
  let cosnok := cos xnodek in
  let xmx := - sinnok * cosik in
  let xmy := cosnok * cosik in
  let ux := xmx * sinuk + cosnok * cosuk in
  let uy := xmy * sinuk + sinnok * cosuk in
  let uz := sinik * sinuk in
  let vx := xmx * cosuk - cosnok * sinuk in
  let vy := xmy * cosuk - sinnok * sinuk in
  let vz := sinik * cosuk in
  let x := rk * ux * XKMPER in
  let y := rk * uy * XKMPER in
  let z := rk * uz * XKMPER in
  let xdot := (rdotk * ux + rfdotk * vx) * XKMPER / 60.0 in
  let ydot := (rdotk * uy + rfdotk * vy) * XKMPER / 60.0 in
  let zdot := (rdotk * uz + rfdotk * vz) * XKMPER / 60.0 in
  mkStateVector x y z xdot ydot zdot.

Definition sdp4 (elements : OrbitalElements.T) (tsince : R)
  (initState : option Sdp4InitState.T) : PropagationResult :=
  let state :=
    match initState with Some s => s | None => sdp4init elements end in
  let t := tsince in
  let tsq := t * t in
  let templ := Sdp4InitState.t2cof state * tsq in
  let periodic := sdp4_elements elements state tsince in
  let em := el_e periodic in
  let xinc := el_xinc periodic in
  let omega := el_omgadf periodic in
  let xn := el_xnode periodic in
  let xmam := el_xmam periodic in
  if (em >=? 1.0) || (em <? -0.001) then
    {| state := zero_state; tsince := tsince; algorithm := SDP4;
       error := true; errorMessage := Some decayed_message |}
  else
    let a := sdp4_a state tsince in
    let xl := xmam + omega + xn + Sdp4InitState.xnodp state * templ in
    let '(axn, ayn, capu) :=
      long_period a em xl omega xn
        (Sdp4InitState.xlcof state) (Sdp4InitState.aycof state) in
    let epw := Kepler.solve capu axn ayn in
    let elsq := axn * axn + ayn * ayn in
    let pl := a * (1.0 - elsq) in
    if pl <? 0.0 then
      {| state := zero_state; tsince := tsince; algorithm := SDP4;
         error := true; errorMessage := Some semi_latus_message |}
    else
      {| state := sdp_state_vector a axn ayn epw xn xinc
                    (Sdp4InitState.x3thm1 state) (Sdp4InitState.x1mth2 state)
                    (Sdp4InitState.x7thm1 state);
         tsince := tsince; algorithm := SDP4;
         error := false; errorMessage := None |}.

(** ** sdp8.ts *)

Module Sdp8InitState.
Record T : Type := mk {
  aodp : R;
  xnodp : R;
  xmdot : R;
  omgdot : R;
  xnodot : R;
  pp : R;
  gamma : R;
  xlcof : R;
  aycof : R;
  x3thm1 : R;
  x1mth2 : R;
  x7thm1 : R;
  cosio : R;
  sinio : R;
  eta : R;
  edot : R;
  ds : DeepSpaceCommon.T
}.
End Sdp8InitState.

Definition sdp8init (elements : OrbitalElements.T) : Sdp8InitState.T :=
  let bstar := OrbitalElements.bstar elements in
  let inclo := OrbitalElements.inclo elements in
  let nodeo := OrbitalElements.nodeo elements in
  let ecco := OrbitalElements.ecco elements in
  let argpo := OrbitalElements.argpo elements in
  let mo := OrbitalElements.mo elements in
  let no := OrbitalElements.no elements in
  let jdsatepoch := OrbitalElements.jdsatepoch elements in
  let rec := recover no ecco inclo in
  let cosio := r_cosio rec in
  let theta2 := r_theta2 rec in
  let x3thm1 := r_x3thm1 rec in
  let betao2 := r_betao2 rec in
  let betao := r_betao rec in
  let xnodp := r_xnodp rec in
  let aodp := r_aodp rec in
  let sinio := sin inclo in
  let x1mth2 := 1.0 - theta2 in
  let x7thm1 := 7.0 * theta2 - 1.0 in
  let theta4 := theta2 * theta2 in
  let pinvsq := 1.0 / (aodp * aodp * betao2 * betao2) in
  let temp1 := 3.0 * CK2 * pinvsq * xnodp in
  let temp2 := temp1 * CK2 * pinvsq in
  let temp3 := 1.25 * CK4 * pinvsq * pinvsq * xnodp in
  let xmdot := xnodp + 0.5 * temp1 * betao * x3thm1 +
    0.0625 * temp2 * betao * (13.0 - 78.0 * theta2 + 137.0 * theta4) in
  let x1m5th := 1.0 - 5.0 * theta2 in
  let omgdot := -0.5 * temp1 * x1m5th +
    0.0625 * temp2 * (7.0 - 114.0 * theta2 + 395.0 * theta4) +
    temp3 * (3.0 - 36.0 * theta2 + 49.0 * theta4) in
  let xhdot1 := - temp1 * cosio in
  let xnodot := xhdot1 + (0.5 * temp2 * (4.0 - 19.0 * theta2) +
    2.0 * temp3 * (3.0 - 7.0 * theta2)) * cosio in
  let perige := (aodp * (1.0 - ecco) - AE) * XKMPER in
  let s := fst (density perige) in
  let qoms2t := snd (density perige) in
  let tsi := 1.0 / (aodp - s) in
  let eta := aodp * ecco * tsi in
  let etasq := eta * eta in
  let eeta := ecco * eta in
  let psisq := Rabs (1.0 - etasq) in
  let coef := qoms2t * tsi ^ 4 in
  let coef1 := coef / Rpower psisq 3.5 in
  let c1 := 0.5 * bstar * coef1 * xnodp * aodp *
    (1.0 + 2.5 * etasq + eeta * (4.0 + etasq)) in
  let pp := aodp * betao2 in
  let gamma := bstar / (2.0 * pp) in
  let edot := - c1 * (1.0 - ecco) in
  let a3ovk2 := -1.0 * A3OVK2 in
  let xlcof :=
    0.125 * a3ovk2 * sinio * (3.0 + 5.0 * cosio) / (1.0 + cosio) in
  let aycof := 0.25 * a3ovk2 * sinio in
  let ds := dsinit jdsatepoch xnodp ecco inclo nodeo argpo mo in
  {| Sdp8InitState.aodp := aodp;
     Sdp8InitState.xnodp := xnodp;
     Sdp8InitState.xmdot := xmdot;
     Sdp8InitState.omgdot := omgdot;
     Sdp8InitState.xnodot := xnodot;
     Sdp8InitState.pp := pp;
     Sdp8InitState.gamma := gamma;
     Sdp8InitState.xlcof := xlcof;
     Sdp8InitState.aycof := aycof;
     Sdp8InitState.x3thm1 := x3thm1;
     Sdp8InitState.x1mth2 := x1mth2;
     Sdp8InitState.x7thm1 := x7thm1;
     Sdp8InitState.cosio := cosio;
     Sdp8InitState.sinio := sinio;
     Sdp8InitState.eta := eta;
     Sdp8InitState.edot := edot;
     Sdp8InitState.ds := ds |}.

(** Lines 166-187 of [sdp8]: the five elements returned by [dsper]. *)
Definition sdp8_elements (elements : OrbitalElements.T)
  (state : Sdp8InitState.T) (tsince : R) : Elements5 :=
  let xmdot := Sdp8InitState.xmdot state in
  let omgdot := Sdp8InitState.omgdot state in
  let xnodot := Sdp8InitState.xnodot state in
  let cosio := Sdp8InitState.cosio state in
  let edot := Sdp8InitState.edot state in
  let ds := Sdp8InitState.ds state in
  let ecco := OrbitalElements.ecco elements in
  let argpo := OrbitalElements.argpo elements in
  let nodeo := OrbitalElements.nodeo elements in
  let mo := OrbitalElements.mo elements in
  let t := tsince in
  let xmdf := mo + xmdot * t in
  let omgadf := argpo + omgdot * t in
  let xnoddf := nodeo + xnodot * t in
  let secular := dssec ds t ecco (acos cosio) xnoddf omgadf xmdf in
  let em := el_e secular + edot * t in
  dsper ds t em (el_xinc secular) (el_omgadf secular)
    (el_xnode secular) (el_xmam secular).

Definition sdp8 (elements : OrbitalElements.T) (tsince : R)
  (initState : option Sdp8InitState.T) : PropagationResult :=
  let state :=
    match initState with Some s => s | None => sdp8init elements end in
  let periodic := sdp8_elements elements state tsince in
  let em := el_e periodic in
  let xinc := el_xinc periodic in
  let omega := el_omgadf periodic in
  let xn := el_xnode periodic in
  let xmam := el_xmam periodic in
  if (em >=? 1.0) || (em <? -0.001) then
    {| state := zero_state; tsince := tsince; algorithm := SDP8;
       error := true; errorMessage := Some decayed_message |}
  else
    let a := Sdp8InitState.aodp state in
    let xl := xmam + omega + xn in
    let '(axn, ayn, capu) :=
      long_period a em xl omega xn
        (Sdp8InitState.xlcof state) (Sdp8InitState.aycof state) in
    let epw := Kepler.solve capu axn ayn in
    let elsq := axn * axn + ayn * ayn in
    let pl := a * (1.0 - elsq) in
    if pl <? 0.0 then
      {| state := zero_state; tsince := tsince; algorithm := SDP8;
         error := true; errorMessage := Some semi_latus_message |}
    else
      {| state := sdp_state_vector a axn ayn epw xn xinc
                    (Sdp8InitState.x3thm1 state) (Sdp8InitState.x1mth2 state)
                    (Sdp8InitState.x7thm1 state);
         tsince := tsince; algorithm := SDP8;
         error := false; errorMessage := None |}.

(** ** index.ts: the dispatcher *)

Definition getSatelliteType (no : R) : SatelliteType :=
  let period := TWOPI / no in
  if period <? DEEP_SPACE_THRESHOLD then near_earth else deep_space.

Definition propagate (elements : OrbitalElements.T) (tsince : R)
  : PropagationResult :=
  let satType := getSatelliteType (OrbitalElements.no elements) in
  match satType with
  | near_earth => sgp4 elements tsince None
  | deep_space => sdp4 elements tsince None
  end.

(** ** Concrete element sets *)


(** A circular orbit at the inclination where [3 * cos^2 i = 1] (about
    54.74 degrees), with a mean motion of 0.071 rad/min: its perigee is
    about 200 km above the reference radius. *)
Definition low_orbit_elements : OrbitalElements.T :=
  {| OrbitalElements.satnum := 2;
     OrbitalElements.epochYear := 2024;
     OrbitalElements.epochDay := 1;
     OrbitalElements.jdsatepoch := 2460310.5;
     OrbitalElements.ndot := 0;
     OrbitalElements.nddot := 0;
     OrbitalElements.bstar := 0;
     OrbitalElements.inclo := acos (sqrt (1 / 3));
     OrbitalElements.nodeo := 0;
     OrbitalElements.ecco := 0;
     OrbitalElements.argpo := 0;
     OrbitalElements.mo := 0;
     OrbitalElements.no := 0.071;
     OrbitalElements.revnum := 0 |}.

(** A deep-space common block with every coefficient at zero, and an SDP4
    state built on it whose semi-major axis is half an Earth radius. *)
Definition flat_ds : DeepSpaceCommon.T :=
  DeepSpaceCommon.mk 0 0 0 0 0 0 0 0 0 0 0 0 0 0 0 0 0 0 0 0 0 0 0 0 0 0 0 0
    0 0 0 0 0 0 0 0 0 0 0 0 0 0 0 0 0 0 0 0 0 0 0 0 0 false false 0 0 0 0 0.

Definition low_axis_state : Sdp4InitState.T :=
  {| Sdp4InitState.aodp := 0.5;
     Sdp4InitState.xnodp := 0.01;
     Sdp4InitState.xmdot := 0;
     Sdp4InitState.omgdot := 0;
     Sdp4InitState.xnodot := 0;
     Sdp4InitState.xnodcf := 0;
     Sdp4InitState.t2cof := 0;
     Sdp4InitState.xlcof := 0;
     Sdp4InitState.aycof := 0;
     Sdp4InitState.x3thm1 := 2;
     Sdp4InitState.x1mth2 := 0;
     Sdp4InitState.x7thm1 := 6;
     Sdp4InitState.cosio := 1;
     Sdp4InitState.sinio := 0;
     Sdp4InitState.betao := 1;
     Sdp4InitState.betao2 := 1;
     Sdp4InitState.ds := flat_ds |}.

Definition low_axis_elements : OrbitalElements.T :=
  {| OrbitalElements.satnum := 3;
     OrbitalElements.epochYear := 2024;
     OrbitalElements.epochDay := 1;
     OrbitalElements.jdsatepoch := 2460310.5;
     OrbitalElements.ndot := 0;
     OrbitalElements.nddot := 0;
     OrbitalElements.bstar := 0;
     OrbitalElements.inclo := 0;
     OrbitalElements.nodeo := 0;
     OrbitalElements.ecco := 0.1;
     OrbitalElements.argpo := 0;
     OrbitalElements.mo := 0;
     OrbitalElements.no := 0.01;
     OrbitalElements.revnum := 0 |}.

(** ** Intermediate values of the deep-space evaluators *)

(** The eccentricity vector of [sdp4] (lines 172-189 of sdp4.ts), from the
    elements left by [dsper]: the triple [(axn, ayn, capu)]. *)
Definition sdp4_long_period (elements : OrbitalElements.T)
  (state : Sdp4InitState.T) (tsince : R) : R * R * R :=
  let periodic := sdp4_elements elements state tsince in
  let templ := Sdp4InitState.t2cof state * (tsince * tsince) in
  let xl := el_xmam periodic + el_omgadf periodic + el_xnode periodic +
            Sdp4InitState.xnodp state * templ in
  long_period (sdp4_a state tsince) (el_e periodic) xl
    (el_omgadf periodic) (el_xnode periodic)
    (Sdp4InitState.xlcof state) (Sdp4InitState.aycof state).

(** The semi-latus rectum [pl] of line 214 of sdp4.ts. *)
Definition sdp4_pl (elements : OrbitalElements.T)
  (state : Sdp4InitState.T) (tsince : R) : R :=
  let axn := fst (fst (sdp4_long_period elements state tsince)) in
  let ayn := snd (fst (sdp4_long_period elements state tsince)) in
  sdp4_a state tsince * (1.0 - (axn * axn + ayn * ayn)).

(** The same for [sdp8] (lines 200-217 and 243 of sdp8.ts), where the
    semi-major axis is [aodp] itself. *)
Definition sdp8_long_period (elements : OrbitalElements.T)
  (state : Sdp8InitState.T) (tsince : R) : R * R * R :=
  let periodic := sdp8_elements elements state tsince in
  let xl := el_xmam periodic + el_omgadf periodic + el_xnode periodic in
  long_period (Sdp8InitState.aodp state) (el_e periodic) xl
    (el_omgadf periodic) (el_xnode periodic)
    (Sdp8InitState.xlcof state) (Sdp8InitState.aycof state).

Definition sdp8_pl (elements : OrbitalElements.T)
  (state : Sdp8InitState.T) (tsince : R) : R :=
  let axn := fst (fst (sdp8_long_period elements state tsince)) in
  let ayn := snd (fst (sdp8_long_period elements state tsince)) in
  Sdp8InitState.aodp state * (1.0 - (axn * axn + ayn * ayn)).

(** ** tle-parser.ts: period and semi-major axis *)

Definition getOrbitalPeriod (no : R) : R := TWOPI / no.

Definition getSemiMajorAxis (no : R) : R := Rpower (XKE / no) TOTHRD.

(** ** Short-period values of the evaluators *)

(** The radius [rk] and the rates [rdotk], [rfdotk] of [sgp4] (lines
    280-321 of sgp4.ts), as a triple. *)
Definition sgp4_short_period (a axn ayn epw x3thm1 x1mth2 : R)
  : R * R * R :=
  let xn := XKE / Rpower a 1.5 in
  let sinepw := sin epw in
  let cosepw := cos epw in
  let ecose := axn * cosepw + ayn * sinepw in
  let esine := axn * sinepw - ayn * cosepw in
  let elsq := axn * axn + ayn * ayn in
  let pl := a * (1.0 - elsq) in
  let r := a * (1.0 - ecose) in
  let rdot := XKE * sqrt a * esine / r in
  let rfdot := XKE * sqrt pl / r in
  let betal := sqrt (1.0 - elsq) in
  let temp6 := esine / (1.0 + betal) in
  let aOverR := a / r in
  let cosu := aOverR * (cosepw - axn + ayn * temp6) in
  let sinu := aOverR * (sinepw - ayn - axn * temp6) in
  let sin2u := 2.0 * sinu * cosu in
  let cos2u := 2.0 * cosu * cosu - 1.0 in
  let temp7 := 1.0 / pl in
  let temp8 := CK2 * temp7 in
  let temp9 := temp8 * temp7 in
  let rk := r * (1.0 - 1.5 * temp9 * betal * x3thm1) +
            0.5 * temp8 * x1mth2 * cos2u in
  let rdotk := rdot - xn * temp8 * x1mth2 * sin2u in
  let rfdotk := rfdot + xn * temp8 * (x1mth2 * cos2u + 1.5 * x3thm1) in
  (rk, rdotk, rfdotk).

(** The same values in [sdp4] and [sdp8] (lines 208-247 of sdp4.ts). *)
Definition sdp_short_period (a axn ayn epw x3thm1 x1mth2 : R)
  : R * R * R :=
  let xnn := XKE / Rpower a 1.5 in
  let sinepw := sin epw in
  let cosepw := cos epw in
  let ecose := axn * cosepw + ayn * sinepw in
  let esine := axn * sinepw - ayn * cosepw in
  let elsq := axn * axn + ayn * ayn in
  let pl := a * (1.0 - elsq) in
  let r := a * (1.0 - ecose) in
  let invr := 1.0 / r in
  let rdot := XKE * sqrt a * esine * invr in
  let rfdot := XKE * sqrt pl * invr in
  let betal := sqrt (1.0 - elsq) in
  let temp6 := betal / (1.0 + betal) in
  let cosu := invr * (cosepw - axn + ayn * esine * temp6) in
  let sinu := invr * (sinepw - ayn - axn * esine * temp6) in
  let sin2u := 2.0 * sinu * cosu in
  let cos2u := 2.0 * cosu * cosu - 1.0 in
  let temp7 := 1.0 / pl in
  let temp8 := CK2 * temp7 in
  let temp9 := temp8 * temp7 in
  let rk := r * (1.0 - 1.5 * temp9 * betal * x3thm1) +
            0.5 * temp8 * x1mth2 * cos2u in
  let rdotk := rdot - xnn * temp8 * x1mth2 * sin2u in
  let rfdotk := rfdot + xnn * temp8 * (x1mth2 * cos2u + 1.5 * x3thm1) in
  (rk, rdotk, rfdotk).

(** ** sgp8.ts *)

Module Sgp8InitState.
Record T : Type := mk {
  aodp : R;
  xnodp : R;
  c1 : R;
  c4 : R;
  c5 : R;
  d2 : R;
  d3 : R;
  d4 : R;
  xmdot : R;
  omgdot : R;
  xnodot : R;
  t2cof : R;
  t3cof : R;
  t4cof : R;
  t5cof : R;
  xlcof : R;
  aycof : R;
  x3thm1 : R;
  x1mth2 : R;
  x7thm1 : R;
  cosio : R;
  sinio : R;
  eta : R;
  sinmo : R;
  delmo : R;
  xmcof : R;
  omgcof : R;
  xnodcf : R;
  isimp : R
}.
End Sgp8InitState.

Definition sgp8init (elements : OrbitalElements.T) : Sgp8InitState.T :=
  let bstar := OrbitalElements.bstar elements in
  let inclo := OrbitalElements.inclo elements in
  let nodeo := OrbitalElements.nodeo elements in
  let ecco := OrbitalElements.ecco elements in
  let argpo := OrbitalElements.argpo elements in
  let mo := OrbitalElements.mo elements in
  let no := OrbitalElements.no elements in
  let rec := recover no ecco inclo in
  let cosio := r_cosio rec in
  let theta2 := r_theta2 rec in
  let x3thm1 := r_x3thm1 rec in
  let betao2 := r_betao2 rec in
  let betao := r_betao rec in
  let xnodp := r_xnodp rec in
  let aodp := r_aodp rec in
  let isimp :=
    if (aodp * (1.0 - ecco) / AE) <? (220.0 / XKMPER + AE) then 1 else 0 in
  let sinio := sin inclo in
  let x1mth2 := 1.0 - theta2 in
  let x7thm1 := 7.0 * theta2 - 1.0 in
  let theta4 := theta2 * theta2 in
  let pinvsq := 1.0 / (aodp * aodp * betao2 * betao2) in
  let temp1 := 3.0 * CK2 * pinvsq * xnodp in
  let temp2 := temp1 * CK2 * pinvsq in
  let temp3 := 1.25 * CK4 * pinvsq * pinvsq * xnodp in
  let xmdot := xnodp + 0.5 * temp1 * betao * x3thm1 +
    0.0625 * temp2 * betao * (13.0 - 78.0 * theta2 + 137.0 * theta4) in
  let x1m5th := 1.0 - 5.0 * theta2 in
  let omgdot := -0.5 * temp1 * x1m5th +
    0.0625 * temp2 * (7.0 - 114.0 * theta2 + 395.0 * theta4) +
    temp3 * (3.0 - 36.0 * theta2 + 49.0 * theta4) in
  let xhdot1 := - temp1 * cosio in
  let xnodot := xhdot1 + (0.5 * temp2 * (4.0 - 19.0 * theta2) +
    2.0 * temp3 * (3.0 - 7.0 * theta2)) * cosio in
  let perige := (aodp * (1.0 - ecco) - AE) * XKMPER in
  let s := fst (density perige) in
  let qoms2t := snd (density perige) in
  let tsi := 1.0 / (aodp - s) in
  let eta := aodp * ecco * tsi in
  let etasq := eta * eta in
  let eeta := ecco * eta in
  let psisq := Rabs (1.0 - etasq) in
  let coef := qoms2t * tsi ^ 4 in
  let coef1 := coef / Rpower psisq 3.5 in
  let c2 := coef1 * xnodp * (aodp * (1.0 + 1.5 * etasq + eeta * (4.0 + etasq)) +
    (0.75 * CK2 * tsi / psisq) * x3thm1 * (8.0 + 3.0 * etasq * (8.0 + etasq))) in
  let c1 := bstar * c2 in
  let a3ovk2 := -1.0 * A3OVK2 in
  let c3 := coef * tsi * a3ovk2 * xnodp * AE * sinio / ecco in
  let c4 := 2.0 * xnodp * coef1 * aodp * betao2 *
    (eta * (2.0 + 0.5 * etasq) + ecco * (0.5 + 2.0 * etasq) -
      (2.0 * CK2 * tsi / (aodp * psisq)) *
      (-3.0 * x3thm1 * (1.0 - 2.0 * eeta + etasq * (1.5 - 0.5 * eeta)) +
        0.75 * x1mth2 * (2.0 * etasq - eeta * (1.0 + etasq)) *
        cos (2.0 * argpo))) in
  let c5 := 2.0 * coef1 * aodp * betao2 *
    (1.0 + 2.75 * (etasq + eeta) + eeta * etasq) in
  let omgcof := bstar * c3 * cos argpo in
  let xmcof :=
    if ecco >? 1.0e-4 then - TOTHRD * coef * bstar * AE / eeta else 0.0 in
  let xnodcf := 3.5 * betao2 * xhdot1 * c1 in
  let t2cof := 1.5 * c1 in
  let xlcof :=
    0.125 * a3ovk2 * sinio * (3.0 + 5.0 * cosio) / (1.0 + cosio) in
  let aycof := 0.25 * a3ovk2 * sinio in
  let delmo := (1.0 + eta * cos mo) ^ 3 in
  let sinmo := sin mo in
  let ho := sgp4_high_order isimp aodp tsi s c1 in
  {| Sgp8InitState.aodp := aodp;
     Sgp8InitState.xnodp := xnodp;
     Sgp8InitState.c1 := c1;
     Sgp8InitState.c4 := c4;
     Sgp8InitState.c5 := c5;
     Sgp8InitState.d2 := ho_d2 ho;
     Sgp8InitState.d3 := ho_d3 ho;
     Sgp8InitState.d4 := ho_d4 ho;
     Sgp8InitState.xmdot := xmdot;
     Sgp8InitState.omgdot := omgdot;
     Sgp8InitState.xnodot := xnodot;
     Sgp8InitState.t2cof := t2cof;
     Sgp8InitState.t3cof := ho_t3cof ho;
     Sgp8InitState.t4cof := ho_t4cof ho;
     Sgp8InitState.t5cof := ho_t5cof ho;
     Sgp8InitState.xlcof := xlcof;
     Sgp8InitState.aycof := aycof;
     Sgp8InitState.x3thm1 := x3thm1;
     Sgp8InitState.x1mth2 := x1mth2;
     Sgp8InitState.x7thm1 := x7thm1;
     Sgp8InitState.cosio := cosio;
     Sgp8InitState.sinio := sinio;
     Sgp8InitState.eta := eta;
     Sgp8InitState.sinmo := sinmo;
     Sgp8InitState.delmo := delmo;
     Sgp8InitState.xmcof := xmcof;
     Sgp8InitState.omgcof := omgcof;
     Sgp8InitState.xnodcf := xnodcf;
     Sgp8InitState.isimp := isimp |}.

(** The secular update of [sgp8] (lines 210-234): the epoch elements and
    [bstar] are read from the element record, the coefficients from the
    state. *)
Definition sgp8_secular (elements : OrbitalElements.T)
  (state : Sgp8InitState.T) (tsince : R) : Sgp4Secular :=
  let c1 := Sgp8InitState.c1 state in
  let c4 := Sgp8InitState.c4 state in
  let c5 := Sgp8InitState.c5 state in
  let d2 := Sgp8InitState.d2 state in
  let d3 := Sgp8InitState.d3 state in
  let d4 := Sgp8InitState.d4 state in
  let xmdot := Sgp8InitState.xmdot state in
  let omgdot := Sgp8InitState.omgdot state in
  let xnodot := Sgp8InitState.xnodot state in
  let t2cof := Sgp8InitState.t2cof state in
  let t3cof := Sgp8InitState.t3cof state in
  let t4cof := Sgp8InitState.t4cof state in
  let t5cof := Sgp8InitState.t5cof state in
  let eta := Sgp8InitState.eta state in
  let sinmo := Sgp8InitState.sinmo state in
  let delmo := Sgp8InitState.delmo state in
  let xmcof := Sgp8InitState.xmcof state in
  let omgcof := Sgp8InitState.omgcof state in
  let xnodcf := Sgp8InitState.xnodcf state in
  let isimp := Sgp8InitState.isimp state in
  let argpo := OrbitalElements.argpo elements in
  let nodeo := OrbitalElements.nodeo elements in
  let mo := OrbitalElements.mo elements in
  let bstar := OrbitalElements.bstar elements in
  let t := tsince in
  let xmdf := mo + xmdot * t in
  let omgadf := argpo + omgdot * t in
  let xnoddf := nodeo + xnodot * t in
  let omega := omgadf in
  let xmp := xmdf in
  let tsq := t * t in
  let xnode := xnoddf + xnodcf * tsq in
  let tempa := 1.0 - c1 * t in
  let tempe := bstar * c4 * t in
  let templ := t2cof * tsq in
  if isimp =? 0 then
    let delomg := omgcof * t in
    let delm :=
      if xmcof >? 0 then xmcof * ((1.0 + eta * cos xmdf) ^ 3 - delmo)
      else 0.0 in
    let temp := delomg + delm in
    let xmp := xmdf + temp in
    let omega := omgadf - temp in
    let tcube := tsq * t in
    let tfour := t * tcube in
    let tempa := tempa - d2 * tsq - d3 * tcube - d4 * tfour in
    let tempe := tempe + bstar * c5 * (sin xmp - sinmo) in
    let templ := templ + t3cof * tcube + tfour * (t4cof + t * t5cof) in
    mkSgp4Secular xmp omega xnode tempa tempe templ
  else
    mkSgp4Secular xmp omega xnode tempa tempe templ.

Definition sgp8_a (elements : OrbitalElements.T) (state : Sgp8InitState.T)
  (tsince : R) : R :=
  let tempa := s_tempa (sgp8_secular elements state tsince) in
  Sgp8InitState.aodp state * tempa * tempa.

Definition sgp8_e (elements : OrbitalElements.T) (state : Sgp8InitState.T)
  (tsince : R) : R :=
  OrbitalElements.ecco elements -
  s_tempe (sgp8_secular elements state tsince).

Definition sgp8_long_period (elements : OrbitalElements.T)
  (state : Sgp8InitState.T) (tsince : R) : R * R * R :=
  let sec := sgp8_secular elements state tsince in
  let xl := s_xmp sec + s_omega sec + s_xnode sec +
            Sgp8InitState.xnodp state * s_templ sec in
  long_period (sgp8_a elements state tsince) (sgp8_e elements state tsince)
    xl (s_omega sec) (s_xnode sec)
    (Sgp8InitState.xlcof state) (Sgp8InitState.aycof state).


(** Lines 282-345 of sgp8.ts past the [pl] test. *)
Definition sgp8_state_vector
  (a axn ayn epw xnode cosio sinio x3thm1 x1mth2 x7thm1 : R) : StateVector :=
  let xn := XKE / Rpower a 1.5 in
  let sinepw := sin epw in
  let cosepw := cos epw in
  let ecose := axn * cosepw + ayn * sinepw in
  let esine := axn * sinepw - ayn * cosepw in
  let elsq := axn * axn + ayn * ayn in
  let pl := a * (1.0 - elsq) in
  let r := a * (1.0 - ecose) in
  let invr := 1.0 / r in
  let rdot := XKE * sqrt a * esine * invr in
  let rfdot := XKE * sqrt pl * invr in
  let betal := sqrt (1.0 - elsq) in
  let temp6 := betal / (1.0 + betal) in
  let cosu := invr * (cosepw - axn + ayn * esine * temp6) in
  let sinu := invr * (sinepw - ayn - axn * esine * temp6) in
  let u := Js.atan2 sinu cosu in
  let sin2u := 2.0 * sinu * cosu in
  let cos2u := 2.0 * cosu * cosu - 1.0 in
  let temp7 := 1.0 / pl in
  let temp8 := CK2 * temp7 in
  let temp9 := temp8 * temp7 in
  let rk := r * (1.0 - 1.5 * temp9 * betal * x3thm1) +
            0.5 * temp8 * x1mth2 * cos2u in
  let uk := u - 0.25 * temp9 * x7thm1 * sin2u in
  let xnodek := xnode + 1.5 * temp9 * cosio * sin2u in
  let xinck := acos cosio + 1.5 * temp9 * cosio * sinio * cos2u in
  let rdotk := rdot - xn * temp8 * x1mth2 * sin2u in
  let rfdotk := rfdot + xn * temp8 * (x1mth2 * cos2u + 1.5 * x3thm1) in
  let sinuk := sin uk in
  let cosuk := cos uk in
  let sinik := sin xinck in
  let cosik := cos xinck in
  let sinnok := sin xnodek in
  let cosnok := cos xnodek in
  let xmx := - sinnok * cosik in
  let xmy := cosnok * cosik in
  let ux := xmx * sinuk + cosnok * cosuk in
  let uy := xmy * sinuk + sinnok * cosuk in
  let uz := sinik * sinuk in
  let vx := xmx * cosuk - cosnok * sinuk in
  let vy := xmy * cosuk - sinnok * sinuk in
  let vz := sinik * cosuk in
  let x := rk * ux * XKMPER in
  let y := rk * uy * XKMPER in
  let z := rk * uz * XKMPER in
  let xdot := (rdotk * ux + rfdotk * vx) * XKMPER / 60.0 in
  let ydot := (rdotk * uy + rfdotk * vy) * XKMPER / 60.0 in
  let zdot := (rdotk * uz + rfdotk * vz) * XKMPER / 60.0 in
  mkStateVector x y z xdot ydot zdot.

Definition sgp8 (elements : OrbitalElements.T) (tsince : R)
  (initState : option Sgp8InitState.T) : PropagationResult :=
  let state :=
    match initState with Some s => s | None => sgp8init elements end in
  let sec := sgp8_secular elements state tsince in
  let xnode := s_xnode sec in
  let a := sgp8_a elements state tsince in
  let e := sgp8_e elements state tsince in
  if (a <? 0.95) || (e >=? 1.0) || (e <? -0.001) then
    {| state := zero_state; tsince := tsince; algorithm := SGP8;
       error := true; errorMessage := Some decayed_message |}
  else
    let '(axn, ayn, capu) := sgp8_long_period elements state tsince in
    let epw := Kepler.solve capu axn ayn in
    let elsq := axn * axn + ayn * ayn in
    let pl := a * (1.0 - elsq) in
    if pl <? 0.0 then
      {| state := zero_state; tsince := tsince; algorithm := SGP8;
         error := true; errorMessage := Some semi_latus_message |}
    else
      {| state := sgp8_state_vector a axn ayn epw xnode
                    (Sgp8InitState.cosio state) (Sgp8InitState.sinio state)
                    (Sgp8InitState.x3thm1 state) (Sgp8InitState.x1mth2 state)
                    (Sgp8InitState.x7thm1 state);
         tsince := tsince; algorithm := SGP8;
         error := false; errorMessage := None |}.

(** ** index.ts: explicit model selection

    [sgp] lives in sgp.ts, which is not among the sources; it is a
    parameter of [propagateWithModel].  The model is the string received
    at run time, and the [default] branch throws. *)

Inductive Outcome (A : Type) : Type :=
| Returned (value : A)
| Thrown (message : string).

Arguments Returned {A} value.
Arguments Thrown {A} message.

Definition propagateWithModel
  (sgp : OrbitalElements.T -> R -> PropagationResult)
  (elements : OrbitalElements.T) (tsince : R) (model : string)
  : Outcome PropagationResult :=
  if String.eqb model "SGP" then Returned (sgp elements tsince)
  else if String.eqb model "SGP4" then Returned (sgp4 elements tsince None)
  else if String.eqb model "SDP4" then Returned (sdp4 elements tsince None)
  else if String.eqb model "SGP8" then Returned (sgp8 elements tsince None)
  else if String.eqb model "SDP8" then Returned (sdp8 elements tsince None)
  else Thrown ("Unknown propagation model: " ++ model).

(** The string each value of the [algorithm] field stands for. *)
Definition algorithm_name (a : Algorithm) : string :=
  match a with
  | SGP => "SGP"
  | SGP4 => "SGP4"
  | SDP4 => "SDP4"
  | SGP8 => "SGP8"
  | SDP8 => "SDP8"
  end.

(** ** observer.ts

    A [while] loop that adds or subtracts a positive step until a bound
    is passed is run for a number of iterations computed from its input,
    enough for its guard to fail (see [add_while_below_spec] and
    [sub_while_above_spec]); a [for] loop over [i = 0, 1, ...] with the
    guard [i < n] on a number [n] runs [for_count n] times. *)

Fixpoint while_below (fuel : nat) (lo step x : R) : R :=
  match fuel with
  | O => x
  | S f => if x <? lo then while_below f lo step (x + step) else x
  end.

Fixpoint while_above (fuel : nat) (hi step x : R) : R :=
  match fuel with
  | O => x
  | S f => if x >? hi then while_above f hi step (x - step) else x
  end.

Definition loop_fuel (d step : R) : nat := Z.to_nat (up (d / step)).

(** [while (x < lo) x += step] *)
Definition add_while_below (lo step x : R) : R :=
  while_below (loop_fuel (lo - x) step) lo step x.

(** [while (x > hi) x -= step] *)
Definition sub_while_above (hi step x : R) : R :=
  while_above (loop_fuel (x - hi) step) hi step x.

(** The number of naturals [i] with [i < n]. *)
Definition for_count (n : R) : nat := Z.to_nat (- Int_part (- n)).

Module Observer.
Record T : Type := mk {
  latitude : R;
  longitude : R;
  altitude : R
}.
End Observer.

Module LookAngles.
Record T : Type := mk {
  azimuth : R;
  elevation : R;
  range : R;
  rangeRate : R
}.
End LookAngles.

Module GeodeticCoordinates.
Record T : Type := mk {
  latitude : R;
  longitude : R;
  altitude : R
}.
End GeodeticCoordinates.

Module TopocentricCoordinates.
Record T : Type := mk {
  south : R;
  east : R;
  up : R;
  southRate : R;
  eastRate : R;
  upRate : R
}.
End TopocentricCoordinates.

Module LatLon.
Record T : Type := mk {
  latitude : R;
  longitude : R
}.
End LatLon.

Module VisibilityFootprint.
Record T : Type := mk {
  subSatellitePoint : LatLon.T;
  altitude : R;
  radiusKm : R;
  radiusDeg : R;
  maxRange : R;
  minElevation : R;
  boundaryPoints : list LatLon.T
}.
End VisibilityFootprint.

Module ObservationResult.
Record T : Type := mk {
  lookAngles : LookAngles.T;
  geodetic : GeodeticCoordinates.T;
  topocentric : TopocentricCoordinates.T;
  footprint : VisibilityFootprint.T;
  visible : bool;
  tsince : R
}.
End ObservationResult.

Definition EARTH_FLATTENING : R := 1.0 / 298.26.
Definition EARTH_ECCENTRICITY_SQ : R :=
  EARTH_FLATTENING * (2.0 - EARTH_FLATTENING).

(** The Earth central angle [rho] of the footprint (lines 121-147). *)
Definition footprint_rho (altitude minElevation : R) : R :=
  let Re := XKMPER in
  let Rs := Re + altitude in
  let elRad := minElevation * DEG2RAD in
  if minElevation =? 0 then acos (Re / Rs)
  else
    let cosRho := Re * cos elRad / Rs in
    if cosRho >=? 1 then 0
    else if cosRho <=? -1 then PI
    else acos cosRho - elRad.

(** The body of the boundary loop for the index [i] (lines 167-189). *)
Definition boundary_point (latRad lonRad rho numPoints : R) (i : nat)
  : LatLon.T :=
  let bearing := (INR i / numPoints) * TWOPI in
  let pointLat := asin (sin latRad * cos rho +
                        cos latRad * sin rho * cos bearing) in
  let pointLon := lonRad + Js.atan2
    (sin bearing * sin rho * cos latRad)
    (cos rho - sin latRad * sin pointLat) in
  let pointLonDeg := pointLon / DEG2RAD in
  let pointLonDeg := sub_while_above 180 360 pointLonDeg in
  let pointLonDeg := add_while_below (-180) 360 pointLonDeg in
  {| LatLon.latitude := pointLat / DEG2RAD;
     LatLon.longitude := pointLonDeg |}.

Definition calculateVisibilityFootprint (geodetic : GeodeticCoordinates.T)
  (minElevation numPoints : R) : VisibilityFootprint.T :=
  let latitude := GeodeticCoordinates.latitude geodetic in
  let longitude := GeodeticCoordinates.longitude geodetic in
  let altitude := GeodeticCoordinates.altitude geodetic in
  let Re := XKMPER in
  let Rs := Re + altitude in
  let rho := footprint_rho altitude minElevation in
  let radiusKm := Re * rho in
  let radiusDeg := rho / DEG2RAD in
  let maxRange := sqrt (Re * Re + Rs * Rs - 2 * Re * Rs * cos rho) in
  let latRad := latitude * DEG2RAD in
  let lonRad := longitude * DEG2RAD in
  let boundaryPoints :=
    map (boundary_point latRad lonRad rho numPoints)
        (seq 0 (for_count numPoints)) in
  {| VisibilityFootprint.subSatellitePoint :=
       {| LatLon.latitude := latitude; LatLon.longitude := longitude |};
     VisibilityFootprint.altitude := altitude;
     VisibilityFootprint.radiusKm := radiusKm;
     VisibilityFootprint.radiusDeg := radiusDeg;
     VisibilityFootprint.maxRange := maxRange;
     VisibilityFootprint.minElevation := minElevation;
     VisibilityFootprint.boundaryPoints := boundaryPoints |}.

Definition geodeticToECEF (observer : Observer.T) : R * R * R :=
  let latRad := Observer.latitude observer * DEG2RAD in
  let lonRad := Observer.longitude observer * DEG2RAD in
  let altKm := Observer.altitude observer / 1000.0 in
  let sinLat := sin latRad in
  let cosLat := cos latRad in
  let sinLon := sin lonRad in
  let cosLon := cos lonRad in
  let N := XKMPER / sqrt (1.0 - EARTH_ECCENTRICITY_SQ * sinLat * sinLat) in
  let x := (N + altKm) * cosLat * cosLon in
  let y := (N + altKm) * cosLat * sinLon in
  let z := (N * (1.0 - EARTH_ECCENTRICITY_SQ) + altKm) * sinLat in
  (x, y, z).

Definition calculateGST (jd : R) : R :=
  let tut1 := (jd - 2451545.0) / 36525.0 in
  let gst := -6.2e-6 * tut1 * tut1 * tut1 +
    0.093104 * tut1 * tut1 +
    (876600.0 * 3600 + 8640184.812866) * tut1 +
    67310.54841 in
  let gst := Js.rem ((gst * DEG2RAD) / 240.0) TWOPI in
  if gst <? 0.0 then gst + TWOPI else gst.

(** The latitude iteration of [eciToGeodetic] (lines 266-275); [n] is the
    number of iterations left of the ten. *)
Fixpoint latitude_loop (n : nat) (z r latitude prevLat : R) : R :=
  match n with
  | O => latitude
  | S n' =>
      if Rabs (latitude - prevLat) >? 1e-12 then
        let prevLat := latitude in
        let sinLat := sin latitude in
        let C := 1.0 / sqrt (1.0 - EARTH_ECCENTRICITY_SQ * sinLat * sinLat) in
        let latitude :=
          Js.atan2 (z + XKMPER * C * EARTH_ECCENTRICITY_SQ * sinLat) r in
        latitude_loop n' z r latitude prevLat
      else latitude
  end.

Definition eciToGeodetic (x y z gmst : R) : GeodeticCoordinates.T :=
  let longitude := Js.atan2 y x - gmst in
  let longitude := add_while_below (- PI) TWOPI longitude in
  let longitude := sub_while_above PI TWOPI longitude in
  let r := sqrt (x * x + y * y) in
  let latitude := Js.atan2 z r in
  let latitude := latitude_loop 10 z r latitude 0 in
  let sinLat := sin latitude in
  let cosLat := cos latitude in
  let C := 1.0 / sqrt (1.0 - EARTH_ECCENTRICITY_SQ * sinLat * sinLat) in
  let altitude :=
    if Rabs cosLat >? 1e-10 then r / cosLat - XKMPER * C
    else Rabs z / Rabs sinLat -
         XKMPER * C * (1.0 - EARTH_ECCENTRICITY_SQ) in
  {| GeodeticCoordinates.latitude := latitude / DEG2RAD;
     GeodeticCoordinates.longitude := longitude / DEG2RAD;
     GeodeticCoordinates.altitude := altitude |}.

Definition calculateTopocentric (observer : Observer.T)
  (satX satY satZ satVx satVy satVz gmst : R) : TopocentricCoordinates.T :=
  let latRad := Observer.latitude observer * DEG2RAD in
  let lonRad := Observer.longitude observer * DEG2RAD in
  let '(ecefX, ecefY, ecefZ) := geodeticToECEF observer in
  let theta := gmst + lonRad in
  let obsX := ecefX * cos gmst - ecefY * sin gmst in
  let obsY := ecefX * sin gmst + ecefY * cos gmst in
  let obsZ := ecefZ in
  let earthRotRate := 7.2921158553e-5 in
  let obsVx := - earthRotRate * obsY in
  let obsVy := earthRotRate * obsX in
  let obsVz := 0 in
  let rangeX := satX - obsX in
  let rangeY := satY - obsY in
  let rangeZ := satZ - obsZ in
  let rangeVx := satVx - obsVx in
  let rangeVy := satVy - obsVy in
  let rangeVz := satVz - obsVz in
  let sinLat := sin latRad in
  let cosLat := cos latRad in
  let sinTheta := sin theta in
  let cosTheta := cos theta in
  let south := sinLat * cosTheta * rangeX + sinLat * sinTheta * rangeY -
               cosLat * rangeZ in
  let east := - sinTheta * rangeX + cosTheta * rangeY in
  let up := cosLat * cosTheta * rangeX + cosLat * sinTheta * rangeY +
            sinLat * rangeZ in
  let southRate := sinLat * cosTheta * rangeVx + sinLat * sinTheta * rangeVy -
                   cosLat * rangeVz in
  let eastRate := - sinTheta * rangeVx + cosTheta * rangeVy in
  let upRate := cosLat * cosTheta * rangeVx + cosLat * sinTheta * rangeVy +
                sinLat * rangeVz in
  {| TopocentricCoordinates.south := south;
     TopocentricCoordinates.east := east;
     TopocentricCoordinates.up := up;
     TopocentricCoordinates.southRate := southRate;
     TopocentricCoordinates.eastRate := eastRate;
     TopocentricCoordinates.upRate := upRate |}.

Definition calculateLookAngles (topocentric : TopocentricCoordinates.T)
  : LookAngles.T :=
  let south := TopocentricCoordinates.south topocentric in
  let east := TopocentricCoordinates.east topocentric in
  let up := TopocentricCoordinates.up topocentric in
  let southRate := TopocentricCoordinates.southRate topocentric in
  let eastRate := TopocentricCoordinates.eastRate topocentric in
  let upRate := TopocentricCoordinates.upRate topocentric in
  let range := sqrt (south * south + east * east + up * up) in
  let elevation := asin (up / range) / DEG2RAD in
  let azimuth := Js.atan2 east (- south) / DEG2RAD in
  let azimuth := if azimuth <? 0 then azimuth + 360 else azimuth in
  let rangeRate :=
    (south * southRate + east * eastRate + up * upRate) / range in
  {| LookAngles.azimuth := azimuth;
     LookAngles.elevation := elevation;
     LookAngles.range := range;
     LookAngles.rangeRate := rangeRate |}.

(** [observe]; the default of [footprintMinElevation] is 0, and
    [calculateVisibilityFootprint] is called with its default of 72
    points. *)
Definition observe (result : PropagationResult) (observer : Observer.T)
  (jd footprintMinElevation : R) : ObservationResult.T :=
  if error result then
    let emptyFootprint :=
      {| VisibilityFootprint.subSatellitePoint :=
           {| LatLon.latitude := 0; LatLon.longitude := 0 |};
         VisibilityFootprint.altitude := 0;
         VisibilityFootprint.radiusKm := 0;
         VisibilityFootprint.radiusDeg := 0;
         VisibilityFootprint.maxRange := 0;
         VisibilityFootprint.minElevation := 0;
         VisibilityFootprint.boundaryPoints := [] |} in
    {| ObservationResult.lookAngles := LookAngles.mk 0 (-90) 0 0;
       ObservationResult.geodetic := GeodeticCoordinates.mk 0 0 0;
       ObservationResult.topocentric :=
         TopocentricCoordinates.mk 0 0 0 0 0 0;
       ObservationResult.footprint := emptyFootprint;
       ObservationResult.visible := false;
       ObservationResult.tsince := tsince result |}
  else
    let sv := state result in
    let x := sv_x sv in
    let y := sv_y sv in
    let z := sv_z sv in
    let gmst := calculateGST jd in
    let geodetic := eciToGeodetic x y z gmst in
    let topocentric := calculateTopocentric observer x y z
                         (sv_xdot sv) (sv_ydot sv) (sv_zdot sv) gmst in
    let lookAngles := calculateLookAngles topocentric in
    let footprint :=
      calculateVisibilityFootprint geodetic footprintMinElevation 72 in
    let visible := LookAngles.elevation lookAngles >? 0 in
    {| ObservationResult.lookAngles := lookAngles;
       ObservationResult.geodetic := geodetic;
       ObservationResult.topocentric := topocentric;
       ObservationResult.footprint := footprint;
       ObservationResult.visible := visible;
       ObservationResult.tsince := tsince result |}.

(** The haversine angle [c] of [isWithinFootprint] and
    [distanceToSubSatellite] (the same lines in both). *)
Definition haversine_angle (observer : Observer.T)
  (footprint : VisibilityFootprint.T) : R :=
  let lat1 := Observer.latitude observer * DEG2RAD in
  let lon1 := Observer.longitude observer * DEG2RAD in
  let lat2 := LatLon.latitude
                (VisibilityFootprint.subSatellitePoint footprint) * DEG2RAD in
  let lon2 := LatLon.longitude
                (VisibilityFootprint.subSatellitePoint footprint) * DEG2RAD in
  let dLon := lon2 - lon1 in
  let a := sin ((lat2 - lat1) / 2) ^ 2 +
           cos lat1 * cos lat2 * sin (dLon / 2) ^ 2 in
  2 * Js.atan2 (sqrt a) (sqrt (1 - a)).

Definition isWithinFootprint (observer : Observer.T)
  (footprint : VisibilityFootprint.T) : bool :=
  let c := haversine_angle observer footprint in
  let angularDistDeg := c / DEG2RAD in
  angularDistDeg <=? VisibilityFootprint.radiusDeg footprint.

Definition distanceToSubSatellite (observer : Observer.T)
  (footprint : VisibilityFootprint.T) : R :=
  let c := haversine_angle observer footprint in
  XKMPER * c.

(** ** Julian dates (tle-parser.ts, observer.ts)

    The numbers that hold whole values (years, months, days, hours,
    minutes, the results of [parseInt] and of the getters of a [Date]) are
    integers [Z]; on them [Math.floor (a / b)] for a positive [b] is the
    quotient [a / b] of [Z], which rounds down, and [%] is [Z.rem], which
    has the sign of the dividend. [Math.floor] of a number that need not be
    whole is [Int_part]. *)

(** [jday] of tle-parser.ts *)
Definition jday (year mon day hr minute : Z) (sec : R) : R :=
  IZR (367 * year) -
  IZR (7 * (year + (mon + 9) / 12) / 4) +
  IZR (275 * mon / 9) +
  IZR day +
  1721013.5 +
  ((sec / 60.0 + IZR minute) / 60.0 + IZR hr) / 24.0.

(** The loop of [epochToJD] over the months [i = 0 .. 11] (lines 94-100):
    [daysInMonth] is what is left of the array from index [i] on. *)
Fixpoint month_loop (daysInMonth : list Z) (i mon day : Z) : Z * Z :=
  match daysInMonth with
  | [] => (mon, day)
  | d :: rest =>
      if (day <=? d)%Z then ((i + 1)%Z, day)
      else month_loop rest (i + 1)%Z mon (day - d)%Z
  end.

Definition epochToJD (epochYear : Z) (epochDay : R) : R :=
  let year :=
    if (epochYear <? 57)%Z then (epochYear + 2000)%Z
    else (epochYear + 1900)%Z in
  let dayOfYear := Int_part epochDay in
  let fractionOfDay := epochDay - IZR dayOfYear in
  let isLeap :=
    ((Z.rem year 4 =? 0)%Z && negb (Z.rem year 100 =? 0)%Z) ||
    (Z.rem year 400 =? 0)%Z in
  let daysInMonth :=
    [31; if isLeap then 29 else 28; 31; 30; 31; 30; 31; 31; 30; 31; 30; 31]%Z
  in
  let '(mon, day) := month_loop daysInMonth 0 1 dayOfYear in
  let hr := Int_part (fractionOfDay * 24.0) in
  let minute := Int_part ((fractionOfDay * 24.0 - IZR hr) * 60.0) in
  let sec := ((fractionOfDay * 24.0 - IZR hr) * 60.0 - IZR minute) * 60.0 in
  jday year mon day hr minute sec.

(** A JavaScript [Date], by the UTC getters that [dateToJD] reads. *)
Module Date.
Record T : Type := mk {
  getUTCFullYear : Z;
  getUTCMonth : Z;
  getUTCDate : Z;
  getUTCHours : Z;
  getUTCMinutes : Z;
  getUTCSeconds : Z;
  getUTCMilliseconds : Z
}.
End Date.

(** [dateToJD] of observer.ts *)
Definition dateToJD (date : Date.T) : R :=
  let year := Date.getUTCFullYear date in
  let month := (Date.getUTCMonth date + 1)%Z in
  let day := Date.getUTCDate date in
  let hour := Date.getUTCHours date in
  let minute := Date.getUTCMinutes date in
  let second := IZR (Date.getUTCSeconds date) +
                IZR (Date.getUTCMilliseconds date) / 1000 in
  let a := ((14 - month) / 12)%Z in
  let y := (year + 4800 - a)%Z in
  let m := (month + 12 * a - 3)%Z in
  let jd := (day + (153 * m + 2) / 5 + 365 * y + y / 4)%Z in
  let jd := (jd - y / 100 + y / 400 - 32045)%Z in
  IZR jd + (IZR hour - 12) / 24 + IZR minute / 1440 + second / 86400.

Definition calculateTsince (date : Date.T) (jdEpoch : R) : R :=
  let jdNow := dateToJD date in
  (jdNow - jdEpoch) * 1440.0.

(** ** findNextPass (observer.ts)

    The result [{ rise, set, maxElevation, maxElevationTime }], or [null]
    as [None]. *)
Module PassTimes.
Record T : Type := mk {
  rise : R;
  set : R;
  maxElevation : R;
  maxElevationTime : R
}.
End PassTimes.

(** The [for] loop of [findNextPass] from the time [t] on, with the
    variables [wasVisible], [riseTime] ([null] as [None]), [maxEl] and
    [maxElTime] as they are at the head of the loop; [fuel] bounds the
    number of iterations. *)
Fixpoint findNextPass_loop {E : Type} (fuel : nat) (elements : E)
  (observer : Observer.T) (propagateFn : E -> R -> PropagationResult)
  (jdStart tsinceStart maxMinutes stepMinutes : R)
  (t : R) (wasVisible : bool) (riseTime : option R) (maxEl maxElTime : R)
  : option PassTimes.T :=
  match fuel with
  | O => None
  | S fuel' =>
      if t <? tsinceStart + maxMinutes then
        let result := propagateFn elements t in
        let jd := jdStart + (t - tsinceStart) / 1440.0 in
        let obs := observe result observer jd 0 in
        let visible := ObservationResult.visible obs in
        let elevation :=
          LookAngles.elevation (ObservationResult.lookAngles obs) in
        let '(riseTime, maxEl, maxElTime) :=
          if visible && negb wasVisible then (Some t, elevation, t)
          else (riseTime, maxEl, maxElTime) in
        let '(maxEl, maxElTime) :=
          if visible then
            if elevation >? maxEl then (elevation, t) else (maxEl, maxElTime)
          else (maxEl, maxElTime) in
        match riseTime with
        | Some riseTime' =>
            if negb visible && wasVisible then
              Some {| PassTimes.rise := riseTime';
                      PassTimes.set := t;
                      PassTimes.maxElevation := maxEl;
                      PassTimes.maxElevationTime := maxElTime |}
            else
              findNextPass_loop fuel' elements observer propagateFn jdStart
                tsinceStart maxMinutes stepMinutes (t + stepMinutes)
                visible riseTime maxEl maxElTime
        | None =>
            findNextPass_loop fuel' elements observer propagateFn jdStart
              tsinceStart maxMinutes stepMinutes (t + stepMinutes)
              visible riseTime maxEl maxElTime
        end
      else None
  end.

(** [findNextPass]; for a positive step the loop's guard fails after
    [loop_fuel maxMinutes stepMinutes] iterations at the latest (see
    [findNextPass_fuel]). *)
Definition findNextPass {E : Type} (elements : E) (observer : Observer.T)
  (propagateFn : E -> R -> PropagationResult)
  (jdStart tsinceStart maxMinutes stepMinutes : R) : option PassTimes.T :=
  findNextPass_loop (loop_fuel maxMinutes stepMinutes) elements observer
    propagateFn jdStart tsinceStart maxMinutes stepMinutes
    tsinceStart false None (-90) 0.

(** The value of [t] in the iteration number [k] of the loop, and the
    observation made at a time [t] (lines 469-471). *)
Definition sample_time (tsinceStart stepMinutes : R) (k : nat) : R :=
  tsinceStart + INR k * stepMinutes.

Definition observation_at {E : Type} (elements : E) (observer : Observer.T)
  (propagateFn : E -> R -> PropagationResult) (jdStart tsinceStart t : R)
  : ObservationResult.T :=
  let result := propagateFn elements t in
  let jd := jdStart + (t - tsinceStart) / 1440.0 in
  observe result observer jd 0.

(** * Properties *)

(** ** The comparisons and the remainder *)

Lemma lt_iff (x y : R) : (x <? y) = true <-> x < y.
Proof. unfold Js.lt; destruct (Rlt_dec x y); split; intros; try easy; lra. Qed.

Lemma le_iff (x y : R) : (x <=? y) = true <-> x <= y.
Proof. unfold Js.le; destruct (Rle_dec x y); split; intros; try easy; lra. Qed.

Lemma gt_iff (x y : R) : (x >? y) = true <-> y < x.
Proof. apply lt_iff. Qed.

Lemma ge_iff (x y : R) : (x >=? y) = true <-> y <= x.
Proof. apply le_iff. Qed.

Lemma eq_iff (x y : R) : (x =? y) = true <-> x = y.
Proof. unfold Js.eq; destruct (Req_dec_T x y); split; intros; easy. Qed.

Lemma lt_not (x y : R) : (x <? y) = false <-> y <= x.
Proof. unfold Js.lt; destruct (Rlt_dec x y); split; intros; try easy; lra. Qed.

Lemma le_not (x y : R) : (x <=? y) = false <-> y < x.
Proof. unfold Js.le; destruct (Rle_dec x y); split; intros; try easy; lra. Qed.

(** Case analysis on every comparison of the goal. *)
Ltac js_cases :=
  unfold Js.gt, Js.ge, Js.lt, Js.le, Js.eq in *;
  repeat match goal with
    | |- context [Rlt_dec ?x ?y] => destruct (Rlt_dec x y)
    | |- context [Rle_dec ?x ?y] => destruct (Rle_dec x y)
    | |- context [Req_dec_T ?x ?y] => destruct (Req_dec_T x y)
    end.

Lemma TWOPI_pos : 0 < TWOPI.
Proof. unfold TWOPI; generalize PI_RGT_0; lra. Qed.

(** [x % y] differs from [x] by a whole multiple of [y]. *)
Lemma rem_congruent (x y : R) : exists k : Z, Js.rem x y = x + IZR k * y.
Proof.
  exists (- Js.trunc (x / y))%Z. unfold Js.rem. rewrite opp_IZR. ring.
Qed.

(** For a positive divisor the remainder of a non-negative dividend lies in
    [[0, y)]. *)
Lemma rem_of_nonneg (x y : R) : 0 < y -> 0 <= x -> 0 <= Js.rem x y < y.
Proof.
  intros Hy Hx. unfold Js.rem, Js.trunc.
  assert (Hq : 0 <= x / y).
  { unfold Rdiv. apply Rmult_le_pos; [ lra | ].
    apply Rlt_le, Rinv_0_lt_compat; lra. }
  destruct (Rle_dec 0 (x / y)) as [_ | n]; [ | contradiction ].
  destruct (base_Int_part (x / y)) as [Hlo Hhi].
  set (k := IZR (Int_part (x / y))) in *.
  assert (Hx' : x = (x / y) * y) by (field; lra).
  set (q := x / y) in *.
  split; rewrite Hx' at 1; nra.
Qed.

(** The remainder of a negative dividend lies in [(-y, 0]]. *)
Lemma rem_of_neg (x y : R) : 0 < y -> x < 0 -> - y < Js.rem x y <= 0.
Proof.
  intros Hy Hx. unfold Js.rem, Js.trunc.
  assert (Hx' : x = (x / y) * y) by (field; lra).
  assert (Hq : x / y < 0).
  { destruct (Rlt_dec (x / y) 0) as [H | H]; [ exact H | ].
    exfalso. assert (0 <= x / y) by lra. nra. }
  destruct (Rle_dec 0 (x / y)) as [H | _]; [ lra | ].
  destruct (base_Int_part (- (x / y))) as [Hlo Hhi].
  rewrite opp_IZR.
  set (k := IZR (Int_part (- (x / y)))) in *.
  set (q := x / y) in *.
  split; rewrite Hx' at 1; nra.
Qed.

(** The wrap [x = x % TWOPI; if (x < 0) x += TWOPI] lands in [[0, 2*PI)]. *)
Lemma wrap_range (x : R) :
  let r := Js.rem x TWOPI in
  0 <= (if r <? 0.0 then r + TWOPI else r) < TWOPI.
Proof.
  intros r. pose proof TWOPI_pos as Hp.
  destruct (Rle_dec 0 x) as [Hx | Hx].
  - pose proof (rem_of_nonneg x TWOPI Hp Hx) as H. fold r in H.
    js_cases; lra.
  - assert (Hx' : x < 0) by lra.
    pose proof (rem_of_neg x TWOPI Hp Hx') as H. fold r in H.
    js_cases; lra.
Qed.

(** ** Deep-space secular and periodic steps *)

(** C9. For every input of [dssec], the mean anomaly returned lies in
    [[0, 2*PI)] and differs from the unwrapped value
    [mo + dmdt*t + pl] by a whole number of turns, while eccentricity,
    inclination, argument of perigee and node are returned as the starting
    value plus [rate * t] plus the phase-dependent correction, unwrapped. *)
Theorem dssec_wraps_only_mean_anomaly :
  forall (ds : DeepSpaceCommon.T) (t ecco inclo nodeo argpo mo : R),
    let r := dssec ds t ecco inclo nodeo argpo mo in
    let '(pe, pinc, pl, pgh, ph) := dssec_periodics ds t in
    0 <= el_xmam r < TWOPI /\
    (exists k : Z,
        el_xmam r = mo + DeepSpaceCommon.dmdt ds * t + pl + IZR k * TWOPI) /\
    el_e r = ecco + DeepSpaceCommon.dedt ds * t + pe /\
    el_xinc r = inclo + DeepSpaceCommon.didt ds * t + pinc /\
    el_omgadf r = argpo + DeepSpaceCommon.domdt ds * t + pgh /\
    el_xnode r = nodeo + DeepSpaceCommon.dnodt ds * t + ph.
Proof.
  intros ds t ecco inclo nodeo argpo mo r.
  subst r. unfold dssec.
  destruct (dssec_periodics ds t) as [[[[pe pinc] pl] pgh] ph].
  cbn [el_e el_xinc el_omgadf el_xnode el_xmam].
  set (x := mo + DeepSpaceCommon.dmdt ds * t + pl).
  split; [ apply wrap_range | ].
  split; [ | repeat split; reflexivity ].
  destruct (rem_congruent x TWOPI) as [k Hk].
  destruct (Js.rem x TWOPI <? 0.0).
  - exists (k + 1)%Z. rewrite Hk, plus_IZR. ring.
  - exists k. exact Hk.
Qed.

(** C8. For every input of [dsper]: when the inclination with its periodic
    correction [xinc + pinc] is negative, the inclination returned is its
    opposite, the node is the corrected node plus [PI] and the argument of
    perigee the corrected one minus [PI]; otherwise the five elements are
    returned with their corrections only.  Eccentricity and mean anomaly
    are never touched by the reflection, and the inclination returned is
    never negative. *)
Theorem dsper_reflects_negative_inclination :
  forall (ds : DeepSpaceCommon.T) (t em xinc omgadf xnode xmam : R),
    let r := dsper ds t em xinc omgadf xnode xmam in
    let '(pe, pinc, pl, pgh, ph) := dsper_periodics ds t in
    (xinc + pinc < 0 ->
       el_xinc r = - (xinc + pinc) /\
       el_xnode r = (xnode + ph) + PI /\
       el_omgadf r = (omgadf + pgh) - PI) /\
    (0 <= xinc + pinc ->
       el_xinc r = xinc + pinc /\
       el_xnode r = xnode + ph /\
       el_omgadf r = omgadf + pgh) /\
    el_e r = em + pe /\
    el_xmam r = xmam + pl /\
    0 <= el_xinc r.
Proof.
  intros ds t em xinc omgadf xnode xmam r.
  subst r. unfold dsper.
  destruct (dsper_periodics ds t) as [[[[pe pinc] pl] pgh] ph].
  js_cases; cbn [el_e el_xinc el_omgadf el_xnode el_xmam];
    repeat split; intros; try reflexivity; lra.
Qed.

(** ** Resonance classification *)


(** ** Reuse of the initialization state *)

(** C6. For every element set and time, evaluating with the state
    initialized from the same elements gives the very result of
    evaluating without a state, for SGP4 and for SDP4. *)
Theorem evaluation_with_cached_state :
  forall (elements : OrbitalElements.T) (t : R),
    sgp4 elements t (Some (sgp4init elements)) = sgp4 elements t None /\
    sdp4 elements t (Some (sdp4init elements)) = sdp4 elements t None.
Proof. intros elements t. split; reflexivity. Qed.

(** ** Error results *)


Lemma deep_space_decay_test (em : R) :
  ((em >=? 1.0) || (em <? -0.001)) = true <-> 1 <= em \/ em < -0.001.
Proof.
  rewrite Bool.orb_true_iff, lt_iff, ge_iff.
  split; intros [H | H]; try (left; lra); right; lra.
Qed.

(** A run of [sdp4] with a semi-major axis of 0.5 Earth radii, below the
    floor of [sgp4], and an eccentricity of 0.1: the result is not the
    decayed error. *)
Lemma sdp4_low_axis_run :
  sdp4_a low_axis_state 0 < 0.95 /\
  el_e (sdp4_elements low_axis_elements low_axis_state 0) = 0.1 /\
  errorMessage (sdp4 low_axis_elements 0 (Some low_axis_state))
    <> Some decayed_message.
Proof.
  assert (Hem : el_e (sdp4_elements low_axis_elements low_axis_state 0) = 0.1).
  { unfold sdp4_elements, dssec, dsper, dssec_periodics, dsper_periodics.
    cbv zeta.
    cbn [Sdp4InitState.ds Sdp4InitState.xmdot Sdp4InitState.omgdot
         Sdp4InitState.xnodot Sdp4InitState.xnodcf Sdp4InitState.cosio
         Sdp4InitState.aodp low_axis_state flat_ds low_axis_elements
         OrbitalElements.ecco OrbitalElements.argpo OrbitalElements.nodeo
         OrbitalElements.mo DeepSpaceCommon.zmos DeepSpaceCommon.zmol
         DeepSpaceCommon.se2 DeepSpaceCommon.se3 DeepSpaceCommon.ee2
         DeepSpaceCommon.e3 DeepSpaceCommon.dedt el_e].
    replace (0 + 1.19459e-5 * 0) with 0 by lra.
    replace (0 + 1.5835218e-4 * 0) with 0 by lra.
    rewrite sin_0.
    destruct (_ <? 0.0); cbn [el_e]; lra. }
  split; [ unfold sdp4_a; cbn [Sdp4InitState.aodp Sdp4InitState.t2cof
                                low_axis_state]; lra | ].
  split; [ exact Hem | ].
  unfold sdp4. rewrite Hem.
  assert (Hkeep : ((0.1 >=? 1.0) || (0.1 <? -0.001)) = false).
  { apply Bool.orb_false_iff. split; [ apply le_not | apply lt_not ]; lra. }
  rewrite Hkeep.
  destruct (long_period _ _ _ _ _ _ _) as [[axn ayn] capu].
  destruct (_ <? 0.0); cbn [errorMessage]; discriminate.
Qed.

(** C10. For every element set, time and optional state, [sdp4] and [sdp8]
    return the 'Satellite has decayed' error exactly when the eccentricity
    [em] left by the deep-space secular and periodic steps is at least 1 or
    below -0.001: the condition does not mention the semi-major axis.
    [sgp4] on the contrary returns that error as soon as its semi-major
    axis is below 0.95. *)
Theorem deep_space_decay_condition :
  forall (elements : OrbitalElements.T) (t : R)
         (init4 : option Sdp4InitState.T) (init8 : option Sdp8InitState.T)
         (initn : option Sgp4InitState.T),
    let st4 := match init4 with Some s => s | None => sdp4init elements end in
    let st8 := match init8 with Some s => s | None => sdp8init elements end in
    let stn := match initn with Some s => s | None => sgp4init elements end in
    let em4 := el_e (sdp4_elements elements st4 t) in
    let em8 := el_e (sdp8_elements elements st8 t) in
    (errorMessage (sdp4 elements t init4) = Some decayed_message
       <-> 1 <= em4 \/ em4 < -0.001) /\
    (errorMessage (sdp8 elements t init8) = Some decayed_message
       <-> 1 <= em8 \/ em8 < -0.001) /\
    (sgp4_a stn t < 0.95 ->
       errorMessage (sgp4 elements t initn) = Some decayed_message).
Proof.
  intros elements t init4 init8 initn st4 st8 stn em4 em8.
  split; [ | split ].
  - unfold sdp4. fold st4. fold em4.
    rewrite <- deep_space_decay_test.
    destruct ((em4 >=? 1.0) || (em4 <? -0.001)).
    + cbn [errorMessage]. tauto.
    + destruct (long_period _ _ _ _ _ _ _) as [[axn ayn] capu].
      destruct (_ <? 0.0); cbn [errorMessage];
        split; intros H; discriminate.
  - unfold sdp8. fold st8. fold em8.
    rewrite <- deep_space_decay_test.
    destruct ((em8 >=? 1.0) || (em8 <? -0.001)).
    + cbn [errorMessage]. tauto.
    + destruct (long_period _ _ _ _ _ _ _) as [[axn ayn] capu].
      destruct (_ <? 0.0); cbn [errorMessage];
        split; intros H; discriminate.
  - intros Ha. unfold sgp4. fold stn.
    assert (Hlt : (sgp4_a stn t <? 0.95) = true) by (now apply lt_iff).
    rewrite Hlt. reflexivity.
Qed.

(** ** The Kepler loop *)

Section KeplerLoop.

Variables capu axn ayn : R.

Let step := Kepler.step capu axn ayn.
Let loop := fun n => Kepler.loop n capu axn ayn.
Let steps := fun n => Kepler.steps n capu axn ayn.




Lemma loop_S (n : nat) (e : R) :
  loop (S n) e =
  if Rabs (step e) <? 1e-12 then e + step e else loop n (e + step e).
Proof. reflexivity. Qed.


Lemma steps_S (n : nat) (e : R) :
  steps (S n) e =
  if Rabs (step e) <? 1e-12 then [step e]
  else step e :: steps n (e + step e).
Proof. reflexivity. Qed.









End KeplerLoop.



(** ** The equation the loop solves *)





Lemma Rabs_le_iff (x a : R) : Rabs x <= a <-> - a <= x <= a.
Proof. unfold Rabs; destruct (Rcase_abs x); lra. Qed.








(** ** A run of the loop: [capu = 0], [axn = 0], [ayn = 1/2] *)







(** ** The dispatcher *)

Lemma sgp4_algorithm (elements : OrbitalElements.T) (t : R)
  (i : option Sgp4InitState.T) : algorithm (sgp4 elements t i) = SGP4.
Proof.
  unfold sgp4. destruct (_ || _); [ reflexivity | ].
  destruct (_ <? _); reflexivity.
Qed.

Lemma sdp4_algorithm (elements : OrbitalElements.T) (t : R)
  (i : option Sdp4InitState.T) : algorithm (sdp4 elements t i) = SDP4.
Proof.
  unfold sdp4. destruct (_ || _); [ reflexivity | ].
  destruct (long_period _ _ _ _ _ _ _) as [[axn ayn] capu].
  destruct (_ <? _); reflexivity.
Qed.



Lemma Rpower_pos (x y : R) : 0 < Rpower x y.
Proof. unfold Rpower. apply exp_pos. Qed.

(** [Math.pow(x, 2/3)] is the cube root of the square. *)
Lemma two_thirds_power_cube (x : R) :
  0 < x -> Rpower x TOTHRD ^ 3 = x ^ 2.
Proof.
  intros Hx.
  rewrite <- (Rpower_pow 3 _ (Rpower_pos x TOTHRD)), Rpower_mult.
  replace (TOTHRD * INR 3) with (INR 2)
    by (unfold TOTHRD; cbn [INR]; lra).
  now apply Rpower_pow.
Qed.

Lemma cube_lt (a b : R) : 0 <= a -> a < b -> a ^ 3 < b ^ 3.
Proof.
  intros Ha Hab.
  assert (H : 0 < (b - a) * (b * b + a * b + a * a))
    by (apply Rmult_lt_0_compat; nra).
  assert (E : b ^ 3 - a ^ 3 = (b - a) * (b * b + a * b + a * a)) by ring.
  lra.
Qed.

(** Bounds on a positive number from bounds on its cube. *)
Lemma cube_root_bounds (a lo hi : R) :
  0 < a -> 0 <= lo -> 0 <= hi -> lo ^ 3 <= a ^ 3 -> a ^ 3 < hi ^ 3 ->
  lo <= a < hi.
Proof.
  intros Ha Hlo Hhi H1 H2. split.
  - destruct (Rle_dec lo a) as [H | H]; [ exact H | ].
    assert (a ^ 3 < lo ^ 3) by (apply cube_lt; lra). lra.
  - destruct (Rlt_dec a hi) as [H | H]; [ exact H | ].
    destruct (Req_dec a hi) as [-> | Hne]; [ lra | ].
    assert (hi ^ 3 < a ^ 3) by (apply cube_lt; lra). lra.
Qed.




(** ** The simplified drag mode of SGP4 *)

Lemma isimp_test (y : R) :
  y / AE < 220.0 / XKMPER + AE <-> (y - AE) * XKMPER < 220.
Proof.
  unfold AE, XKMPER.
  replace (y / 1.0) with y by lra.
  assert (H : 220.0 / 6378.135 * 6378.135 = 220) by lra.
  set (q := 220.0 / 6378.135) in *.
  split; intros; nra.
Qed.

(** C5, amended.  For every element set, [sgp4init] sets the
    simplified-mode flag exactly when the perigee altitude
    [(aodp * (1 - ecco) - AE) * XKMPER] is below 220 km; in that mode the
    coefficients [d2, d3, d4, t3cof, t4cof, t5cof] are zero, and for every
    state whose flag is not 0 the secular update of [sgp4] skips the
    higher-order block.  The thresholds of 156 km and 98 km choose the
    density parameters [s] and [qoms2t], not the mode. *)
Theorem sgp4_simplified_mode_threshold :
  forall (elements : OrbitalElements.T) (st' : Sgp4InitState.T) (t : R),
    let st := sgp4init elements in
    let perige := Sgp4InitState.altp st in
    (Sgp4InitState.isimp st = 1 <-> perige < 220) /\
    (Sgp4InitState.isimp st = 0 <-> 220 <= perige) /\
    (perige < 220 ->
       Sgp4InitState.d2 st = 0 /\ Sgp4InitState.d3 st = 0 /\
       Sgp4InitState.d4 st = 0 /\ Sgp4InitState.t3cof st = 0 /\
       Sgp4InitState.t4cof st = 0 /\ Sgp4InitState.t5cof st = 0) /\
    (Sgp4InitState.isimp st' <> 0 ->
       sgp4_secular st' t =
       {| s_xmp := Sgp4InitState.mo st' + Sgp4InitState.mdot st' * t;
          s_omega := Sgp4InitState.argpo st' + Sgp4InitState.argpdot st' * t;
          s_xnode := Sgp4InitState.nodeo st' + Sgp4InitState.nodedot st' * t
                     + Sgp4InitState.nodecf st' * (t * t);
          s_tempa := 1.0 - Sgp4InitState.cc1 st' * t;
          s_tempe := Sgp4InitState.bstar st' * Sgp4InitState.cc4 st' * t;
          s_templ := Sgp4InitState.t2cof st' * (t * t) |}) /\
    (156 <= perige ->
       density perige = (78.0 / XKMPER + AE, ((120.0 - 78.0) / XKMPER) ^ 4)) /\
    (98 < perige < 156 ->
       density perige = ((perige - 78.0) / XKMPER + AE,
                         ((120.0 - (perige - 78.0)) / XKMPER) ^ 4)) /\
    (perige <= 98 ->
       density perige = (20.0 / XKMPER + AE, ((120.0 - 20.0) / XKMPER) ^ 4)).
Proof.
  intros elements st' t st perige.
  assert (Hmode : Sgp4InitState.isimp st =
                  if Rlt_dec perige 220 then 1 else 0).
  { subst perige st. unfold sgp4init. cbv zeta.
    cbn [Sgp4InitState.isimp Sgp4InitState.altp].
    set (y := r_aodp _ * (1.0 - OrbitalElements.ecco elements)).
    pose proof (isimp_test y) as Hy.
    unfold Js.lt. destruct (Rlt_dec (y / AE) _), (Rlt_dec _ 220);
      tauto. }
  assert (Hcoef : perige < 220 ->
            Sgp4InitState.d2 st = 0 /\ Sgp4InitState.d3 st = 0 /\
            Sgp4InitState.d4 st = 0 /\ Sgp4InitState.t3cof st = 0 /\
            Sgp4InitState.t4cof st = 0 /\ Sgp4InitState.t5cof st = 0).
  { intros Hlow. subst perige st. unfold sgp4init in *. cbv zeta in *.
    unfold sgp4_high_order in *.
    cbn [Sgp4InitState.altp] in Hlow.
    set (y := r_aodp _ * (1.0 - OrbitalElements.ecco elements)) in *.
    apply isimp_test in Hlow.
    apply lt_iff in Hlow. rewrite Hlow.
    assert (Hne : (1 =? 0) = false)
      by (unfold Js.eq; destruct (Req_dec_T 1 0); [ lra | reflexivity ]).
    rewrite Hne.
    cbn [Sgp4InitState.d2 Sgp4InitState.d3 Sgp4InitState.d4
         Sgp4InitState.t3cof Sgp4InitState.t4cof Sgp4InitState.t5cof
         ho_d2 ho_d3 ho_d4 ho_t3cof ho_t4cof ho_t5cof].
    repeat split; lra. }
  split; [ | split; [ | split; [ exact Hcoef | split; [ | repeat split ] ] ] ].
  - rewrite Hmode. destruct (Rlt_dec perige 220); split; intros; lra.
  - rewrite Hmode. destruct (Rlt_dec perige 220); split; intros; lra.
  - intros Hsimp. unfold sgp4_secular. cbv zeta.
    destruct (Sgp4InitState.isimp st' =? 0) eqn:Heq; [ | reflexivity ].
    apply eq_iff in Heq. contradiction.
  - intros H. unfold density. js_cases; try reflexivity; lra.
  - intros H. unfold density. js_cases; try reflexivity; lra.
  - intros H. unfold density. js_cases; try reflexivity; lra.
Qed.

(** Where [3 * cos^2 i = 1] the J2 correction vanishes and the recovery
    returns the Keplerian semi-major axis [(XKE / no)^(2/3)]. *)
Lemma recover_without_J2 (no ecco inclo : R) :
  3.0 * (cos inclo * cos inclo) - 1.0 = 0 ->
  r_aodp (recover no ecco inclo) = Rpower (XKE / no) TOTHRD.
Proof.
  intros H. unfold recover. cbv zeta. cbn [r_aodp]. rewrite H.
  replace (1.5 * CK2 * 0) with 0 by ring.
  unfold Rdiv. rewrite !Rmult_0_l.
  replace (1.0 - 0) with 1 by lra. rewrite Rinv_1. ring.
Qed.

(** The recovered semi-major axis of [low_orbit_elements] lies between
    1.0245 and 1.0344 Earth radii. *)
Lemma low_orbit_recovered :
  let aodp := r_aodp (recover 0.071 0 (acos (sqrt (1 / 3)))) in
  1.0245 <= aodp < 1.0344.
Proof.
  cbv zeta.
  assert (Hsq : sqrt (1 / 3) * sqrt (1 / 3) = 1 / 3)
    by (apply sqrt_sqrt; lra).
  assert (Hs0 : 0 <= sqrt (1 / 3)) by apply sqrt_pos.
  assert (Hs1 : sqrt (1 / 3) <= 1) by nra.
  rewrite recover_without_J2
    by (rewrite cos_acos by lra; rewrite Hsq; lra).
  set (x := XKE / 0.071).
  assert (Hx : 1.04742 < x < 1.04743) by (unfold x, XKE; lra).
  pose proof (two_thirds_power_cube x ltac:(lra)) as Hcube.
  pose proof (Rpower_pos x TOTHRD) as Ha1.
  set (a1 := Rpower x TOTHRD) in *.
  assert (Hx2 : 1.0245 ^ 3 <= x ^ 2 < 1.0344 ^ 3) by nra.
  apply cube_root_bounds; lra.
Qed.

(** C5, as stated, fails: [low_orbit_elements] has its perigee more than
    156 km (and less than 220 km) above the reference radius, and
    [sgp4init] sets the simplified-mode flag for it. *)
Lemma simplified_mode_above_156_km :
  let st := sgp4init low_orbit_elements in
  156 <= Sgp4InitState.altp st < 220 /\
  Sgp4InitState.isimp st = 1.
Proof.
  cbv zeta.
  assert (Halt : 156 <= Sgp4InitState.altp (sgp4init low_orbit_elements)
                 < 220).
  { unfold sgp4init. cbv zeta. cbn [Sgp4InitState.altp].
    change (OrbitalElements.ecco low_orbit_elements) with 0.
    change (OrbitalElements.inclo low_orbit_elements)
      with (acos (sqrt (1 / 3))).
    change (OrbitalElements.no low_orbit_elements) with 0.071.
    pose proof low_orbit_recovered as H. cbv zeta in H.
    set (aodp := r_aodp _) in *.
    unfold AE, XKMPER. lra. }
  split; [ exact Halt | ].
  unfold sgp4init in *. cbv zeta in *.
  cbn [Sgp4InitState.altp Sgp4InitState.isimp] in *.
  set (y := r_aodp _ * (1.0 - OrbitalElements.ecco low_orbit_elements)) in *.
  assert (Hy : (y / AE <? 220.0 / XKMPER + AE) = true)
    by (apply lt_iff, isimp_test; lra).
  rewrite Hy. reflexivity.
Qed.

(** * Further properties of the propagators *)

(** ** Sidereal time and the solar and lunar phases *)

(** The double remainder [(x % T + T) % T] lands in [[0, T)] and differs
    from [x] by a whole multiple of [T]. *)
Lemma rem_rem_range (x T : R) :
  0 < T ->
  0 <= Js.rem (Js.rem x T + T) T < T /\
  exists k : Z, Js.rem (Js.rem x T + T) T = x + IZR k * T.
Proof.
  intros HT.
  assert (Hin : 0 <= Js.rem x T + T).
  { destruct (Rle_dec 0 x) as [Hx | Hx].
    - pose proof (rem_of_nonneg x T HT Hx). lra.
    - assert (Hx' : x < 0) by lra.
      pose proof (rem_of_neg x T HT Hx'). lra. }
  split; [ now apply rem_of_nonneg | ].
  destruct (rem_congruent x T) as [k1 Hk1].
  destruct (rem_congruent (Js.rem x T + T) T) as [k2 Hk2].
  exists (k1 + 1 + k2)%Z. rewrite Hk2, Hk1, !plus_IZR. ring.
Qed.

(** X1. For every Julian date, [gstime] returns an angle in [[0, 2*PI)]
    that differs by a whole number of turns from the polynomial in
    [tut1], converted from seconds of time to radians. *)
Theorem gstime_range :
  forall jd : R,
    let tut1 := (jd - 2451545.0) / 36525.0 in
    let seconds := -6.2e-6 * tut1 * tut1 * tut1 + 0.093104 * tut1 * tut1 +
                   (876600.0 * 3600 + 8640184.812866) * tut1 + 67310.54841 in
    0 <= gstime jd < TWOPI /\
    exists k : Z, gstime jd = seconds * DEG2RAD / 240.0 + IZR k * TWOPI.
Proof.
  intros jd tut1 seconds. unfold gstime. cbv zeta. fold tut1. fold seconds.
  split; [ apply wrap_range | ].
  destruct (rem_congruent (seconds * DEG2RAD / 240.0) TWOPI) as [k Hk].
  destruct (_ <? 0.0).
  - exists (k + 1)%Z. rewrite Hk, plus_IZR. ring.
  - exists k. exact Hk.
Qed.

(** X2. For every input of [dsinit], the solar and lunar mean anomalies at
    epoch stored in the common block lie in [[0, 2*PI)] and differ by a
    whole number of turns from the linear day-count models
    [6.2565837 + 0.017201977 * day] and [4.7199672 + 0.2299715 * day]. *)
Theorem dsinit_phases_range :
  forall (epoch xnodp ecco inclo nodeo argpo mo : R),
    let ds := dsinit epoch xnodp ecco inclo nodeo argpo mo in
    let day := epoch - 2433281.5 + 18261.5 in
    (0 <= DeepSpaceCommon.zmos ds < TWOPI /\
     exists k : Z, DeepSpaceCommon.zmos ds =
                   6.2565837 + 0.017201977 * day + IZR k * TWOPI) /\
    (0 <= DeepSpaceCommon.zmol ds < TWOPI /\
     exists k : Z, DeepSpaceCommon.zmol ds =
                   4.7199672 + 0.2299715 * day + IZR k * TWOPI).
Proof.
  intros epoch xnodp ecco inclo nodeo argpo mo ds day.
  subst ds. unfold dsinit. cbv zeta.
  cbn [DeepSpaceCommon.zmos DeepSpaceCommon.zmol]. fold day.
  split; apply rem_rem_range, TWOPI_pos.
Qed.

(** ** Error results of the deep-space evaluators *)

(** X3. For every element set, time and optional state, [sdp4] sets the
    error tag exactly when the eccentricity [em] left by the deep-space
    steps is at least 1 or below -0.001, or the semi-latus rectum
    [a * (1 - axn^2 - ayn^2)] is negative; the first case gives the message
    'Satellite has decayed', the second alone 'Semi-latus rectum is
    negative'; an error result carries the zero state vector, a result
    without error no message, and every result the time asked for and the
    tag SDP4. *)
Theorem sdp4_error_conditions :
  forall (elements : OrbitalElements.T) (t : R)
         (initState : option Sdp4InitState.T),
    let st :=
      match initState with Some s => s | None => sdp4init elements end in
    let em := el_e (sdp4_elements elements st t) in
    let pl := sdp4_pl elements st t in
    let decayed := 1 <= em \/ em < -0.001 in
    let r := sdp4 elements t initState in
    (error r = true <-> decayed \/ pl < 0) /\
    (decayed -> errorMessage r = Some decayed_message) /\
    (~ decayed -> pl < 0 -> errorMessage r = Some semi_latus_message) /\
    (error r = true -> state r = zero_state) /\
    (error r = false -> errorMessage r = None) /\
    tsince r = t /\ algorithm r = SDP4.
Proof.
  intros elements t initState st em pl decayed r.
  subst r pl. unfold sdp4, sdp4_pl, sdp4_long_period. cbv zeta.
  fold st. fold em.
  pose proof (deep_space_decay_test em) as Hd. fold decayed in Hd.
  destruct ((em >=? 1.0) || (em <? -0.001)) eqn:Hdec.
  - assert (decayed) by (apply Hd; reflexivity).
    cbn [error errorMessage state tsince algorithm].
    repeat split; intros; try tauto; try reflexivity; try discriminate.
  - assert (Hnd : ~ decayed) by (intros H; apply Hd in H; discriminate).
    destruct (long_period _ _ _ _ _ _ _) as [[axn ayn] capu].
    cbn [fst snd].
    destruct (_ <? 0.0) eqn:Hpl;
      cbn [error errorMessage state tsince algorithm].
    + apply lt_iff in Hpl.
      repeat split; intros; try tauto; try reflexivity; try discriminate.
      right; lra.
    + apply lt_not in Hpl.
      repeat split; intros; try tauto; try reflexivity; try discriminate;
        try lra.
      destruct H as [H | H]; [ tauto | lra ].
Qed.

(** X4. The same for [sdp8]: the error tag is set exactly when the
    eccentricity left by the deep-space steps (which includes the term
    [edot * t]) is at least 1 or below -0.001, or the semi-latus rectum
    [aodp * (1 - axn^2 - ayn^2)] is negative, with the same messages, the
    zero state vector on error, and the tag SDP8. *)
Theorem sdp8_error_conditions :
  forall (elements : OrbitalElements.T) (t : R)
         (initState : option Sdp8InitState.T),
    let st :=
      match initState with Some s => s | None => sdp8init elements end in
    let em := el_e (sdp8_elements elements st t) in
    let pl := sdp8_pl elements st t in
    let decayed := 1 <= em \/ em < -0.001 in
    let r := sdp8 elements t initState in
    (error r = true <-> decayed \/ pl < 0) /\
    (decayed -> errorMessage r = Some decayed_message) /\
    (~ decayed -> pl < 0 -> errorMessage r = Some semi_latus_message) /\
    (error r = true -> state r = zero_state) /\
    (error r = false -> errorMessage r = None) /\
    tsince r = t /\ algorithm r = SDP8.
Proof.
  intros elements t initState st em pl decayed r.
  subst r pl. unfold sdp8, sdp8_pl, sdp8_long_period. cbv zeta.
  fold st. fold em.
  pose proof (deep_space_decay_test em) as Hd. fold decayed in Hd.
  destruct ((em >=? 1.0) || (em <? -0.001)) eqn:Hdec.
  - assert (decayed) by (apply Hd; reflexivity).
    cbn [error errorMessage state tsince algorithm].
    repeat split; intros; try tauto; try reflexivity; try discriminate.
  - assert (Hnd : ~ decayed) by (intros H; apply Hd in H; discriminate).
    destruct (long_period _ _ _ _ _ _ _) as [[axn ayn] capu].
    cbn [fst snd].
    destruct (_ <? 0.0) eqn:Hpl;
      cbn [error errorMessage state tsince algorithm].
    + apply lt_iff in Hpl.
      repeat split; intros; try tauto; try reflexivity; try discriminate.
      right; lra.
    + apply lt_not in Hpl.
      repeat split; intros; try tauto; try reflexivity; try discriminate;
        try lra.
      destruct H as [H | H]; [ tauto | lra ].
Qed.

(** ** Size of the periodic corrections *)

Lemma sin_abs_le_1 (x : R) : Rabs (sin x) <= 1.
Proof. apply Rabs_le_iff. pose proof (SIN_bound x). lra. Qed.

Lemma cos_abs_le_1 (x : R) : Rabs (cos x) <= 1.
Proof. apply Rabs_le_iff. pose proof (COS_bound x). lra. Qed.

(** X5. Whatever the common block, the time and the elements, [dsper]
    moves the eccentricity by at most 1.5e-8 and the mean anomaly by at
    most 1e-7; and when the inclination passed in is at least 1e-9 the
    reflection branch is not taken: inclination, node and argument of
    perigee move by at most 1e-9, 0.5e-8 and 1e-8. *)
Theorem dsper_corrections_bounded :
  forall (ds : DeepSpaceCommon.T) (t em xinc omgadf xnode xmam : R),
    let r := dsper ds t em xinc omgadf xnode xmam in
    Rabs (el_e r - em) <= 1.5e-8 /\
    Rabs (el_xmam r - xmam) <= 1e-7 /\
    (1e-9 <= xinc ->
       Rabs (el_xinc r - xinc) <= 1e-9 /\
       Rabs (el_xnode r - xnode) <= 0.5e-8 /\
       Rabs (el_omgadf r - omgadf) <= 1e-8).
Proof.
  intros ds t em xinc omgadf xnode xmam r.
  subst r. unfold dsper, dsper_periodics. cbv zeta.
  set (zms := DeepSpaceCommon.zmos ds + 1.19459e-5 * t).
  set (zml := DeepSpaceCommon.zmol ds + 1.5835218e-4 * t).
  pose proof (SIN_bound zms) as [Hs1 Hs2].
  pose proof (SIN_bound zml) as [Hl1 Hl2].
  pose proof (SIN_bound (2.0 * zms)) as [Hd1 Hd2].
  pose proof (COS_bound zms) as [Hc1 Hc2].
  destruct (_ <? 0.0) eqn:Hneg;
    cbn [el_e el_xinc el_omgadf el_xnode el_xmam].
  - apply lt_iff in Hneg.
    split; [ apply Rabs_le_iff; lra | ].
    split; [ apply Rabs_le_iff; lra | ].
    intros Hx. lra.
  - split; [ apply Rabs_le_iff; lra | ].
    split; [ apply Rabs_le_iff; lra | ].
    intros Hx. repeat split; apply Rabs_le_iff; lra.
Qed.

(** ** The secular update at epoch *)


Lemma sgp4_decayed_iff (elements : OrbitalElements.T) (t : R)
  (initState : option Sgp4InitState.T) :
  let st :=
    match initState with Some s => s | None => sgp4init elements end in
  errorMessage (sgp4 elements t initState) = Some decayed_message <->
  sgp4_a st t < 0.95 \/ 1 <= sgp4_e st t \/ sgp4_e st t < -0.001.
Proof.
  intros st. unfold sgp4. fold st.
  set (a := sgp4_a st t). set (e := sgp4_e st t).
  assert (Hd : ((a <? 0.95) || (e >=? 1.0) || (e <? -0.001)) = true
               <-> a < 0.95 \/ 1 <= e \/ e < -0.001).
  { rewrite !Bool.orb_true_iff, !lt_iff, ge_iff.
    split; intros H; decompose [or] H; try tauto; try lra. }
  destruct ((a <? 0.95) || (e >=? 1.0) || (e <? -0.001)).
  - cbn [errorMessage]. tauto.
  - destruct (_ <? 0.0); cbn [errorMessage]; split; intros H;
      try discriminate; apply Hd in H; discriminate.
Qed.


(** ** The initializers of the three families *)

(** X7. For every element set the three initializers store the same
    recovered mean motion and semi-major axis and the same secular rates
    of mean anomaly, argument of perigee and node; the long-period
    coefficients [xlcof] and [aycof] of [sdp4init] and [sdp8init] are the
    opposites of those of [sgp4init]. *)
Theorem initializers_agree :
  forall elements : OrbitalElements.T,
    let n := sgp4init elements in
    let d4 := sdp4init elements in
    let d8 := sdp8init elements in
    (Sdp4InitState.xnodp d4 = Sgp4InitState.no n /\
     Sdp4InitState.aodp d4 = Sgp4InitState.a n /\
     Sdp4InitState.xmdot d4 = Sgp4InitState.mdot n /\
     Sdp4InitState.omgdot d4 = Sgp4InitState.argpdot n /\
     Sdp4InitState.xnodot d4 = Sgp4InitState.nodedot n) /\
    (Sdp8InitState.xnodp d8 = Sgp4InitState.no n /\
     Sdp8InitState.aodp d8 = Sgp4InitState.a n /\
     Sdp8InitState.xmdot d8 = Sgp4InitState.mdot n /\
     Sdp8InitState.omgdot d8 = Sgp4InitState.argpdot n /\
     Sdp8InitState.xnodot d8 = Sgp4InitState.nodedot n) /\
    (Sdp4InitState.xlcof d4 = - Sgp4InitState.xlcof n /\
     Sdp4InitState.aycof d4 = - Sgp4InitState.aycof n /\
     Sdp8InitState.xlcof d8 = - Sgp4InitState.xlcof n /\
     Sdp8InitState.aycof d8 = - Sgp4InitState.aycof n) /\
    Sdp4InitState.ds d4 = Sdp8InitState.ds d8.
Proof.
  intros elements n d4 d8. subst n d4 d8.
  unfold sgp4init, sdp4init, sdp8init. cbv zeta.
  cbn [Sdp4InitState.xnodp Sdp4InitState.aodp Sdp4InitState.xmdot
       Sdp4InitState.omgdot Sdp4InitState.xnodot Sdp4InitState.xlcof
       Sdp4InitState.aycof Sdp4InitState.ds
       Sdp8InitState.xnodp Sdp8InitState.aodp Sdp8InitState.xmdot
       Sdp8InitState.omgdot Sdp8InitState.xnodot Sdp8InitState.xlcof
       Sdp8InitState.aycof Sdp8InitState.ds
       Sgp4InitState.no Sgp4InitState.a Sgp4InitState.mdot
       Sgp4InitState.argpdot Sgp4InitState.nodedot Sgp4InitState.xlcof
       Sgp4InitState.aycof].
  replace (-1.0 * A3OVK2) with (- A3OVK2) by lra.
  repeat split; try reflexivity; unfold Rdiv; ring.
Qed.

(** ** Classification by mean motion *)

Lemma period_bounds (n c : R) :
  0 < n -> 0 < c -> (c <= TWOPI / n <-> n <= TWOPI / c).
Proof.
  intros Hn Hc. pose proof TWOPI_pos as Hp.
  assert (H1 : TWOPI / n * n = TWOPI) by (field; lra).
  assert (H2 : TWOPI / c * c = TWOPI) by (field; lra).
  set (p := TWOPI / n) in *. set (q := TWOPI / c) in *.
  assert (0 < p) by (apply Rdiv_lt_0_compat; lra).
  assert (0 < q) by (apply Rdiv_lt_0_compat; lra).
  split; intros; nra.
Qed.

Lemma period_bounds_upper (n c : R) :
  0 < n -> 0 < c -> (TWOPI / n <= c <-> TWOPI / c <= n).
Proof.
  intros Hn Hc. pose proof TWOPI_pos as Hp.
  assert (H1 : TWOPI / n * n = TWOPI) by (field; lra).
  assert (H2 : TWOPI / c * c = TWOPI) by (field; lra).
  set (p := TWOPI / n) in *. set (q := TWOPI / c) in *.
  assert (0 < p) by (apply Rdiv_lt_0_compat; lra).
  assert (0 < q) by (apply Rdiv_lt_0_compat; lra).
  split; intros; nra.
Qed.

(** X8. In terms of the mean motion passed to [dsinit]: for a positive
    [xnodp] the synchronous flag is set exactly when [xnodp] is at most
    [2*PI/1200] and the resonant flag exactly when moreover or instead
    [xnodp] lies between [2*PI/800] and [2*PI/600]; for a negative [xnodp]
    no flag is set. *)
Theorem dsinit_resonance_by_mean_motion :
  forall (epoch xnodp ecco inclo nodeo argpo mo : R),
    let ds := dsinit epoch xnodp ecco inclo nodeo argpo mo in
    (0 < xnodp ->
       (DeepSpaceCommon.isynfl ds = true <-> xnodp <= TWOPI / 1200) /\
       (DeepSpaceCommon.iresfl ds = true <->
          xnodp <= TWOPI / 1200 \/
          TWOPI / 800 <= xnodp <= TWOPI / 600)) /\
    (xnodp < 0 ->
       DeepSpaceCommon.iresfl ds = false /\
       DeepSpaceCommon.isynfl ds = false).
Proof.
  intros epoch xnodp ecco inclo nodeo argpo mo ds.
  subst ds. unfold dsinit. cbv zeta.
  cbn [DeepSpaceCommon.iresfl DeepSpaceCommon.isynfl].
  unfold resonance. cbv zeta.
  pose proof TWOPI_pos as Hp.
  split.
  - intros Hn.
    pose proof (period_bounds xnodp 1200 Hn ltac:(lra)) as H1200.
    pose proof (period_bounds xnodp 600 Hn ltac:(lra)) as H600.
    pose proof (period_bounds_upper xnodp 800 Hn ltac:(lra)) as H800.
    assert (Hlt : TWOPI / 1200 < TWOPI / 800 < TWOPI / 600) by lra.
    set (p := TWOPI / xnodp) in *.
    replace 1200.0 with 1200 by lra. replace 600.0 with 600 by lra.
    replace 800.0 with 800 by lra.
    js_cases; cbn [fst snd andb];
      try (assert (xnodp <= TWOPI / 1200) by tauto);
      try (assert (~ xnodp <= TWOPI / 1200) by tauto);
      try (assert (xnodp <= TWOPI / 600) by tauto);
      try (assert (~ xnodp <= TWOPI / 600) by tauto);
      try (assert (TWOPI / 800 <= xnodp) by tauto);
      try (assert (~ TWOPI / 800 <= xnodp) by tauto);
      split; split; intros Hg;
      try reflexivity; try discriminate; try lra;
      try (destruct Hg as [Hg | Hg]; lra); try (right; lra).
  - intros Hn.
    assert (Hneg : TWOPI / xnodp < 0).
    { assert (H : TWOPI / xnodp * xnodp = TWOPI) by (field; lra).
      set (p := TWOPI / xnodp) in *.
      destruct (Rlt_dec p 0); [ assumption | nra ]. }
    js_cases; cbn [fst snd andb]; split; try reflexivity; lra.
Qed.

(** X9. For a positive mean motion [getSatelliteType] answers near-Earth
    exactly when the mean motion exceeds [2*PI/225] rad/min (6.4
    revolutions a day), and the period it compares is [getOrbitalPeriod];
    a negative mean motion is classified near-Earth. *)
Theorem satellite_type_by_mean_motion :
  forall no : R,
    (0 < no ->
       (getSatelliteType no = near_earth <-> TWOPI / 225 < no) /\
       (getSatelliteType no = deep_space <-> no <= TWOPI / 225) /\
       (getSatelliteType no = near_earth <-> getOrbitalPeriod no < 225)) /\
    (no < 0 -> getSatelliteType no = near_earth).
Proof.
  intros no. pose proof TWOPI_pos as Hp.
  unfold getSatelliteType, getOrbitalPeriod, DEEP_SPACE_THRESHOLD. cbv zeta.
  replace 225.0 with 225 by lra.
  split.
  - intros Hn.
    pose proof (period_bounds no 225 Hn ltac:(lra)) as H225.
    set (p := TWOPI / no) in *.
    js_cases; repeat split; intros; try reflexivity; try discriminate;
      try lra; try tauto.
  - intros Hn.
    assert (Hneg : TWOPI / no < 0).
    { assert (H : TWOPI / no * no = TWOPI) by (field; lra).
      set (p := TWOPI / no) in *.
      destruct (Rlt_dec p 0); [ assumption | nra ]. }
    js_cases; [ reflexivity | lra ].
Qed.

(** ** The recovered mean motion *)

Lemma Rinv_nonneg (d : R) : 0 <= d -> 0 <= / d.
Proof.
  intros [Hd | <-].
  - apply Rlt_le, Rinv_0_lt_compat, Hd.
  - rewrite Rinv_0. lra.
Qed.

(** The J2 correction [delo] has the sign of [3 * cos^2 i - 1]. *)
Lemma delo_sign (no ecco inclo : R) :
  ecco * ecco < 1 ->
  0 <= r_delo (recover no ecco inclo) * r_x3thm1 (recover no ecco inclo).
Proof.
  intros He. unfold recover. cbv zeta. cbn [r_delo r_x3thm1].
  set (x3 := 3.0 * (cos inclo * cos inclo) - 1.0).
  set (a1 := Rpower (XKE / no) TOTHRD).
  set (b2 := 1.0 - ecco * ecco).
  set (del1 := 1.5 * CK2 * x3 / (a1 * a1 * sqrt b2 * b2)).
  set (ao := a1 * (1.0 - del1 * (0.5 * TOTHRD +
                     del1 * (1.0 + 134.0 / 81.0 * del1)))).
  assert (Hb2 : 0 < b2) by (unfold b2; lra).
  assert (Hsq : 0 <= sqrt b2) by apply sqrt_pos.
  assert (Hd : 0 <= ao * ao * sqrt b2 * b2).
  { apply Rmult_le_pos; [ apply Rmult_le_pos | lra ];
      [ apply Rle_0_sqr | exact Hsq ]. }
  pose proof (Rinv_nonneg _ Hd) as Hinv.
  unfold Rdiv. set (i := / (ao * ao * sqrt b2 * b2)) in *.
  assert (Hk : 0 < 1.5 * CK2) by (unfold CK2, XJ2; lra).
  set (k := 1.5 * CK2) in *.
  assert (0 <= x3 * x3) by apply Rle_0_sqr.
  replace (k * x3 * i * x3) with (k * i * (x3 * x3)) by ring.
  apply Rmult_le_pos; [ apply Rmult_le_pos; lra | assumption ].
Qed.

(** X10. For a positive encoded mean motion and an eccentricity below 1
    in magnitude, when [3 * cos^2 i >= 1] (an inclination below about
    54.7 degrees, or above 125.3) the recovered mean motion is positive
    and at most the encoded one; when [3 * cos^2 i = 1] the two are
    equal. *)
Theorem recovered_mean_motion_at_most_encoded :
  forall no ecco inclo : R,
    0 < no ->
    ecco * ecco < 1 ->
    1 <= 3 * (cos inclo * cos inclo) ->
    let rec := recover no ecco inclo in
    0 <= r_delo rec /\
    0 < r_xnodp rec <= no /\
    (3 * (cos inclo * cos inclo) = 1 -> r_xnodp rec = no).
Proof.
  intros no ecco inclo Hno He Hinc rec.
  pose proof (delo_sign no ecco inclo He) as Hsign. fold rec in Hsign.
  assert (Hx3 : r_x3thm1 rec = 3 * (cos inclo * cos inclo) - 1)
    by (subst rec; unfold recover; cbv zeta; cbn [r_x3thm1]; lra).
  assert (Hx : r_xnodp rec = no / (1 + r_delo rec))
    by (subst rec; unfold recover; cbv zeta; cbn [r_xnodp r_delo];
        f_equal; lra).
  assert (Hzero : r_x3thm1 rec = 0 -> r_delo rec = 0).
  { intros H0. subst rec. unfold recover in *. cbv zeta in *.
    cbn [r_delo r_x3thm1] in *. rewrite H0.
    unfold Rdiv. ring. }
  assert (Hdelo : 0 <= r_delo rec).
  { destruct (Req_dec (r_x3thm1 rec) 0) as [H0 | Hne].
    - rewrite (Hzero H0). lra.
    - assert (0 < r_x3thm1 rec) by lra. nra. }
  set (delo := r_delo rec) in *.
  assert (Hq : r_xnodp rec * (1 + delo) = no) by (rewrite Hx; field; lra).
  set (x := r_xnodp rec) in *.
  split; [ exact Hdelo | split; [ split | ] ].
  - destruct (Rlt_dec 0 x); [ assumption | nra ].
  - nra.
  - intros Hcrit. assert (H0 : delo = 0) by (apply Hzero; lra).
    rewrite H0 in Hq. lra.
Qed.

Lemma recovered_mean_motion_witness :
  let rec := recover 1 0 0 in
  0 <= r_delo rec /\ 0 < r_xnodp rec <= 1 /\
  (3 * (cos 0 * cos 0) = 1 -> r_xnodp rec = 1).
Proof.
  assert (Hno : 0 < 1) by lra.
  assert (He : 0 * 0 < 1) by lra.
  assert (Hinc : 1 <= 3 * (cos 0 * cos 0)) by (rewrite cos_0; lra).
  exact (recovered_mean_motion_at_most_encoded 1 0 0 Hno He Hinc).
Defined.

(** ** Mean motion and semi-major axis *)

(** X11. For a positive mean motion, the mean motion [XKE / a^1.5] that the
    evaluators compute from a semi-major axis is the inverse of
    [getSemiMajorAxis], and the period of [getOrbitalPeriod] is
    [2*PI * a^1.5 / XKE] (Kepler's third law in Earth radii and
    minutes). *)
Theorem semi_major_axis_round_trip :
  forall no : R,
    0 < no ->
    let a := getSemiMajorAxis no in
    0 < a /\
    XKE / Rpower a 1.5 = no /\
    getOrbitalPeriod no = TWOPI * Rpower a 1.5 / XKE.
Proof.
  intros no Hno a.
  assert (HK : 0 < XKE) by (unfold XKE; lra).
  assert (Hx : 0 < XKE / no) by (apply Rdiv_lt_0_compat; lra).
  assert (Hp : Rpower a 1.5 = XKE / no).
  { subst a. unfold getSemiMajorAxis. rewrite Rpower_mult.
    replace (TOTHRD * 1.5) with 1 by (unfold TOTHRD; lra).
    now apply Rpower_1. }
  split; [ apply Rpower_pos | ].
  rewrite Hp. unfold getOrbitalPeriod. split; field; lra.
Qed.

Lemma semi_major_axis_round_trip_witness :
  let a := getSemiMajorAxis 1 in
  0 < a /\ XKE / Rpower a 1.5 = 1 /\
  getOrbitalPeriod 1 = TWOPI * Rpower a 1.5 / XKE.
Proof.
  assert (H : 0 < 1) by lra.
  exact (semi_major_axis_round_trip 1 H).
Defined.

(** ** The orientation vectors *)

(** The vectors [u] and [v] built from the sines and cosines of three
    angles (lines 323-337 of sgp4.ts) are orthonormal. *)
Lemma orientation_orthonormal (su cu si ci sn cn : R) :
  su * su + cu * cu = 1 -> si * si + ci * ci = 1 -> sn * sn + cn * cn = 1 ->
  let xmx := - sn * ci in
  let xmy := cn * ci in
  let ux := xmx * su + cn * cu in
  let uy := xmy * su + sn * cu in
  let uz := si * su in
  let vx := xmx * cu - cn * su in
  let vy := xmy * cu - sn * su in
  let vz := si * cu in
  ux * ux + uy * uy + uz * uz = 1 /\
  vx * vx + vy * vy + vz * vz = 1 /\
  ux * vx + uy * vy + uz * vz = 0.
Proof.
  intros Hu Hi Hn. cbv zeta.
  repeat split.
  - replace (_ + _ + _) with
      (1 + (su * su * ci * ci + cu * cu) * (sn * sn + cn * cn - 1) +
       su * su * (si * si + ci * ci - 1) + (su * su + cu * cu - 1)) by ring.
    rewrite Hu, Hi, Hn. ring.
  - replace (_ + _ + _) with
      (1 + (cu * cu * ci * ci + su * su) * (sn * sn + cn * cn - 1) +
       cu * cu * (si * si + ci * ci - 1) + (su * su + cu * cu - 1)) by ring.
    rewrite Hu, Hi, Hn. ring.
  - replace (_ + _ + _) with
      (su * cu * (ci * ci - 1) * (sn * sn + cn * cn - 1) +
       su * cu * (si * si + ci * ci - 1)) by ring.
    rewrite Hi, Hn. ring.
Qed.

Lemma sin_cos_unit (x : R) : sin x * sin x + cos x * cos x = 1.
Proof. pose proof (sin2_cos2 x) as H. unfold Rsqr in H. exact H. Qed.

(** The state vector built from a radius [rk], two rates and orthonormal
    vectors: its position has length [|rk| * XKMPER], and so on. *)
Lemma state_vector_norms (rk rdotk rfdotk ux uy uz vx vy vz : R) :
  ux * ux + uy * uy + uz * uz = 1 ->
  vx * vx + vy * vy + vz * vz = 1 ->
  ux * vx + uy * vy + uz * vz = 0 ->
  let x := rk * ux * XKMPER in
  let y := rk * uy * XKMPER in
  let z := rk * uz * XKMPER in
  let xdot := (rdotk * ux + rfdotk * vx) * XKMPER / 60.0 in
  let ydot := (rdotk * uy + rfdotk * vy) * XKMPER / 60.0 in
  let zdot := (rdotk * uz + rfdotk * vz) * XKMPER / 60.0 in
  x * x + y * y + z * z = (rk * XKMPER) * (rk * XKMPER) /\
  xdot * xdot + ydot * ydot + zdot * zdot =
    (rdotk * rdotk + rfdotk * rfdotk) * (XKMPER / 60 * (XKMPER / 60)) /\
  x * xdot + y * ydot + z * zdot =
    rk * rdotk * (XKMPER * XKMPER / 60).
Proof.
  intros Hu Hv Huv. cbv zeta.
  replace 60.0 with 60 by lra.
  repeat split.
  - replace (_ + _ + _) with
      (rk * XKMPER * (rk * XKMPER) * (ux * ux + uy * uy + uz * uz)) by ring.
    rewrite Hu. ring.
  - replace (_ + _ + _) with
      ((rdotk * rdotk * (ux * ux + uy * uy + uz * uz) +
        rfdotk * rfdotk * (vx * vx + vy * vy + vz * vz) +
        2 * rdotk * rfdotk * (ux * vx + uy * vy + uz * vz)) *
       (XKMPER / 60 * (XKMPER / 60))) by (unfold Rdiv; ring).
    rewrite Hu, Hv, Huv. ring.
  - replace (_ + _ + _) with
      (rk * (XKMPER * XKMPER / 60) *
       (rdotk * (ux * ux + uy * uy + uz * uz) +
        rfdotk * (ux * vx + uy * vy + uz * vz))) by (unfold Rdiv; ring).
    rewrite Hu, Huv. ring.
Qed.

(** X12. Whatever its arguments, the state vector [sgp4] builds has a
    position of squared length [(rk * XKMPER)^2], a velocity of squared
    length [(rdotk^2 + rfdotk^2) * (XKMPER/60)^2] and a scalar product of
    position and velocity [rk * rdotk * XKMPER^2 / 60], where [rk],
    [rdotk], [rfdotk] are the short-period radius and rates: node,
    inclination and argument of latitude only turn the vector. *)
Theorem sgp4_state_vector_norms :
  forall a axn ayn epw xnode inclo x3thm1 x1mth2 x7thm1 : R,
    let sv := sgp4_state_vector a axn ayn epw xnode inclo
                x3thm1 x1mth2 x7thm1 in
    let '(rk, rdotk, rfdotk) :=
      sgp4_short_period a axn ayn epw x3thm1 x1mth2 in
    sv_x sv * sv_x sv + sv_y sv * sv_y sv + sv_z sv * sv_z sv =
      (rk * XKMPER) * (rk * XKMPER) /\
    sv_xdot sv * sv_xdot sv + sv_ydot sv * sv_ydot sv +
    sv_zdot sv * sv_zdot sv =
      (rdotk * rdotk + rfdotk * rfdotk) * (XKMPER / 60 * (XKMPER / 60)) /\
    sv_x sv * sv_xdot sv + sv_y sv * sv_ydot sv + sv_z sv * sv_zdot sv =
      rk * rdotk * (XKMPER * XKMPER / 60).
Proof.
  intros a axn ayn epw xnode inclo x3thm1 x1mth2 x7thm1.
  unfold sgp4_state_vector, sgp4_short_period. cbv zeta.
  cbn [sv_x sv_y sv_z sv_xdot sv_ydot sv_zdot].
  match goal with
  | |- context [_ * sin ?uk + cos ?xnodek * cos ?uk] =>
      match goal with
      | |- context [sin ?xinck * sin uk] =>
          pose proof (orientation_orthonormal (sin uk) (cos uk)
                        (sin xinck) (cos xinck) (sin xnodek) (cos xnodek)
                        (sin_cos_unit uk) (sin_cos_unit xinck)
                        (sin_cos_unit xnodek)) as [Hu [Hv Huv]]
      end
  end.
  cbv zeta in Hu, Hv, Huv.
  exact (state_vector_norms _ _ _ _ _ _ _ _ _ Hu Hv Huv).
Qed.

(** X13. The same for the state vector of [sdp4] and [sdp8]. *)
Theorem sdp_state_vector_norms :
  forall a axn ayn epw xn xinc x3thm1 x1mth2 x7thm1 : R,
    let sv := sdp_state_vector a axn ayn epw xn xinc
                x3thm1 x1mth2 x7thm1 in
    let '(rk, rdotk, rfdotk) :=
      sdp_short_period a axn ayn epw x3thm1 x1mth2 in
    sv_x sv * sv_x sv + sv_y sv * sv_y sv + sv_z sv * sv_z sv =
      (rk * XKMPER) * (rk * XKMPER) /\
    sv_xdot sv * sv_xdot sv + sv_ydot sv * sv_ydot sv +
    sv_zdot sv * sv_zdot sv =
      (rdotk * rdotk + rfdotk * rfdotk) * (XKMPER / 60 * (XKMPER / 60)) /\
    sv_x sv * sv_xdot sv + sv_y sv * sv_ydot sv + sv_z sv * sv_zdot sv =
      rk * rdotk * (XKMPER * XKMPER / 60).
Proof.
  intros a axn ayn epw xn xinc x3thm1 x1mth2 x7thm1.
  unfold sdp_state_vector, sdp_short_period. cbv zeta.
  cbn [sv_x sv_y sv_z sv_xdot sv_ydot sv_zdot].
  match goal with
  | |- context [_ * sin ?uk + cos ?xnodek * cos ?uk] =>
      match goal with
      | |- context [sin ?xinck * sin uk] =>
          pose proof (orientation_orthonormal (sin uk) (cos uk)
                        (sin xinck) (cos xinck) (sin xnodek) (cos xnodek)
                        (sin_cos_unit uk) (sin_cos_unit xinck)
                        (sin_cos_unit xnodek)) as [Hu [Hv Huv]]
      end
  end.
  cbv zeta in Hu, Hv, Huv.
  exact (state_vector_norms _ _ _ _ _ _ _ _ _ Hu Hv Huv).
Qed.

(** ** A seed that already solves the equation *)

(** X14. When the mean longitude itself solves the equation of the loop
    ([axn * sin capu = ayn * cos capu], as for a zero eccentricity
    vector), the loop leaves after its first iteration with a step of 0
    and returns [capu]. *)
Theorem kepler_exact_seed :
  forall capu axn ayn : R,
    axn * axn + ayn * ayn < 1 ->
    axn * sin capu - ayn * cos capu = 0 ->
    Kepler.steps 10 capu axn ayn capu = [0] /\
    Kepler.solve capu axn ayn = capu.
Proof.
  intros capu axn ayn Hecc Hseed.
  assert (Hstep : Kepler.step capu axn ayn capu = 0).
  { unfold Kepler.step. cbv zeta.
    replace (capu - ayn * cos capu + axn * sin capu - capu)
      with 0 by lra.
    unfold Rdiv. rewrite Rmult_0_l, Rabs_R0. js_cases; lra. }
  unfold Kepler.solve. rewrite steps_S, loop_S, Hstep, Rabs_R0.
  assert (Htol : (0 <? 1e-12) = true) by (apply lt_iff; lra).
  rewrite Htol. split; [ reflexivity | ring ].
Qed.

Lemma kepler_exact_seed_witness :
  Kepler.steps 10 0 (1 / 2) 0 0 = [0] /\ Kepler.solve 0 (1 / 2) 0 = 0.
Proof.
  assert (Hecc : 1 / 2 * (1 / 2) + 0 * 0 < 1) by lra.
  assert (Hseed : 1 / 2 * sin 0 - 0 * cos 0 = 0) by (rewrite sin_0; ring).
  exact (kepler_exact_seed 0 (1 / 2) 0 Hecc Hseed).
Defined.

(** ** SGP8 *)

Lemma near_earth_decay_test (a e : R) :
  ((a <? 0.95) || (e >=? 1.0) || (e <? -0.001)) = true
  <-> a < 0.95 \/ 1 <= e \/ e < -0.001.
Proof.
  rewrite !Bool.orb_true_iff, !lt_iff, ge_iff.
  split; intros H; decompose [or] H; try tauto; try lra.
Qed.


Lemma sgp8_decayed_iff (elements : OrbitalElements.T) (t : R)
  (initState : option Sgp8InitState.T) :
  let st :=
    match initState with Some s => s | None => sgp8init elements end in
  errorMessage (sgp8 elements t initState) = Some decayed_message <->
  sgp8_a elements st t < 0.95 \/ 1 <= sgp8_e elements st t \/
  sgp8_e elements st t < -0.001.
Proof.
  intros st. unfold sgp8. fold st.
  rewrite <- near_earth_decay_test.
  destruct (_ || _).
  - cbn [errorMessage]. tauto.
  - destruct (sgp8_long_period elements st t) as [[axn ayn] capu].
    destruct (_ <? 0.0); cbn [errorMessage]; split; intros H; discriminate.
Qed.

(** X16. For the states their initializers build from one element set,
    [sgp8] and [sgp4] compute the same secular semi-major axis, node and
    mean-longitude drag term at every time; in the simplified mode
    (perigee below 220 km) their whole secular updates coincide, so the
    two report decay for the same times. *)
Theorem sgp8_secular_matches_sgp4 :
  forall (elements : OrbitalElements.T) (t : R),
    let s8 := sgp8init elements in
    let s4 := sgp4init elements in
    Sgp8InitState.isimp s8 = Sgp4InitState.isimp s4 /\
    sgp8_a elements s8 t = sgp4_a s4 t /\
    s_xnode (sgp8_secular elements s8 t) = s_xnode (sgp4_secular s4 t) /\
    s_templ (sgp8_secular elements s8 t) = s_templ (sgp4_secular s4 t) /\
    (Sgp4InitState.isimp s4 = 1 ->
       sgp8_secular elements s8 t = sgp4_secular s4 t /\
       sgp8_e elements s8 t = sgp4_e s4 t /\
       (errorMessage (sgp8 elements t None) = Some decayed_message <->
        errorMessage (sgp4 elements t None) = Some decayed_message)).
Proof.
  intros elements t s8 s4.
  assert (Hsec : s_tempa (sgp8_secular elements s8 t)
                   = s_tempa (sgp4_secular s4 t) /\
                 s_xnode (sgp8_secular elements s8 t)
                   = s_xnode (sgp4_secular s4 t) /\
                 s_templ (sgp8_secular elements s8 t)
                   = s_templ (sgp4_secular s4 t)).
  { subst s8 s4. unfold sgp8_secular, sgp4_secular, sgp8init, sgp4init.
    cbv zeta.
    cbn [Sgp8InitState.isimp Sgp8InitState.c1 Sgp8InitState.d2
         Sgp8InitState.d3 Sgp8InitState.d4 Sgp8InitState.t2cof
         Sgp8InitState.t3cof Sgp8InitState.t4cof Sgp8InitState.t5cof
         Sgp8InitState.xnodot Sgp8InitState.xnodcf
         Sgp4InitState.isimp Sgp4InitState.cc1 Sgp4InitState.d2
         Sgp4InitState.d3 Sgp4InitState.d4 Sgp4InitState.t2cof
         Sgp4InitState.t3cof Sgp4InitState.t4cof Sgp4InitState.t5cof
         Sgp4InitState.nodedot Sgp4InitState.nodecf Sgp4InitState.nodeo].
    destruct (_ =? 0); cbn [s_tempa s_xnode s_templ];
      repeat split; reflexivity. }
  destruct Hsec as [Htempa [Hxnode Htempl]].
  assert (Ha : sgp8_a elements s8 t = sgp4_a s4 t).
  { unfold sgp8_a, sgp4_a. cbv zeta. rewrite Htempa. reflexivity. }
  split; [ reflexivity | ].
  split; [ exact Ha | split; [ exact Hxnode | split; [ exact Htempl | ] ] ].
  intros Hsimp.
  assert (Hall : sgp8_secular elements s8 t = sgp4_secular s4 t).
  { assert (Hb : (Sgp4InitState.isimp s4 =? 0) = false).
    { unfold Js.eq. destruct (Req_dec_T _ 0); [ lra | reflexivity ]. }
    unfold sgp8_secular, sgp4_secular. cbv zeta.
    change (Sgp8InitState.isimp s8) with (Sgp4InitState.isimp s4).
    rewrite Hb. reflexivity. }
  assert (He : sgp8_e elements s8 t = sgp4_e s4 t).
  { unfold sgp8_e, sgp4_e. rewrite Hall. reflexivity. }
  split; [ exact Hall | split; [ exact He | ] ].
  pose proof (sgp8_decayed_iff elements t None) as H8.
  pose proof (sgp4_decayed_iff elements t None) as H4.
  change (errorMessage (sgp8 elements t None) = Some decayed_message <->
          sgp8_a elements s8 t < 0.95 \/ 1 <= sgp8_e elements s8 t \/
          sgp8_e elements s8 t < -0.001) in H8.
  change (errorMessage (sgp4 elements t None) = Some decayed_message <->
          sgp4_a s4 t < 0.95 \/ 1 <= sgp4_e s4 t \/ sgp4_e s4 t < -0.001)
    in H4.
  rewrite Ha, He in H8. tauto.
Qed.

(** ** Explicit model selection *)

Lemma sgp8_algorithm (elements : OrbitalElements.T) (t : R)
  (i : option Sgp8InitState.T) : algorithm (sgp8 elements t i) = SGP8.
Proof.
  unfold sgp8. destruct (_ || _); [ reflexivity | ].
  destruct (sgp8_long_period _ _ _) as [[axn ayn] capu].
  destruct (_ <? _); reflexivity.
Qed.

Lemma sdp8_algorithm (elements : OrbitalElements.T) (t : R)
  (i : option Sdp8InitState.T) : algorithm (sdp8 elements t i) = SDP8.
Proof.
  unfold sdp8. destruct (_ || _); [ reflexivity | ].
  destruct (long_period _ _ _ _ _ _ _) as [[axn ayn] capu].
  destruct (_ <? _); reflexivity.
Qed.

(** X17. Whatever function stands for [sgp]: [propagateWithModel] throws
    exactly when the model is none of the five names, with the message
    'Unknown propagation model: ' followed by the model; a result returned
    for a model other than 'SGP' carries that model as its algorithm tag;
    and the result of the automatic [propagate] is the one
    [propagateWithModel] returns for the model named in its tag. *)
Theorem propagate_with_model :
  forall (sgp : OrbitalElements.T -> R -> PropagationResult)
         (elements : OrbitalElements.T) (t : R) (model : string),
    let models := ["SGP"; "SGP4"; "SDP4"; "SGP8"; "SDP8"]%string in
    (~ In model models <->
       propagateWithModel sgp elements t model =
       Thrown ("Unknown propagation model: " ++ model)) /\
    (In model models <->
       exists r, propagateWithModel sgp elements t model = Returned r) /\
    (forall r, propagateWithModel sgp elements t model = Returned r ->
               model <> "SGP"%string ->
               algorithm_name (algorithm r) = model) /\
    propagateWithModel sgp elements t
      (algorithm_name (algorithm (propagate elements t)))
    = Returned (propagate elements t).
Proof.
  intros sgp elements t model models.
  assert (Hcases :
    (In model models /\
     exists r, propagateWithModel sgp elements t model = Returned r /\
               (model <> "SGP"%string ->
                algorithm_name (algorithm r) = model)) \/
    (~ In model models /\
     propagateWithModel sgp elements t model =
     Thrown ("Unknown propagation model: " ++ model))).
  { unfold propagateWithModel, models.
    destruct (String.eqb model "SGP") eqn:E1;
      [ apply String.eqb_eq in E1; subst; left; split;
        [ cbn; tauto | eexists; split; [ reflexivity | congruence ] ] | ].
    destruct (String.eqb model "SGP4") eqn:E2;
      [ apply String.eqb_eq in E2; subst; left; split;
        [ cbn; tauto
        | eexists; split; [ reflexivity | intros _ ];
          rewrite sgp4_algorithm; reflexivity ] | ].
    destruct (String.eqb model "SDP4") eqn:E3;
      [ apply String.eqb_eq in E3; subst; left; split;
        [ cbn; tauto
        | eexists; split; [ reflexivity | intros _ ];
          rewrite sdp4_algorithm; reflexivity ] | ].
    destruct (String.eqb model "SGP8") eqn:E4;
      [ apply String.eqb_eq in E4; subst; left; split;
        [ cbn; tauto
        | eexists; split; [ reflexivity | intros _ ];
          rewrite sgp8_algorithm; reflexivity ] | ].
    destruct (String.eqb model "SDP8") eqn:E5;
      [ apply String.eqb_eq in E5; subst; left; split;
        [ cbn; tauto
        | eexists; split; [ reflexivity | intros _ ];
          rewrite sdp8_algorithm; reflexivity ] | ].
    right. split; [ | reflexivity ].
    apply String.eqb_neq in E1, E2, E3, E4, E5.
    cbn. intros H. decompose [or] H; congruence. }
  split; [ | split; [ | split ] ].
  - destruct Hcases as [[Hin [r [Hr _]]] | [Hno Hthrow]].
    + split; [ tauto | rewrite Hr; discriminate ].
    + tauto.
  - destruct Hcases as [[Hin [r [Hr _]]] | [Hno Hthrow]].
    + split; [ intros _; now exists r | tauto ].
    + split; [ tauto | intros [r Hr]; rewrite Hthrow in Hr; discriminate ].
  - intros r Hr Hne.
    destruct Hcases as [[Hin [r' [Hr' Htag]]] | [Hno Hthrow]].
    + rewrite Hr in Hr'. injection Hr' as <-. now apply Htag.
    + rewrite Hthrow in Hr. discriminate.
  - unfold propagate. destruct (getSatelliteType _).
    + rewrite sgp4_algorithm. reflexivity.
    + rewrite sdp4_algorithm. reflexivity.
Qed.

(** * The observer module *)

(** ** Loops that add or subtract a step *)

Lemma while_below_enough (lo step : R) (fuel : nat) (x : R) :
  0 < step -> lo <= x + INR fuel * step ->
  let r := while_below fuel lo step x in
  lo <= r /\ (x < lo -> r < lo + step) /\ (lo <= x -> r = x) /\
  exists k : nat, r = x + INR k * step.
Proof.
  intros Hstep. revert x. induction fuel as [| f IH]; intros x Hfuel.
  - cbn [while_below]. cbn [INR] in Hfuel.
    split; [ lra | split; [ lra | split; [ reflexivity | ] ] ].
    exists 0%nat. cbn [INR]. ring.
  - cbn [while_below]. rewrite S_INR in Hfuel.
    destruct (x <? lo) eqn:Hlt.
    + apply lt_iff in Hlt.
      destruct (IH (x + step)) as [H1 [H2 [H3 [k Hk]]]]; [ lra | ].
      split; [ lra | split; [ | split; [ lra | ] ] ].
      * intros _. destruct (Rlt_dec (x + step) lo) as [Hc | Hc].
        -- now apply H2.
        -- rewrite H3 by lra. lra.
      * exists (S k). rewrite S_INR, Hk. ring.
    + apply lt_not in Hlt.
      split; [ lra | split; [ lra | split; [ reflexivity | ] ] ].
    exists 0%nat. cbn [INR]. ring.
Qed.

Lemma while_above_enough (hi step : R) (fuel : nat) (x : R) :
  0 < step -> x - INR fuel * step <= hi ->
  let r := while_above fuel hi step x in
  r <= hi /\ (hi < x -> hi - step < r) /\ (x <= hi -> r = x) /\
  exists k : nat, r = x - INR k * step.
Proof.
  intros Hstep. revert x. induction fuel as [| f IH]; intros x Hfuel.
  - cbn [while_above]. cbn [INR] in Hfuel.
    split; [ lra | split; [ lra | split; [ reflexivity | ] ] ].
    exists 0%nat. cbn [INR]. ring.
  - cbn [while_above]. rewrite S_INR in Hfuel.
    destruct (x >? hi) eqn:Hgt.
    + apply gt_iff in Hgt.
      destruct (IH (x - step)) as [H1 [H2 [H3 [k Hk]]]]; [ lra | ].
      split; [ lra | split; [ | split; [ lra | ] ] ].
      * intros _. destruct (Rlt_dec hi (x - step)) as [Hc | Hc].
        -- now apply H2.
        -- rewrite H3 by lra. lra.
      * exists (S k). rewrite S_INR, Hk. ring.
    + apply lt_not in Hgt.
      split; [ lra | split; [ lra | split; [ reflexivity | ] ] ].
    exists 0%nat. cbn [INR]. ring.
Qed.

Lemma loop_fuel_enough (d step : R) :
  0 < step -> d <= INR (loop_fuel d step) * step.
Proof.
  intros Hstep. unfold loop_fuel.
  destruct (archimed (d / step)) as [Hup _].
  assert (Hd : d = d / step * step) by (field; lra).
  destruct (Z.ltb_spec (up (d / step)) 0) as [Hneg | Hpos].
  - assert (IZR (up (d / step)) <= -1) by (apply IZR_le; lia).
    replace (Z.to_nat (up (d / step))) with 0%nat by lia.
    cbn [INR]. set (q := d / step) in *. nra.
  - rewrite INR_IZR_INZ, Z2Nat.id by lia.
    set (q := d / step) in *. nra.
Qed.

(** [while (x < lo) x += step] ends, on the first value of
    [x, x + step, ...] that is not below [lo]. *)
Lemma add_while_below_spec (lo step x : R) :
  0 < step ->
  let r := add_while_below lo step x in
  lo <= r /\ (x < lo -> r < lo + step) /\ (lo <= x -> r = x) /\
  exists k : nat, r = x + INR k * step.
Proof.
  intros Hstep. unfold add_while_below.
  apply while_below_enough; [ exact Hstep | ].
  pose proof (loop_fuel_enough (lo - x) step Hstep). lra.
Qed.

(** [while (x > hi) x -= step] ends, on the first value of
    [x, x - step, ...] that is not above [hi]. *)
Lemma sub_while_above_spec (hi step x : R) :
  0 < step ->
  let r := sub_while_above hi step x in
  r <= hi /\ (hi < x -> hi - step < r) /\ (x <= hi -> r = x) /\
  exists k : nat, r = x - INR k * step.
Proof.
  intros Hstep. unfold sub_while_above.
  apply while_above_enough; [ exact Hstep | ].
  pose proof (loop_fuel_enough (x - hi) step Hstep). lra.
Qed.

(** The naturals counted by [for_count n] are those below [n]. *)
Lemma for_count_spec (n : R) (i : nat) :
  (i < for_count n)%nat <-> INR i < n.
Proof.
  unfold for_count.
  destruct (base_Int_part (- n)) as [Hlo Hhi].
  set (f := Int_part (- n)) in *.
  rewrite INR_IZR_INZ.
  split; intros H.
  - assert (Hz : (Z.of_nat i <= - f - 1)%Z) by lia.
    apply IZR_le in Hz. rewrite minus_IZR, opp_IZR in Hz. lra.
  - assert (Hz : (Z.of_nat i < - f)%Z).
    { apply lt_IZR. rewrite opp_IZR. lra. }
    lia.
Qed.

(** ** Ranges of [Math.atan2] *)

Lemma atan2_range (y x : R) : - PI < Js.atan2 y x <= PI.
Proof.
  unfold Js.atan2. pose proof PI_RGT_0 as Hpi.
  pose proof (atan_bound (y / x)) as [Hlo Hhi].
  destruct (Rlt_dec 0 x); [ lra | ].
  destruct (Rlt_dec x 0) as [Hx | Hx].
  - destruct (Rle_dec 0 y) as [Hy | Hy].
    + assert (Hq : y / x <= 0).
      { assert (H : y / x * x = y) by (field; lra).
        set (q := y / x) in *. destruct (Rle_dec q 0); [ assumption | nra ]. }
      assert (atan (y / x) <= 0).
      { destruct Hq as [Hq | Hq].
        - apply Rlt_le. rewrite <- atan_0. now apply atan_increasing.
        - rewrite Hq, atan_0. lra. }
      lra.
    + assert (Hq : 0 < y / x).
      { assert (H : y / x * x = y) by (field; lra).
        set (q := y / x) in *. destruct (Rlt_dec 0 q); [ assumption | nra ]. }
      assert (0 < atan (y / x))
        by (rewrite <- atan_0; now apply atan_increasing).
      lra.
  - destruct (Rlt_dec 0 y); [ lra | ].
    destruct (Rlt_dec y 0); lra.
Qed.

Lemma atan2_right_half (y x : R) :
  0 <= x -> - (PI / 2) <= Js.atan2 y x <= PI / 2.
Proof.
  intros Hx. unfold Js.atan2. pose proof PI_RGT_0 as Hpi.
  pose proof (atan_bound (y / x)) as [Hlo Hhi].
  destruct (Rlt_dec 0 x); [ lra | ].
  destruct (Rlt_dec x 0); [ lra | ].
  destruct (Rlt_dec 0 y); [ lra | ].
  destruct (Rlt_dec y 0); lra.
Qed.

Lemma atan2_first_quadrant (y x : R) :
  0 <= y -> 0 <= x -> 0 <= Js.atan2 y x <= PI / 2.
Proof.
  intros Hy Hx. pose proof (atan2_right_half y x Hx) as [_ Hhi].
  split; [ | exact Hhi ].
  unfold Js.atan2. pose proof PI_RGT_0 as Hpi.
  destruct (Rlt_dec 0 x) as [Hpos | Hn].
  - assert (Hq : 0 <= y / x).
    { unfold Rdiv. apply Rmult_le_pos; [ exact Hy | ].
      apply Rlt_le, Rinv_0_lt_compat, Hpos. }
    destruct Hq as [Hq | Hq].
    + apply Rlt_le. rewrite <- atan_0. now apply atan_increasing.
    + rewrite <- Hq, atan_0. lra.
  - destruct (Rlt_dec x 0); [ lra | ].
    destruct (Rlt_dec 0 y); [ lra | ].
    destruct (Rlt_dec y 0); lra.
Qed.

Lemma DEG2RAD_pos : 0 < DEG2RAD.
Proof. unfold DEG2RAD. pose proof PI_RGT_0. lra. Qed.

(** Division by [DEG2RAD] turns a bound in units of [PI] into degrees. *)
Lemma degrees_le (x k : R) : x <= k * PI <-> x / DEG2RAD <= k * 180.
Proof.
  pose proof PI_RGT_0 as Hpi. pose proof DEG2RAD_pos as Hd.
  assert (H : x / DEG2RAD * DEG2RAD = x) by (field; lra).
  assert (H180 : 180 * DEG2RAD = PI) by (unfold DEG2RAD; lra).
  set (q := x / DEG2RAD) in *. split; intros; nra.
Qed.

Lemma degrees_ge (x k : R) : k * PI <= x <-> k * 180 <= x / DEG2RAD.
Proof.
  pose proof PI_RGT_0 as Hpi. pose proof DEG2RAD_pos as Hd.
  assert (H : x / DEG2RAD * DEG2RAD = x) by (field; lra).
  assert (H180 : 180 * DEG2RAD = PI) by (unfold DEG2RAD; lra).
  set (q := x / DEG2RAD) in *. split; intros; nra.
Qed.

Lemma degrees_lt (x k : R) : k * PI < x <-> k * 180 < x / DEG2RAD.
Proof.
  pose proof PI_RGT_0 as Hpi. pose proof DEG2RAD_pos as Hd.
  assert (H : x / DEG2RAD * DEG2RAD = x) by (field; lra).
  assert (H180 : 180 * DEG2RAD = PI) by (unfold DEG2RAD; lra).
  set (q := x / DEG2RAD) in *. split; intros; nra.
Qed.

Lemma asin_positive (x : R) : -1 <= x <= 1 -> (0 < asin x <-> 0 < x).
Proof.
  intros Hx. pose proof (asin_bound x) as [Hlo Hhi].
  pose proof (sin_asin x Hx) as Hs. pose proof PI_RGT_0 as Hpi.
  split; intros H.
  - rewrite <- Hs. apply sin_gt_0; lra.
  - destruct (Rlt_dec 0 (asin x)) as [Hc | Hc]; [ exact Hc | exfalso ].
    assert (Hn : 0 <= sin (- asin x)) by (apply sin_ge_0; lra).
    rewrite sin_neg, Hs in Hn. lra.
Qed.

Lemma eccentricity_sq_bounds : 0 < EARTH_ECCENTRICITY_SQ < 1 / 100.
Proof. unfold EARTH_ECCENTRICITY_SQ, EARTH_FLATTENING. lra. Qed.

Lemma curvature_radicand_pos (s : R) :
  -1 <= s <= 1 -> 0 < 1.0 - EARTH_ECCENTRICITY_SQ * s * s.
Proof.
  intros Hs. pose proof eccentricity_sq_bounds as HE.
  assert (s * s <= 1) by nra.
  assert (EARTH_ECCENTRICITY_SQ * s * s <= EARTH_ECCENTRICITY_SQ) by nra.
  lra.
Qed.

(** X18. An observer at altitude 0 is placed on the reference ellipsoid
    of equatorial radius [XKMPER] and squared eccentricity
    [EARTH_ECCENTRICITY_SQ]: its ECEF coordinates satisfy
    [x^2 + y^2 + z^2 / (1 - e^2) = XKMPER^2], whatever the latitude and
    longitude. *)
Theorem geodeticToECEF_on_ellipsoid (lat lon : R) :
  let '(x, y, z) := geodeticToECEF (Observer.mk lat lon 0) in
  x * x + y * y + z * z / (1 - EARTH_ECCENTRICITY_SQ) = XKMPER * XKMPER.
Proof.
  unfold geodeticToECEF. cbn [Observer.latitude Observer.longitude
                              Observer.altitude].
  pose proof eccentricity_sq_bounds as HE.
  pose proof (SIN_bound (lat * DEG2RAD)) as Hs.
  pose proof (curvature_radicand_pos _ Hs) as HD.
  pose proof (sin2_cos2 (lat * DEG2RAD)) as Hlat.
  pose proof (sin2_cos2 (lon * DEG2RAD)) as Hlon.
  unfold Rsqr in Hlat, Hlon.
  set (s := sin (lat * DEG2RAD)) in *. set (c := cos (lat * DEG2RAD)) in *.
  set (sl := sin (lon * DEG2RAD)) in *. set (cl := cos (lon * DEG2RAD)) in *.
  set (E := EARTH_ECCENTRICITY_SQ) in *.
  pose proof (sqrt_sqrt (1.0 - E * s * s) (Rlt_le _ _ HD)) as Hq.
  pose proof (sqrt_lt_R0 _ HD) as Hq0.
  set (q := sqrt (1.0 - E * s * s)) in *.
  replace (0 / 1000.0) with 0 by lra.
  replace 1.0 with 1 in * by lra.
  assert (HN : XKMPER / q * (XKMPER / q) * (q * q) = XKMPER * XKMPER)
    by (field; lra).
  rewrite Hq in HN.
  set (N := XKMPER / q) in *.
  assert (Hcc : c * c = 1 - s * s) by lra.
  assert (Hll : cl * cl = 1 - sl * sl) by lra.
  rewrite <- HN.
  replace ((N + 0) * c * cl * ((N + 0) * c * cl))
    with (N * N * (c * c) * (cl * cl)) by ring.
  replace ((N + 0) * c * sl * ((N + 0) * c * sl))
    with (N * N * (c * c) * (sl * sl)) by ring.
  rewrite Hcc, Hll. field. lra.
Qed.

(** ** The rotation into the South-East-Up frame *)



(** X20. A satellite straight above the observer, at the place of an
    observer of the same latitude and longitude whose altitude is higher by
    [h] metres, has no South and no East component, is seen at elevation 90
    degrees and at a range of [h / 1000] km. *)
Theorem satellite_at_zenith (lat lon alt h gmst vx vy vz : R) :
  0 < h ->
  let '(ex, ey, ez) := geodeticToECEF (Observer.mk lat lon (alt + h)) in
  let topo := calculateTopocentric (Observer.mk lat lon alt)
                (ex * cos gmst - ey * sin gmst)
                (ex * sin gmst + ey * cos gmst) ez vx vy vz gmst in
  TopocentricCoordinates.south topo = 0 /\
  TopocentricCoordinates.east topo = 0 /\
  TopocentricCoordinates.up topo = h / 1000 /\
  LookAngles.range (calculateLookAngles topo) = h / 1000 /\
  LookAngles.elevation (calculateLookAngles topo) = 90.
Proof.
  intros Hh.
  unfold calculateTopocentric, geodeticToECEF.
  cbn [Observer.latitude Observer.longitude Observer.altitude].
  cbv zeta.
  cbn [TopocentricCoordinates.south TopocentricCoordinates.east
       TopocentricCoordinates.up].
  rewrite cos_plus, sin_plus.
  pose proof (sin_cos_unit (lat * DEG2RAD)) as Hlat.
  pose proof (sin_cos_unit (lon * DEG2RAD)) as Hlon.
  pose proof (sin_cos_unit gmst) as Hg.
  set (s := sin (lat * DEG2RAD)) in *. set (c := cos (lat * DEG2RAD)) in *.
  set (sl := sin (lon * DEG2RAD)) in *. set (cl := cos (lon * DEG2RAD)) in *.
  set (sg := sin gmst) in *. set (cg := cos gmst) in *.
  set (N := XKMPER / sqrt (1.0 - EARTH_ECCENTRICITY_SQ * s * s)).
  set (M := N * (1.0 - EARTH_ECCENTRICITY_SQ)).
  replace ((alt + h) / 1000.0) with (alt / 1000.0 + h / 1000) by lra.
  set (a := alt / 1000.0). set (k := h / 1000).
  assert (Hk : 0 < k) by (unfold k; lra).
  assert (Hsouth :
    s * (cg * cl - sg * sl) *
      ((N + (a + k)) * c * cl * cg - (N + (a + k)) * c * sl * sg -
       ((N + a) * c * cl * cg - (N + a) * c * sl * sg)) +
    s * (sg * cl + cg * sl) *
      ((N + (a + k)) * c * cl * sg + (N + (a + k)) * c * sl * cg -
       ((N + a) * c * cl * sg + (N + a) * c * sl * cg)) -
    c * ((M + (a + k)) * s - (M + a) * s) = 0).
  { transitivity
      (k * s * c * ((sg * sg + cg * cg) * (sl * sl + cl * cl) - 1));
      [ ring | rewrite Hg, Hlon; ring ]. }
  assert (Heast :
    - (sg * cl + cg * sl) *
      ((N + (a + k)) * c * cl * cg - (N + (a + k)) * c * sl * sg -
       ((N + a) * c * cl * cg - (N + a) * c * sl * sg)) +
    (cg * cl - sg * sl) *
      ((N + (a + k)) * c * cl * sg + (N + (a + k)) * c * sl * cg -
       ((N + a) * c * cl * sg + (N + a) * c * sl * cg)) = 0) by ring.
  assert (Hup :
    c * (cg * cl - sg * sl) *
      ((N + (a + k)) * c * cl * cg - (N + (a + k)) * c * sl * sg -
       ((N + a) * c * cl * cg - (N + a) * c * sl * sg)) +
    c * (sg * cl + cg * sl) *
      ((N + (a + k)) * c * cl * sg + (N + (a + k)) * c * sl * cg -
       ((N + a) * c * cl * sg + (N + a) * c * sl * cg)) +
    s * ((M + (a + k)) * s - (M + a) * s) = k).
  { transitivity
      (k * (c * c * ((sg * sg + cg * cg) * (sl * sl + cl * cl) - 1) +
            (s * s + c * c)));
      [ ring | rewrite Hg, Hlon, Hlat; ring ]. }
  unfold calculateLookAngles.
  cbn [TopocentricCoordinates.south TopocentricCoordinates.east
       TopocentricCoordinates.up LookAngles.range LookAngles.elevation].
  rewrite Hsouth, Heast, Hup.
  replace (0 * 0 + 0 * 0 + k * k) with (k * k) by ring.
  rewrite sqrt_square by lra.
  replace (k / k) with 1 by (field; lra).
  rewrite asin_1.
  repeat split. pose proof PI_RGT_0 as Hpi. pose proof DEG2RAD_pos as Hd.
  apply Rmult_eq_reg_r with DEG2RAD; [ | lra ].
  replace (PI / 2 / DEG2RAD * DEG2RAD) with (PI / 2) by (field; lra).
  unfold DEG2RAD. lra.
Qed.

Lemma satellite_at_zenith_witness :
  let '(ex, ey, ez) := geodeticToECEF (Observer.mk 0 0 (0 + 1000)) in
  let topo := calculateTopocentric (Observer.mk 0 0 0)
                (ex * cos 0 - ey * sin 0)
                (ex * sin 0 + ey * cos 0) ez 0 0 0 0 in
  TopocentricCoordinates.south topo = 0 /\
  TopocentricCoordinates.east topo = 0 /\
  TopocentricCoordinates.up topo = 1000 / 1000 /\
  LookAngles.range (calculateLookAngles topo) = 1000 / 1000 /\
  LookAngles.elevation (calculateLookAngles topo) = 90.
Proof.
  assert (H : 0 < 1000) by lra.
  exact (satellite_at_zenith 0 0 0 1000 0 0 0 0 H).
Defined.

(** ** Look angles *)

Lemma cauchy_schwarz3 (a1 a2 a3 b1 b2 b3 : R) :
  Rabs (a1 * b1 + a2 * b2 + a3 * b3) <=
  sqrt (a1 * a1 + a2 * a2 + a3 * a3) * sqrt (b1 * b1 + b2 * b2 + b3 * b3).
Proof.
  assert (Ha : 0 <= a1 * a1 + a2 * a2 + a3 * a3) by nra.
  assert (Hb : 0 <= b1 * b1 + b2 * b2 + b3 * b3) by nra.
  rewrite <- sqrt_mult by assumption.
  rewrite <- sqrt_Rsqr_abs.
  apply sqrt_le_1.
  - apply Rle_0_sqr.
  - now apply Rmult_le_pos.
  - pose proof (Rle_0_sqr (a1 * b2 - a2 * b1)) as H1.
    pose proof (Rle_0_sqr (a1 * b3 - a3 * b1)) as H2.
    pose proof (Rle_0_sqr (a2 * b3 - a3 * b2)) as H3.
    unfold Rsqr in *. lra.
Qed.

Lemma sqrt_sum_pos (a b c : R) :
  a * a + b * b + c * c <> 0 -> 0 < sqrt (a * a + b * b + c * c).
Proof. intros H. apply sqrt_lt_R0. nra. Qed.

Lemma component_le_norm (a b c : R) :
  a * a + b * b + c * c <> 0 ->
  -1 <= c / sqrt (a * a + b * b + c * c) <= 1.
Proof.
  intros H. pose proof (sqrt_sum_pos a b c H) as Hr.
  assert (Hs : 0 <= a * a + b * b + c * c) by nra.
  pose proof (sqrt_sqrt _ Hs) as Hq.
  set (r := sqrt (a * a + b * b + c * c)) in *.
  assert (Hc : c / r * r = c) by (field; lra).
  set (q := c / r) in *.
  assert (q * q * (r * r) = c * c)
    by (replace (c * c) with (q * r * (q * r)) by (now rewrite Hc); ring).
  assert (Hqq : q * q <= 1).
  { destruct (Rle_dec (q * q) 1) as [Hle | Hgt]; [ exact Hle | exfalso ].
    assert (0 < r * r) by nra. nra. }
  split; nra.
Qed.

(** X21. For a satellite that is not at the observer's own position the
    look angles are in range: azimuth in [0, 360), elevation in [-90, 90],
    the range positive; the elevation is positive exactly when the [up]
    component is, and the range rate is at most the relative speed. *)
Theorem look_angles_ranges (t : TopocentricCoordinates.T) :
  TopocentricCoordinates.south t * TopocentricCoordinates.south t +
  TopocentricCoordinates.east t * TopocentricCoordinates.east t +
  TopocentricCoordinates.up t * TopocentricCoordinates.up t <> 0 ->
  let look := calculateLookAngles t in
  0 <= LookAngles.azimuth look < 360 /\
  -90 <= LookAngles.elevation look <= 90 /\
  0 < LookAngles.range look /\
  (0 < LookAngles.elevation look <-> 0 < TopocentricCoordinates.up t) /\
  Rabs (LookAngles.rangeRate look) <=
    sqrt (TopocentricCoordinates.southRate t *
            TopocentricCoordinates.southRate t +
          TopocentricCoordinates.eastRate t *
            TopocentricCoordinates.eastRate t +
          TopocentricCoordinates.upRate t *
            TopocentricCoordinates.upRate t).
Proof.
  destruct t as [south east up sr er ur].
  cbn [TopocentricCoordinates.south TopocentricCoordinates.east
       TopocentricCoordinates.up TopocentricCoordinates.southRate
       TopocentricCoordinates.eastRate TopocentricCoordinates.upRate].
  intros Hne. unfold calculateLookAngles.
  cbn [TopocentricCoordinates.south TopocentricCoordinates.east
       TopocentricCoordinates.up TopocentricCoordinates.southRate
       TopocentricCoordinates.eastRate TopocentricCoordinates.upRate
       LookAngles.azimuth LookAngles.elevation LookAngles.range
       LookAngles.rangeRate].
  pose proof PI_RGT_0 as Hpi. pose proof DEG2RAD_pos as Hd.
  pose proof (sqrt_sum_pos _ _ _ Hne) as Hr.
  pose proof (component_le_norm _ _ _ Hne) as Hq.
  pose proof (cauchy_schwarz3 south east up sr er ur) as Hcs.
  set (r := sqrt (south * south + east * east + up * up)) in *.
  set (speed := sqrt (sr * sr + er * er + ur * ur)) in *.
  split; [ | split; [ | split; [ exact Hr | split ] ] ].
  - pose proof (atan2_range east (- south)) as [Hlo Hhi].
    assert (Hlo' : -1 * 180 < Js.atan2 east (- south) / DEG2RAD)
      by (apply degrees_lt; lra).
    assert (Hhi' : Js.atan2 east (- south) / DEG2RAD <= 1 * 180)
      by (apply degrees_le; lra).
    destruct (_ <? 0) eqn:Hneg.
    + apply lt_iff in Hneg. lra.
    + apply lt_not in Hneg. lra.
  - pose proof (asin_bound (up / r)) as [Hlo Hhi].
    assert (- (1 / 2) * 180 <= asin (up / r) / DEG2RAD)
      by (apply degrees_ge; lra).
    assert (asin (up / r) / DEG2RAD <= 1 / 2 * 180)
      by (apply degrees_le; lra).
    lra.
  - assert (Hdeg : 0 < asin (up / r) / DEG2RAD <-> 0 < asin (up / r)).
    { split; intros H.
      - assert (0 * PI < asin (up / r)) by (apply degrees_lt; lra). lra.
      - assert (0 * 180 < asin (up / r) / DEG2RAD)
          by (apply degrees_lt; lra). lra. }
    rewrite Hdeg, (asin_positive _ Hq).
    assert (Hu : up / r * r = up) by (field; lra).
    set (q := up / r) in *. split; intros; nra.
  - assert (Hdiv : (south * sr + east * er + up * ur) / r * r =
                   south * sr + east * er + up * ur) by (field; lra).
    set (d := south * sr + east * er + up * ur) in *.
    set (q := d / r) in *.
    assert (Hab : Rabs q * r = Rabs d).
    { rewrite <- Hdiv, Rabs_mult, (Rabs_right r); [ reflexivity | lra ]. }
    assert (Hsp : 0 <= speed) by apply sqrt_pos.
    pose proof (Rabs_pos q) as Hq0.
    destruct (Rle_dec (Rabs q) speed) as [Hle | Hgt]; [ exact Hle | exfalso ].
    nra.
Qed.

Lemma look_angles_ranges_witness :
  let t := TopocentricCoordinates.mk 0 0 1 0 0 0 in
  let look := calculateLookAngles t in
  0 <= LookAngles.azimuth look < 360 /\
  -90 <= LookAngles.elevation look <= 90 /\
  0 < LookAngles.range look /\
  (0 < LookAngles.elevation look <-> 0 < TopocentricCoordinates.up t) /\
  Rabs (LookAngles.rangeRate look) <=
    sqrt (TopocentricCoordinates.southRate t *
            TopocentricCoordinates.southRate t +
          TopocentricCoordinates.eastRate t *
            TopocentricCoordinates.eastRate t +
          TopocentricCoordinates.upRate t *
            TopocentricCoordinates.upRate t).
Proof.
  apply (look_angles_ranges (TopocentricCoordinates.mk 0 0 1 0 0 0)).
  cbn [TopocentricCoordinates.south TopocentricCoordinates.east
       TopocentricCoordinates.up]. lra.
Defined.

(** ** The haversine distance *)

Lemma sin_half_sqr (x : R) : sin (x / 2) ^ 2 = (1 - cos x) / 2.
Proof.
  replace x with (2 * (x / 2)) at 2 by field.
  rewrite cos_2a_sin. field.
Qed.

(** The quantity [a] of the haversine formula is half of one minus the
    dot product of the two unit vectors. *)
Lemma haversine_a (lat1 lat2 dLon : R) :
  sin ((lat2 - lat1) / 2) ^ 2 + cos lat1 * cos lat2 * sin (dLon / 2) ^ 2 =
  (1 - (sin lat1 * sin lat2 + cos lat1 * cos lat2 * cos dLon)) / 2.
Proof. rewrite !sin_half_sqr, cos_minus. field. Qed.

Lemma unit_dot_bound (lat1 lat2 dLon : R) :
  -1 <= sin lat1 * sin lat2 + cos lat1 * cos lat2 * cos dLon <= 1.
Proof.
  pose proof (sin_cos_unit lat1) as H1. pose proof (sin_cos_unit lat2) as H2.
  pose proof (COS_bound dLon) as Hd.
  set (s1 := sin lat1) in *. set (c1 := cos lat1) in *.
  set (s2 := sin lat2) in *. set (c2 := cos lat2) in *.
  set (d := cos dLon) in *.
  assert (Hp : -1 <= s1 * s2 + c1 * c2 <= 1).
  { pose proof (Rle_0_sqr (s1 - s2)). pose proof (Rle_0_sqr (c1 - c2)).
    pose proof (Rle_0_sqr (s1 + s2)). pose proof (Rle_0_sqr (c1 + c2)).
    unfold Rsqr in *. split; nra. }
  assert (Hm : -1 <= s1 * s2 - c1 * c2 <= 1).
  { pose proof (Rle_0_sqr (s1 - s2)). pose proof (Rle_0_sqr (c1 + c2)).
    pose proof (Rle_0_sqr (s1 + s2)). pose proof (Rle_0_sqr (c1 - c2)).
    unfold Rsqr in *. split; nra. }
  destruct (Rle_dec 0 (c1 * c2)); split; nra.
Qed.

Lemma sin_atan2_sqrt (a : R) :
  0 <= a <= 1 -> sin (Js.atan2 (sqrt a) (sqrt (1 - a))) = sqrt a.
Proof.
  intros Ha. unfold Js.atan2.
  pose proof (sqrt_pos (1 - a)) as Hq0.
  assert (Hp : sqrt a * sqrt a = a) by (apply sqrt_sqrt; lra).
  assert (Hq : sqrt (1 - a) * sqrt (1 - a) = 1 - a) by (apply sqrt_sqrt; lra).
  set (p := sqrt a) in *. set (q := sqrt (1 - a)) in *.
  destruct (Rlt_dec 0 q) as [Hpos | Hn].
  - rewrite sin_atan.
    replace (1 + (p / q)²) with ((/ q)²).
    + rewrite sqrt_Rsqr; [ field; lra | ].
      apply Rlt_le, Rinv_0_lt_compat, Hpos.
    + unfold Rsqr. assert (Hpq : p * p + q * q = 1) by lra.
      transitivity ((p * p + q * q) * (/ q * / q));
        [ rewrite Hpq; ring | ].
      transitivity (q * q * (/ q * / q) + p / q * (p / q));
        [ field; lra | ].
      f_equal. field. lra.
  - assert (Hz : q = 0) by lra.
    assert (Ha1 : a = 1) by (rewrite Hz in Hq; lra).
    assert (Hp1 : p = 1).
    { unfold p. rewrite Ha1. apply sqrt_1. }
    destruct (Rlt_dec q 0); [ lra | ].
    destruct (Rlt_dec 0 p); [ | lra ].
    rewrite sin_PI2. lra.
Qed.

(** X22. [distanceToSubSatellite] is the great-circle distance on the
    sphere of radius [XKMPER]: [XKMPER * c] for the angle [c] in [0, PI]
    whose cosine is the dot product of the unit vectors of the observer and
    of the sub-satellite point; it lies between 0 and half of the
    circumference. *)
Theorem distance_is_great_circle
  (observer : Observer.T) (footprint : VisibilityFootprint.T) :
  let lat1 := Observer.latitude observer * DEG2RAD in
  let lon1 := Observer.longitude observer * DEG2RAD in
  let lat2 := LatLon.latitude
    (VisibilityFootprint.subSatellitePoint footprint) * DEG2RAD in
  let lon2 := LatLon.longitude
    (VisibilityFootprint.subSatellitePoint footprint) * DEG2RAD in
  let c := distanceToSubSatellite observer footprint / XKMPER in
  0 <= c <= PI /\
  cos c = sin lat1 * sin lat2 + cos lat1 * cos lat2 * cos (lon2 - lon1) /\
  0 <= distanceToSubSatellite observer footprint <= PI * XKMPER.
Proof.
  intros lat1 lon1 lat2 lon2.
  assert (HX : 0 < XKMPER) by (unfold XKMPER; lra).
  unfold distanceToSubSatellite. cbv zeta.
  replace (XKMPER * haversine_angle observer footprint / XKMPER)
    with (haversine_angle observer footprint) by (field; lra).
  unfold haversine_angle. fold lat1 lon1 lat2 lon2. cbv zeta.
  rewrite haversine_a.
  pose proof (unit_dot_bound lat1 lat2 (lon2 - lon1)) as Hdot.
  set (dot := sin lat1 * sin lat2 + cos lat1 * cos lat2 * cos (lon2 - lon1))
    in *.
  set (a := (1 - dot) / 2).
  assert (Ha : 0 <= a <= 1) by (unfold a; lra).
  pose proof (atan2_first_quadrant (sqrt a) (sqrt (1 - a))
                (sqrt_pos _) (sqrt_pos _)) as Hrange.
  pose proof (sin_atan2_sqrt a Ha) as Hsin.
  set (h := Js.atan2 (sqrt a) (sqrt (1 - a))) in *.
  assert (Hc : 0 <= 2 * h <= PI) by lra.
  split; [ exact Hc | split ].
  - rewrite cos_2a_sin, Hsin.
    replace (2 * sqrt a * sqrt a) with (2 * (sqrt a * sqrt a)) by ring.
    rewrite sqrt_sqrt by lra. unfold a. lra.
  - split; nra.
Qed.

Lemma within_iff_distance
  (observer : Observer.T) (footprint : VisibilityFootprint.T) :
  isWithinFootprint observer footprint = true <->
  distanceToSubSatellite observer footprint <=
    XKMPER * (VisibilityFootprint.radiusDeg footprint * DEG2RAD).
Proof.
  unfold isWithinFootprint, distanceToSubSatellite. cbv zeta.
  rewrite le_iff.
  assert (HX : 0 < XKMPER) by (unfold XKMPER; lra).
  pose proof DEG2RAD_pos as Hd.
  set (c := haversine_angle observer footprint).
  set (rd := VisibilityFootprint.radiusDeg footprint).
  assert (Hc : c / DEG2RAD * DEG2RAD = c) by (field; lra).
  set (q := c / DEG2RAD) in *.
  split; intros H.
  - rewrite <- Hc. apply Rmult_le_compat_l; [ lra | ].
    apply Rmult_le_compat_r; lra.
  - apply Rmult_le_reg_l in H; [ | exact HX ].
    rewrite <- Hc in H. apply Rmult_le_reg_r in H; assumption.
Qed.

(** X23. [isWithinFootprint] and [distanceToSubSatellite] agree: an
    observer is within a footprint computed by
    [calculateVisibilityFootprint] exactly when its distance to the
    sub-satellite point is at most the footprint's [radiusKm]; the
    sub-satellite point itself is at distance 0. *)
Theorem within_footprint_iff_distance
  (observer : Observer.T) (geodetic : GeodeticCoordinates.T)
  (minElevation numPoints : R) :
  let footprint :=
    calculateVisibilityFootprint geodetic minElevation numPoints in
  (isWithinFootprint observer footprint = true <->
   distanceToSubSatellite observer footprint <=
     VisibilityFootprint.radiusKm footprint) /\
  distanceToSubSatellite
    (Observer.mk (GeodeticCoordinates.latitude geodetic)
                 (GeodeticCoordinates.longitude geodetic)
                 (Observer.altitude observer)) footprint = 0.
Proof.
  intros footprint. split.
  - rewrite within_iff_distance.
    unfold footprint, calculateVisibilityFootprint.
    cbn [VisibilityFootprint.radiusDeg VisibilityFootprint.radiusKm].
    pose proof DEG2RAD_pos as Hd.
    replace (footprint_rho (GeodeticCoordinates.altitude geodetic)
               minElevation / DEG2RAD * DEG2RAD)
      with (footprint_rho (GeodeticCoordinates.altitude geodetic)
              minElevation) by (field; lra).
    reflexivity.
  - unfold distanceToSubSatellite, haversine_angle, footprint,
      calculateVisibilityFootprint.
    cbn [VisibilityFootprint.subSatellitePoint LatLon.latitude
         LatLon.longitude Observer.latitude Observer.longitude].
    cbv zeta.
    rewrite !Rminus_diag.
    replace (0 / 2) with 0 by lra.
    rewrite sin_0.
    replace (0 ^ 2 + _ * 0 ^ 2) with 0 by ring.
    rewrite Rminus_0_r, sqrt_0, sqrt_1.
    unfold Js.atan2.
    destruct (Rlt_dec 0 1); [ | lra ].
    replace (0 / 1) with 0 by lra. rewrite atan_0. ring.
Qed.

(** ** Geodetic coordinates *)

Lemma atan2_fourth_quadrant (y x : R) :
  y <= 0 -> 0 <= x -> - (PI / 2) <= Js.atan2 y x <= 0.
Proof.
  intros Hy Hx. pose proof (atan2_right_half y x Hx) as [Hlo _].
  split; [ exact Hlo | ].
  unfold Js.atan2. pose proof PI_RGT_0 as Hpi.
  destruct (Rlt_dec 0 x) as [Hpos | Hn].
  - assert (Hq : y / x <= 0).
    { assert (H : y / x * x = y) by (field; lra).
      set (q := y / x) in *. destruct (Rle_dec q 0); [ assumption | nra ]. }
    destruct Hq as [Hq | Hq].
    + apply Rlt_le. rewrite <- atan_0. now apply atan_increasing.
    + rewrite Hq, atan_0. lra.
  - destruct (Rlt_dec x 0); [ lra | ].
    destruct (Rlt_dec 0 y); [ lra | ].
    destruct (Rlt_dec y 0); lra.
Qed.

Lemma curvature_factor_nonneg (s : R) :
  0 <= 1.0 / sqrt (1.0 - EARTH_ECCENTRICITY_SQ * s * s).
Proof.
  unfold Rdiv. apply Rmult_le_pos; [ lra | ].
  apply Rinv_nonneg, sqrt_pos.
Qed.

Lemma latitude_loop_range (n : nat) (z r : R) :
  0 <= r -> forall latitude prevLat : R,
  - (PI / 2) <= latitude <= PI / 2 ->
  - (PI / 2) <= latitude_loop n z r latitude prevLat <= PI / 2.
Proof.
  intros Hr. induction n as [| n IH]; intros latitude prevLat Hlat.
  - exact Hlat.
  - cbn [latitude_loop]. destruct (_ >? _); [ | exact Hlat ].
    cbv zeta. apply IH. now apply atan2_right_half.
Qed.

Lemma latitude_loop_north (n : nat) (z r : R) :
  0 <= r -> 0 <= z -> forall latitude prevLat : R,
  0 <= latitude <= PI / 2 ->
  0 <= latitude_loop n z r latitude prevLat.
Proof.
  intros Hr Hz. induction n as [| n IH]; intros latitude prevLat Hlat.
  - apply Hlat.
  - cbn [latitude_loop]. destruct (_ >? _); [ | apply Hlat ].
    cbv zeta. apply IH. apply atan2_first_quadrant; [ | exact Hr ].
    pose proof (curvature_factor_nonneg (sin latitude)) as HC.
    pose proof eccentricity_sq_bounds as HE.
    assert (HX : 0 < XKMPER) by (unfold XKMPER; lra).
    assert (Hs : 0 <= sin latitude)
      by (apply sin_ge_0; pose proof PI_RGT_0; lra).
    set (C := 1.0 / sqrt _) in *.
    assert (0 <= XKMPER * C) by (apply Rmult_le_pos; lra).
    assert (0 <= XKMPER * C * EARTH_ECCENTRICITY_SQ)
      by (apply Rmult_le_pos; lra).
    assert (0 <= XKMPER * C * EARTH_ECCENTRICITY_SQ * sin latitude)
      by (apply Rmult_le_pos; lra).
    lra.
Qed.

Lemma latitude_loop_south (n : nat) (z r : R) :
  0 <= r -> z <= 0 -> forall latitude prevLat : R,
  - (PI / 2) <= latitude <= 0 ->
  latitude_loop n z r latitude prevLat <= 0.
Proof.
  intros Hr Hz. induction n as [| n IH]; intros latitude prevLat Hlat.
  - apply Hlat.
  - cbn [latitude_loop]. destruct (_ >? _); [ | apply Hlat ].
    cbv zeta. apply IH. apply atan2_fourth_quadrant; [ | exact Hr ].
    pose proof (curvature_factor_nonneg (sin latitude)) as HC.
    pose proof eccentricity_sq_bounds as HE.
    assert (HX : 0 < XKMPER) by (unfold XKMPER; lra).
    assert (Hs : 0 <= sin (- latitude))
      by (apply sin_ge_0; pose proof PI_RGT_0; lra).
    rewrite sin_neg in Hs.
    set (C := 1.0 / sqrt _) in *.
    assert (0 <= XKMPER * C) by (apply Rmult_le_pos; lra).
    assert (0 <= XKMPER * C * EARTH_ECCENTRICITY_SQ)
      by (apply Rmult_le_pos; lra).
    assert (0 <= XKMPER * C * EARTH_ECCENTRICITY_SQ * - sin latitude)
      by (apply Rmult_le_pos; lra).
    lra.
Qed.

(** The two loops that bring the longitude into [-PI, PI]. *)
Lemma longitude_normalised (l : R) :
  let l' := sub_while_above PI TWOPI (add_while_below (- PI) TWOPI l) in
  - PI <= l' <= PI /\ exists k : Z, l' = l + IZR k * TWOPI.
Proof.
  pose proof TWOPI_pos as H2. pose proof PI_RGT_0 as Hpi.
  assert (HT : TWOPI = 2 * PI) by (unfold TWOPI; lra).
  destruct (add_while_below_spec (- PI) TWOPI l H2)
    as [A1 [A2 [A3 [ka Hka]]]].
  set (l1 := add_while_below (- PI) TWOPI l) in *.
  destruct (sub_while_above_spec PI TWOPI l1 H2) as [B1 [B2 [B3 [kb Hkb]]]].
  cbv zeta. set (l2 := sub_while_above PI TWOPI l1) in *.
  split.
  - split; [ | exact B1 ].
    destruct (Rle_dec l1 PI) as [Hle | Hgt].
    + rewrite B3 by exact Hle. exact A1.
    + assert (PI - TWOPI < l2) by (apply B2; lra). lra.
  - exists (Z.of_nat ka - Z.of_nat kb)%Z.
    rewrite minus_IZR, <- !INR_IZR_INZ, Hkb, Hka. ring.
Qed.

(** X24. [eciToGeodetic] returns a latitude in [-90, 90] that has the sign
    of [z], and a longitude in [-180, 180] that differs from the angle
    [atan2(y, x) - gmst], in degrees, by a whole number of turns; for a
    position in the equatorial plane the latitude is 0 and the altitude is
    the distance to the axis less [XKMPER]. *)
Theorem eciToGeodetic_ranges (x y z gmst : R) :
  let g := eciToGeodetic x y z gmst in
  -90 <= GeodeticCoordinates.latitude g <= 90 /\
  -180 <= GeodeticCoordinates.longitude g <= 180 /\
  (exists k : Z,
     GeodeticCoordinates.longitude g =
     (Js.atan2 y x - gmst) / DEG2RAD + IZR k * 360) /\
  (0 <= z -> 0 <= GeodeticCoordinates.latitude g) /\
  (z <= 0 -> GeodeticCoordinates.latitude g <= 0) /\
  (z = 0 -> GeodeticCoordinates.latitude g = 0 /\
            GeodeticCoordinates.altitude g = sqrt (x * x + y * y) - XKMPER).
Proof.
  pose proof PI_RGT_0 as Hpi. pose proof DEG2RAD_pos as Hd.
  pose proof (sqrt_pos (x * x + y * y)) as Hr.
  pose proof (longitude_normalised (Js.atan2 y x - gmst)) as [Hlon [k Hk]].
  cbv zeta in Hlon, Hk.
  pose proof (latitude_loop_range 10 z _ Hr _ 0
                (atan2_right_half z _ Hr)) as Hlat.
  assert (Hnorth : 0 <= z ->
    0 <= latitude_loop 10 z (sqrt (x * x + y * y))
           (Js.atan2 z (sqrt (x * x + y * y))) 0).
  { intros Hz. apply latitude_loop_north; try assumption.
    now apply atan2_first_quadrant. }
  assert (Hsouth : z <= 0 ->
    latitude_loop 10 z (sqrt (x * x + y * y))
      (Js.atan2 z (sqrt (x * x + y * y))) 0 <= 0).
  { intros Hz. apply latitude_loop_south; try assumption.
    now apply atan2_fourth_quadrant. }
  unfold eciToGeodetic. cbv zeta.
  cbn [GeodeticCoordinates.latitude GeodeticCoordinates.longitude
       GeodeticCoordinates.altitude].
  set (lon := sub_while_above PI TWOPI _) in *.
  set (r := sqrt (x * x + y * y)) in *.
  set (lat := latitude_loop 10 z r (Js.atan2 z r) 0) in *.
  assert (Hzero : forall a : R, 0 <= a -> 0 * 180 <= a / DEG2RAD)
    by (intros a Ha; apply degrees_ge; lra).
  assert (Hzero' : forall a : R, a <= 0 -> a / DEG2RAD <= 0 * 180)
    by (intros a Ha; apply degrees_le; lra).
  split; [ | split; [ | split; [ | split; [ | split ] ] ] ].
  - assert (- (1 / 2) * 180 <= lat / DEG2RAD) by (apply degrees_ge; lra).
    assert (lat / DEG2RAD <= 1 / 2 * 180) by (apply degrees_le; lra).
    lra.
  - assert (-1 * 180 <= lon / DEG2RAD) by (apply degrees_ge; lra).
    assert (lon / DEG2RAD <= 1 * 180) by (apply degrees_le; lra).
    lra.
  - exists k. rewrite Hk.
    assert (H360 : TWOPI = 360 * DEG2RAD) by (unfold TWOPI, DEG2RAD; lra).
    rewrite H360. field. lra.
  - intros Hz. specialize (Hzero lat (Hnorth Hz)). lra.
  - intros Hz. specialize (Hzero' lat (Hsouth Hz)). lra.
  - intros Hz.
    assert (Hl0 : lat = 0).
    { apply Rle_antisym; [ apply Hsouth | apply Hnorth ]; lra. }
    rewrite Hl0, sin_0, cos_0.
    split; [ unfold Rdiv; ring | ].
    replace (1.0 - EARTH_ECCENTRICITY_SQ * 0 * 0) with 1 by lra.
    rewrite sqrt_1, Rabs_R1.
    destruct (1 >? 1e-10) eqn:Hc.
    + lra.
    + apply lt_not in Hc. lra.
Qed.

(** ** The visibility footprint *)

Lemma acos_between (u e : R) :
  0 <= e <= PI / 2 -> 0 <= u <= cos e -> e <= acos u <= PI / 2.
Proof.
  intros He Hu. pose proof PI_RGT_0 as Hpi.
  pose proof (COS_bound e) as Hce.
  pose proof (acos_bound u) as Hb.
  assert (Hcos : cos (acos u) = u) by (apply cos_acos; lra).
  split.
  - destruct (Rle_dec e (acos u)) as [Hle | Hgt]; [ exact Hle | exfalso ].
    assert (cos e < cos (acos u)) by (apply cos_decreasing_1; lra).
    lra.
  - destruct (Rle_dec (acos u) (PI / 2)) as [Hle | Hgt]; [ exact Hle | ].
    exfalso.
    assert (cos (acos u) < 0) by (apply cos_lt_0; lra).
    lra.
Qed.

Lemma footprint_rho_range (altitude minElevation : R) :
  0 <= altitude -> 0 <= minElevation <= 90 ->
  0 <= footprint_rho altitude minElevation <=
    PI / 2 - minElevation * DEG2RAD.
Proof.
  intros Halt Hel. pose proof PI_RGT_0 as Hpi.
  assert (HX : 0 < XKMPER) by (unfold XKMPER; lra).
  assert (Hrad : 0 <= minElevation * DEG2RAD <= PI / 2)
    by (unfold DEG2RAD; split; nra).
  assert (Hratio : 0 < XKMPER / (XKMPER + altitude) <= 1).
  { split.
    - apply Rdiv_lt_0_compat; lra.
    - apply Rmult_le_reg_r with (XKMPER + altitude); [ lra | ].
      replace (XKMPER / (XKMPER + altitude) * (XKMPER + altitude))
        with XKMPER by (field; lra).
      lra. }
  unfold footprint_rho. cbv zeta.
  destruct (minElevation =? 0) eqn:Hz.
  - apply eq_iff in Hz. subst minElevation.
    replace (0 * DEG2RAD) with 0 in * by ring.
    assert (H0 : 0 <= XKMPER / (XKMPER + altitude) <= cos 0)
      by (rewrite cos_0; lra).
    pose proof (acos_between _ 0 Hrad H0). lra.
  - set (e := minElevation * DEG2RAD) in *.
    assert (Hc : 0 <= cos e) by (apply cos_ge_0; lra).
    pose proof (COS_bound e) as Hce.
    assert (Hu : 0 <= XKMPER * cos e / (XKMPER + altitude) <= cos e).
    { replace (XKMPER * cos e / (XKMPER + altitude))
        with (XKMPER / (XKMPER + altitude) * cos e) by (field; lra).
      split; [ apply Rmult_le_pos; lra | ].
      set (q := XKMPER / (XKMPER + altitude)) in *. nra. }
    destruct (_ >=? 1) eqn:H1; [ lra | ].
    destruct (_ <=? -1) eqn:H2.
    + apply le_iff in H2. lra.
    + pose proof (acos_between _ e Hrad Hu). lra.
Qed.

Lemma for_count_INR (n : nat) : for_count (INR n) = n.
Proof.
  pose proof (for_count_spec (INR n)) as H.
  destruct (Nat.lt_trichotomy (for_count (INR n)) n) as [Hlt | [Heq | Hgt]].
  - exfalso. apply (Nat.lt_irrefl (for_count (INR n))).
    apply H. now apply lt_INR.
  - exact Heq.
  - exfalso. apply H in Hgt. apply INR_lt in Hgt. lia.
Qed.


(** X25. For a satellite at an altitude of at least 0 and a minimum
    elevation between 0 and 90 degrees, the footprint's angular radius is
    between 0 and [90 - minElevation] degrees and its ground radius is not
    negative; at minimum elevation 0 the maximum slant range is the length
    [sqrt (altitude * (2 * XKMPER + altitude))] of the tangent to the
    sphere. *)
Theorem footprint_radius (geodetic : GeodeticCoordinates.T)
  (minElevation numPoints : R) :
  0 <= GeodeticCoordinates.altitude geodetic ->
  0 <= minElevation <= 90 ->
  let altitude := GeodeticCoordinates.altitude geodetic in
  let f := calculateVisibilityFootprint geodetic minElevation numPoints in
  0 <= VisibilityFootprint.radiusDeg f <= 90 - minElevation /\
  0 <= VisibilityFootprint.radiusKm f <=
    XKMPER * (PI / 2 - minElevation * DEG2RAD) /\
  (minElevation = 0 ->
   VisibilityFootprint.maxRange f =
   sqrt (altitude * (2 * XKMPER + altitude))).
Proof.
  intros Halt Hel altitude f.
  pose proof (footprint_rho_range altitude minElevation Halt Hel) as Hrho.
  pose proof PI_RGT_0 as Hpi. pose proof DEG2RAD_pos as Hd.
  assert (HX : 0 < XKMPER) by (unfold XKMPER; lra).
  unfold f, calculateVisibilityFootprint. cbv zeta.
  cbn [VisibilityFootprint.radiusDeg VisibilityFootprint.radiusKm
       VisibilityFootprint.maxRange].
  fold altitude.
  set (rho := footprint_rho altitude minElevation) in *.
  split; [ | split ].
  - assert (0 * 180 <= rho / DEG2RAD) by (apply degrees_ge; lra).
    assert (Hq : rho / DEG2RAD * DEG2RAD = rho) by (field; lra).
    set (q := rho / DEG2RAD) in *.
    assert (H180 : 180 * DEG2RAD = PI) by (unfold DEG2RAD; lra).
    split; [ lra | nra ].
  - split; [ apply Rmult_le_pos; lra | ].
    apply Rmult_le_compat_l; lra.
  - intros Hz. f_equal.
    assert (Ha : 0 <= altitude) by exact Halt. clearbody altitude.
    assert (Hr : rho = acos (XKMPER / (XKMPER + altitude))).
    { unfold rho, footprint_rho. cbv zeta.
      destruct (minElevation =? 0) eqn:Hc; [ reflexivity | ].
      exfalso. apply eq_iff in Hz. congruence. }
    rewrite Hr, cos_acos.
    + field. lra.
    + split.
      * apply Rle_trans with 0; [ lra | ].
        apply Rlt_le, Rdiv_lt_0_compat; lra.
      * apply Rmult_le_reg_r with (XKMPER + altitude); [ lra | ].
        replace (XKMPER / (XKMPER + altitude) * (XKMPER + altitude))
          with XKMPER by (field; lra).
        lra.
Qed.

Lemma footprint_radius_witness :
  let g := GeodeticCoordinates.mk 0 0 400 in
  let altitude := GeodeticCoordinates.altitude g in
  let f := calculateVisibilityFootprint g 0 72 in
  0 <= VisibilityFootprint.radiusDeg f <= 90 - 0 /\
  0 <= VisibilityFootprint.radiusKm f <= XKMPER * (PI / 2 - 0 * DEG2RAD) /\
  (0 = 0 ->
   VisibilityFootprint.maxRange f =
   sqrt (altitude * (2 * XKMPER + altitude))).
Proof.
  apply (footprint_radius (GeodeticCoordinates.mk 0 0 400) 0 72).
  - cbn [GeodeticCoordinates.altitude]. lra.
  - lra.
Defined.


(** ** Observations *)

Lemma elevation_sign (t : TopocentricCoordinates.T) :
  0 < LookAngles.elevation (calculateLookAngles t) <->
  0 < TopocentricCoordinates.up t.
Proof.
  destruct t as [south east up sr er ur].
  unfold calculateLookAngles.
  cbn [TopocentricCoordinates.south TopocentricCoordinates.east
       TopocentricCoordinates.up LookAngles.elevation].
  pose proof PI_RGT_0 as Hpi. pose proof DEG2RAD_pos as Hd.
  assert (Hdeg : forall a : R, 0 < a / DEG2RAD <-> 0 < a).
  { intros a. split; intros H.
    - assert (0 * PI < a) by (apply degrees_lt; lra). lra.
    - assert (0 * 180 < a / DEG2RAD) by (apply degrees_lt; lra). lra. }
  rewrite Hdeg.
  destruct (Req_dec_T (south * south + east * east + up * up) 0)
    as [Hz | Hne].
  - rewrite Hz, sqrt_0. unfold Rdiv. rewrite Rinv_0, Rmult_0_r, asin_0.
    assert (up = 0) by nra. lra.
  - pose proof (sqrt_sum_pos _ _ _ Hne) as Hr.
    pose proof (component_le_norm _ _ _ Hne) as Hq.
    set (r := sqrt (south * south + east * east + up * up)) in *.
    rewrite (asin_positive _ Hq).
    assert (Hu : up / r * r = up) by (field; lra).
    set (q := up / r) in *. split; intros; nra.
Qed.

(** X27. [observe] reports a satellite as visible exactly when the
    propagation did not fail and the satellite is above the observer's
    horizontal plane, and then the elevation is in (0, 90]. A failed
    propagation gives elevation -90, range 0 and an empty footprint; a
    successful one gives a footprint of 72 boundary points. The time is
    passed on. *)
Theorem observe_visibility (result : PropagationResult)
  (observer : Observer.T) (jd footprintMinElevation : R) :
  let o := observe result observer jd footprintMinElevation in
  (ObservationResult.visible o = true <->
   error result = false /\
   0 < TopocentricCoordinates.up (ObservationResult.topocentric o)) /\
  (ObservationResult.visible o = true ->
   0 < LookAngles.elevation (ObservationResult.lookAngles o) <= 90) /\
  (error result = true ->
   LookAngles.elevation (ObservationResult.lookAngles o) = -90 /\
   LookAngles.range (ObservationResult.lookAngles o) = 0 /\
   VisibilityFootprint.boundaryPoints (ObservationResult.footprint o) = []) /\
  (error result = false ->
   length (VisibilityFootprint.boundaryPoints
             (ObservationResult.footprint o)) = 72%nat) /\
  ObservationResult.tsince o = tsince result.
Proof.
  unfold observe. destruct (error result) eqn:He; cbv zeta;
    cbn [ObservationResult.visible ObservationResult.topocentric
         ObservationResult.lookAngles ObservationResult.footprint
         ObservationResult.tsince LookAngles.elevation LookAngles.range
         VisibilityFootprint.boundaryPoints].
  - repeat split; try discriminate; intros H; try discriminate;
      destruct H; discriminate.
  - set (t := calculateTopocentric _ _ _ _ _ _ _ _).
    pose proof (elevation_sign t) as Hsign.
    split; [ | split; [ | split; [ | split ] ] ].
    + rewrite gt_iff, Hsign. tauto.
    + rewrite gt_iff. intros H. split; [ exact H | ].
      pose proof PI_RGT_0 as Hpi.
      unfold calculateLookAngles. cbn [LookAngles.elevation].
      match goal with |- asin ?u / _ <= _ =>
        pose proof (asin_bound u) as Hb;
        assert (asin u / DEG2RAD <= 1 / 2 * 180) by (apply degrees_le; lra)
      end.
      lra.
    + discriminate.
    + intros _. unfold calculateVisibilityFootprint.
      cbn [VisibilityFootprint.boundaryPoints].
      rewrite length_map, length_seq.
      replace 72 with (INR 72) by (cbn [INR]; lra).
      apply for_count_INR.
    + reflexivity.
Qed.

(** * Julian dates *)

(** The split of a fraction of a day into hours, minutes and seconds loses
    nothing, whatever whole hours and minutes are taken out. *)
Lemma time_split (f : R) (hr minute : Z) :
  let sec := ((f * 24.0 - IZR hr) * 60.0 - IZR minute) * 60.0 in
  ((sec / 60.0 + IZR minute) / 60.0 + IZR hr) / 24.0 = f.
Proof. cbv zeta. lra. Qed.

Lemma jday_whole (year mon day hr minute : Z) (sec : R) :
  jday year mon day hr minute sec =
  IZR (367 * year - 7 * (year + (mon + 9) / 12) / 4 + 275 * mon / 9 + day) +
  1721013.5 + ((sec / 60.0 + IZR minute) / 60.0 + IZR hr) / 24.0.
Proof. unfold jday. rewrite !plus_IZR, !minus_IZR. ring. Qed.

(** Between 1901 and 2099 the leap years are the multiples of 4. *)
Lemma leap_by_four (year : Z) :
  (1901 <= year <= 2099)%Z ->
  ((Z.rem year 4 =? 0)%Z && negb (Z.rem year 100 =? 0)%Z) ||
  (Z.rem year 400 =? 0)%Z = (year mod 4 =? 0)%Z.
Proof.
  intros Hy.
  destruct (Z.eqb_spec (Z.rem year 4) 0) as [H4 | H4];
  destruct (Z.eqb_spec (Z.rem year 100) 0) as [H100 | H100];
  destruct (Z.eqb_spec (Z.rem year 400) 0) as [H400 | H400];
  destruct (Z.eqb_spec (year mod 4) 0) as [Hm | Hm];
  cbn; try reflexivity; exfalso;
  Z.to_euclidean_division_equations; lia.
Qed.

(** The month and day found by the loop, seen through the whole part of
    [jday]: day [n] of the year is [n - 1] days after the first of January
    when the year is long enough, and otherwise the loop ends with month 1
    and the days left over. *)
Lemma month_loop_day_number (year n : Z) :
  (1901 <= year <= 2099)%Z ->
  let february := if (year mod 4 =? 0)%Z then 29%Z else 28%Z in
  let length := if (year mod 4 =? 0)%Z then 366%Z else 365%Z in
  let '(mon, day) :=
    month_loop [31; february; 31; 30; 31; 30; 31; 31; 30; 31; 30; 31]%Z
               0 1 n in
  (367 * year - 7 * (year + (mon + 9) / 12) / 4 + 275 * mon / 9 + day =
   367 * year - 7 * (year + (1 + 9) / 12) / 4 + 275 * 1 / 9 + 1 + (n - 1) -
   (if n <=? length then 0 else length))%Z.
Proof.
  intros Hy. cbv zeta. cbn [month_loop].
  destruct (Z.eqb_spec (year mod 4) 0) as [Hm | Hm];
  repeat match goal with
  | |- context [(?a <=? ?b)%Z] => destruct (Z.leb_spec a b)
  end;
  Z.to_euclidean_division_equations; lia.
Qed.

(** X28. For a two-digit epoch year (00-56 read as 2000-2056, 57-99 as
    1957-1999) the Julian date is that of the first of January, 0 h, plus
    [epochDay - 1]: splitting the day of the year into month, day, hour,
    minute and second loses nothing, as long as the day lies within the
    year. A day beyond the end of the year (367 or more in a leap year,
    366 or more otherwise) is not carried into the next year: the month
    stays 1, and the date falls short by the length of the year. *)
Theorem epochToJD_day_of_year (epochYear : Z) (epochDay : R) :
  (0 <= epochYear <= 99)%Z ->
  let year :=
    if (epochYear <? 57)%Z then (epochYear + 2000)%Z
    else (epochYear + 1900)%Z in
  let length := if (year mod 4 =? 0)%Z then 366 else 365 in
  (1957 <= year <= 2056)%Z /\
  (epochDay < length + 1 ->
   epochToJD epochYear epochDay = jday year 1 1 0 0 0 + (epochDay - 1)) /\
  (length + 1 <= epochDay ->
   epochToJD epochYear epochDay =
   jday year 1 1 0 0 0 + (epochDay - 1) - length).
Proof.
  intros Hrange year length.
  assert (Hy : (1957 <= year <= 2056)%Z).
  { unfold year. destruct (Z.ltb_spec epochYear 57); lia. }
  split; [ exact Hy | ].
  assert (Hy' : (1901 <= year <= 2099)%Z) by lia.
  unfold epochToJD. fold year. cbv zeta.
  rewrite (leap_by_four year Hy').
  pose proof (month_loop_day_number year (Int_part epochDay) Hy') as Hloop.
  cbv zeta in Hloop.
  destruct (base_Int_part epochDay) as [Hlo Hhi].
  set (n := Int_part epochDay) in *.
  destruct (month_loop _ 0 1 n) as [mon day].
  rewrite !jday_whole, time_split, Hloop.
  replace ((0 / 60.0 + 0) / 60.0 + 0) with 0 by lra.
  unfold length.
  destruct (Z.eqb_spec (year mod 4) 0) as [Hm | Hm];
  [ destruct (Z.leb_spec n 366) as [Hn | Hn]
  | destruct (Z.leb_spec n 365) as [Hn | Hn] ];
  try apply Z.le_succ_l in Hn; apply IZR_le in Hn;
  try rewrite succ_IZR in Hn;
  repeat (rewrite minus_IZR || rewrite plus_IZR);
  (split; intros Hd; [ | ]); try (exfalso; lra); lra.
Qed.

Lemma epochToJD_day_of_year_witness :
  let year :=
    if (24 <? 57)%Z then (24 + 2000)%Z else (24 + 1900)%Z in
  let length := if (year mod 4 =? 0)%Z then 366 else 365 in
  (1957 <= year <= 2056)%Z /\
  (1 < length + 1 ->
   epochToJD 24 1 = jday year 1 1 0 0 0 + (1 - 1)) /\
  (length + 1 <= 1 ->
   epochToJD 24 1 = jday year 1 1 0 0 0 + (1 - 1) - length).
Proof.
  apply (epochToJD_day_of_year 24 1). lia.
Defined.

(** The day number of [dateToJD] and the whole part of [jday] differ by a
    constant on the dates from 1901 to 2099. *)
Lemma day_numbers_agree (year month day : Z) :
  (1901 <= year <= 2099)%Z -> (1 <= month <= 12)%Z ->
  let a := ((14 - month) / 12)%Z in
  let y := (year + 4800 - a)%Z in
  let m := (month + 12 * a - 3)%Z in
  (day + (153 * m + 2) / 5 + 365 * y + y / 4 - y / 100 + y / 400 - 32045 =
   367 * year - 7 * (year + (month + 9) / 12) / 4 + 275 * month / 9 + day +
   1721014)%Z.
Proof.
  intros Hy Hm. cbv zeta.
  assert (Hcases : (month = 1 \/ month = 2 \/ month = 3 \/ month = 4 \/
                    month = 5 \/ month = 6 \/ month = 7 \/ month = 8 \/
                    month = 9 \/ month = 10 \/ month = 11 \/ month = 12)%Z)
    by lia.
  repeat (destruct Hcases as [Hc | Hcases]; [ subst month | ]);
    try subst month;
    Z.to_euclidean_division_equations; lia.
Qed.

(** X29. On every date from 1901 to 2099 the Julian date of [dateToJD]
    (observer.ts) is the one that [jday] (tle-parser.ts) gives for the same
    year, month, day, hour, minute and second. *)
Theorem dateToJD_agrees_with_jday (date : Date.T) :
  (1901 <= Date.getUTCFullYear date <= 2099)%Z ->
  (0 <= Date.getUTCMonth date <= 11)%Z ->
  dateToJD date =
  jday (Date.getUTCFullYear date) (Date.getUTCMonth date + 1)
       (Date.getUTCDate date) (Date.getUTCHours date)
       (Date.getUTCMinutes date)
       (IZR (Date.getUTCSeconds date) +
        IZR (Date.getUTCMilliseconds date) / 1000).
Proof.
  intros Hy Hm. unfold dateToJD. cbv zeta. rewrite jday_whole.
  assert (Hm' : (1 <= Date.getUTCMonth date + 1 <= 12)%Z) by lia.
  pose proof (day_numbers_agree (Date.getUTCFullYear date)
                (Date.getUTCMonth date + 1) (Date.getUTCDate date) Hy Hm')
    as H.
  cbv zeta in H. rewrite H, plus_IZR. lra.
Qed.

Lemma dateToJD_agrees_with_jday_witness :
  dateToJD (Date.mk 2000 0 1 12 0 0 0) =
  jday 2000 (0 + 1) 1 12 0 (IZR 0 + IZR 0 / 1000).
Proof.
  apply (dateToJD_agrees_with_jday (Date.mk 2000 0 1 12 0 0 0));
    cbn [Date.getUTCFullYear Date.getUTCMonth]; lia.
Defined.

(** * The search for the next pass *)

Section FindNextPass.

Variables (E : Type) (elements : E) (observer : Observer.T)
  (propagateFn : E -> R -> PropagationResult)
  (jdStart tsinceStart maxMinutes stepMinutes : R).

Hypothesis Hstep : 0 < stepMinutes.

Abbreviation time k := (sample_time tsinceStart stepMinutes k).
Abbreviation obs k :=
  (observation_at elements observer propagateFn jdStart tsinceStart (time k)).
Abbreviation vis k := (ObservationResult.visible (obs k)).
Abbreviation elev k :=
  (LookAngles.elevation (ObservationResult.lookAngles (obs k))).
Abbreviation limit := (tsinceStart + maxMinutes).
Abbreviation loop fuel k :=
  (findNextPass_loop fuel elements observer propagateFn jdStart tsinceStart
     maxMinutes stepMinutes (time k)).

Lemma sample_time_S (k : nat) : time k + stepMinutes = time (S k).
Proof. unfold sample_time. rewrite S_INR. ring. Qed.

Lemma sample_time_mono (k j : nat) : (k <= j)%nat -> time k <= time j.
Proof.
  intros H. unfold sample_time. apply le_INR in H.
  apply Rplus_le_compat_l, Rmult_le_compat_r; lra.
Qed.

Lemma loop_out (f k : nat) wv rt me mt :
  ~ time k < limit -> loop (S f) k wv rt me mt = None.
Proof.
  intros H. cbn [findNextPass_loop].
  destruct (time k <? limit) eqn:Hc; [ | reflexivity ].
  apply lt_iff in Hc. contradiction.
Qed.

Lemma loop_idle (f k : nat) rt me mt :
  time k < limit -> vis k = false ->
  loop (S f) k false rt me mt = loop f (S k) false rt me mt.
Proof.
  intros Ht Hv. cbn [findNextPass_loop].
  apply lt_iff in Ht. rewrite Ht. cbv zeta.
  unfold observation_at in Hv. cbv zeta in Hv. rewrite Hv.
  cbn [andb negb]. rewrite sample_time_S.
  destruct rt; reflexivity.
Qed.

Lemma loop_rise (f k : nat) rt me mt :
  time k < limit -> vis k = true ->
  loop (S f) k false rt me mt =
  loop f (S k) true (Some (time k)) (elev k) (time k).
Proof.
  intros Ht Hv. cbn [findNextPass_loop].
  apply lt_iff in Ht. rewrite Ht. cbv zeta.
  unfold observation_at in *. cbv zeta in *. rewrite Hv.
  cbn [andb negb]. rewrite sample_time_S.
  match goal with |- context [?a >? ?a] =>
    assert (Hgt : (a >? a) = false) by (apply lt_not; lra)
  end.
  rewrite Hgt. reflexivity.
Qed.

Lemma loop_visible (f k : nat) r me mt :
  time k < limit -> vis k = true ->
  loop (S f) k true (Some r) me mt =
  loop f (S k) true (Some r)
    (if elev k >? me then elev k else me)
    (if elev k >? me then time k else mt).
Proof.
  intros Ht Hv. cbn [findNextPass_loop].
  apply lt_iff in Ht. rewrite Ht. cbv zeta.
  unfold observation_at in *. cbv zeta in *. rewrite Hv.
  cbn [andb negb]. rewrite sample_time_S.
  destruct (_ >? me); reflexivity.
Qed.

Lemma loop_set (f k : nat) r me mt :
  time k < limit -> vis k = false ->
  loop (S f) k true (Some r) me mt =
  Some {| PassTimes.rise := r; PassTimes.set := time k;
          PassTimes.maxElevation := me; PassTimes.maxElevationTime := mt |}.
Proof.
  intros Ht Hv. cbn [findNextPass_loop].
  apply lt_iff in Ht. rewrite Ht. cbv zeta.
  unfold observation_at in *. cbv zeta in *. rewrite Hv.
  reflexivity.
Qed.

(** While the satellite is up: the loop entered at iteration [k] with a
    pass that rose at iteration [i] and has its highest sample so far at
    [m]. *)
Lemma visible_phase (f : nat) :
  forall (k i m : nat) (me mt : R),
  (i <= m < k)%nat -> me = elev m -> mt = time m ->
  (forall q, (i <= q < k)%nat -> vis q = true) ->
  (forall q, (i <= q < k)%nat -> elev q <= elev m) ->
  (forall q, (i <= q < m)%nat -> elev q < elev m) ->
  forall p, loop f k true (Some (time i)) me mt = Some p ->
  exists j m' : nat,
    (k <= j)%nat /\ time j < limit /\
    (forall q, (i <= q < j)%nat -> vis q = true) /\ vis j = false /\
    PassTimes.rise p = time i /\ PassTimes.set p = time j /\
    (i <= m' < j)%nat /\
    PassTimes.maxElevationTime p = time m' /\
    PassTimes.maxElevation p = elev m' /\
    (forall q, (i <= q < j)%nat -> elev q <= elev m') /\
    (forall q, (i <= q < m')%nat -> elev q < elev m').
Proof.
  induction f as [| f IH]; intros k i m me mt Him Hme Hmt Hvis Hmax Hfirst p Hp.
  - discriminate Hp.
  - destruct (Rlt_dec (time k) limit) as [Ht | Ht];
      [ | rewrite loop_out in Hp by exact Ht; discriminate Hp ].
    destruct (vis k) eqn:Hv.
    + rewrite loop_visible in Hp by assumption.
      subst me mt. destruct (elev k >? elev m) eqn:Hgt.
      * apply gt_iff in Hgt.
        destruct (IH (S k) i k _ _ ltac:(lia) eq_refl eq_refl) with (p := p)
          as [j [m' H]]; try exact Hp.
        -- intros q Hq. destruct (Nat.eq_dec q k) as [-> | Hne];
             [ exact Hv | apply Hvis; lia ].
        -- intros q Hq. destruct (Nat.eq_dec q k) as [-> | Hne];
             [ lra | ].
           assert (elev q <= elev m) by (apply Hmax; lia). lra.
        -- intros q Hq.
           assert (elev q <= elev m) by (apply Hmax; lia). lra.
        -- exists j, m'. intuition lia.
      * apply lt_not in Hgt.
        destruct (IH (S k) i m _ _ ltac:(lia) eq_refl eq_refl) with (p := p)
          as [j [m' H]]; try exact Hp.
        -- intros q Hq. destruct (Nat.eq_dec q k) as [-> | Hne];
             [ exact Hv | apply Hvis; lia ].
        -- intros q Hq. destruct (Nat.eq_dec q k) as [-> | Hne];
             [ exact Hgt | apply Hmax; lia ].
        -- exact Hfirst.
        -- exists j, m'. intuition lia.
    + rewrite loop_set in Hp by assumption.
      injection Hp as <-. subst me mt.
      exists k, m. cbn [PassTimes.rise PassTimes.set PassTimes.maxElevation
                        PassTimes.maxElevationTime].
      repeat split; try assumption; try reflexivity; lia.
Qed.

(** Before the satellite is up. *)
Lemma search_phase (f : nat) :
  forall (k : nat) (rt : option R) (me mt : R),
  (forall q, (q < k)%nat -> vis q = false) ->
  forall p, loop f k false rt me mt = Some p ->
  exists i j m : nat,
    (i < j)%nat /\ time j < limit /\
    (forall q, (q < i)%nat -> vis q = false) /\
    (forall q, (i <= q < j)%nat -> vis q = true) /\ vis j = false /\
    PassTimes.rise p = time i /\ PassTimes.set p = time j /\
    (i <= m < j)%nat /\
    PassTimes.maxElevationTime p = time m /\
    PassTimes.maxElevation p = elev m /\
    (forall q, (i <= q < j)%nat -> elev q <= elev m) /\
    (forall q, (i <= q < m)%nat -> elev q < elev m).
Proof.
  induction f as [| f IH]; intros k rt me mt Hbefore p Hp.
  - discriminate Hp.
  - destruct (Rlt_dec (time k) limit) as [Ht | Ht];
      [ | rewrite loop_out in Hp by exact Ht; discriminate Hp ].
    destruct (vis k) eqn:Hv.
    + rewrite loop_rise in Hp by assumption.
      destruct (visible_phase f (S k) k k _ _ ltac:(lia) eq_refl eq_refl)
        with (p := p) as [j [m H]]; try exact Hp.
      * intros q Hq. replace q with k by lia. exact Hv.
      * intros q Hq. replace q with k by lia. lra.
      * intros q Hq. lia.
      * exists k, j, m. intuition lia.
    + rewrite loop_idle in Hp by assumption.
      apply (IH (S k) rt me mt); [ | exact Hp ].
      intros q Hq. destruct (Nat.eq_dec q k) as [-> | Hne];
        [ exact Hv | apply Hbefore; lia ].
Qed.

(** A sample below the horizon within reach ends the visible phase. *)
Lemma visible_phase_returns (f : nat) :
  forall (k : nat) (r me mt : R),
  (exists j, (k <= j < k + f)%nat /\ time j < limit /\ vis j = false) ->
  loop f k true (Some r) me mt <> None.
Proof.
  induction f as [| f IH]; intros k r me mt [j [Hj [Ht Hv]]].
  - lia.
  - assert (Hk : time k < limit).
    { apply Rle_lt_trans with (time j); [ | exact Ht ].
      apply sample_time_mono. lia. }
    destruct (vis k) eqn:Hvk.
    + rewrite loop_visible by assumption. apply IH.
      exists j. repeat split; try assumption; try lia.
      destruct (Nat.eq_dec j k) as [-> | Hne]; [ congruence | lia ].
    + rewrite loop_set by assumption. discriminate.
Qed.

Lemma search_phase_returns (f : nat) :
  forall (k : nat) (rt : option R) (me mt : R),
  (exists i j, (k <= i < j)%nat /\ (j < k + f)%nat /\ time j < limit /\
               vis i = true /\ vis j = false) ->
  loop f k false rt me mt <> None.
Proof.
  induction f as [| f IH]; intros k rt me mt [i [j [Hi [Hj [Ht [Hvi Hvj]]]]]].
  - lia.
  - assert (Hk : time k < limit).
    { apply Rle_lt_trans with (time j); [ | exact Ht ].
      apply sample_time_mono. lia. }
    destruct (vis k) eqn:Hvk.
    + rewrite loop_rise by assumption. apply visible_phase_returns.
      exists j. repeat split; try assumption; lia.
    + rewrite loop_idle by assumption. apply IH.
      exists i, j. repeat split; try assumption; try lia.
      destruct (Nat.eq_dec i k) as [-> | Hne]; [ congruence | lia ].
Qed.

(** After [loop_fuel maxMinutes stepMinutes] iterations the guard
    [t < tsinceStart + maxMinutes] fails. *)
Lemma findNextPass_fuel (j : nat) :
  time j < limit -> (j < loop_fuel maxMinutes stepMinutes)%nat.
Proof.
  intros Ht. pose proof (loop_fuel_enough maxMinutes stepMinutes Hstep) as Hf.
  unfold sample_time in Ht.
  apply INR_lt. nra.
Qed.

(** X30. With a positive step, [findNextPass] samples the times
    [tsinceStart + k * stepMinutes] below [tsinceStart + maxMinutes]. A
    result describes the first pass among the samples: [rise] is the first
    sample at which the satellite is visible, [set] the first later sample
    at which it is not, and [maxElevation] the highest elevation of the
    samples in between, reached first at [maxElevationTime]. There is no
    result exactly when no visible sample is followed by a sample that
    is not visible. *)
Theorem findNextPass_first_pass :
  (forall p : PassTimes.T,
   findNextPass elements observer propagateFn jdStart tsinceStart
     maxMinutes stepMinutes = Some p ->
   exists i j m : nat,
     (i < j)%nat /\ time j < limit /\
     (forall q, (q < i)%nat -> vis q = false) /\
     (forall q, (i <= q < j)%nat -> vis q = true) /\ vis j = false /\
     PassTimes.rise p = time i /\ PassTimes.set p = time j /\
     (i <= m < j)%nat /\
     PassTimes.maxElevationTime p = time m /\
     PassTimes.maxElevation p = elev m /\
     (forall q, (i <= q < j)%nat -> elev q <= elev m) /\
     (forall q, (i <= q < m)%nat -> elev q < elev m)) /\
  (findNextPass elements observer propagateFn jdStart tsinceStart
     maxMinutes stepMinutes = None <->
   ~ exists i j : nat,
       (i < j)%nat /\ time j < limit /\ vis i = true /\ vis j = false).
Proof.
  assert (Hstart : time 0 = tsinceStart)
    by (unfold sample_time; cbn [INR]; ring).
  assert (Hsound : forall p : PassTimes.T,
    findNextPass elements observer propagateFn jdStart tsinceStart
      maxMinutes stepMinutes = Some p ->
    exists i j m : nat,
      (i < j)%nat /\ time j < limit /\
      (forall q, (q < i)%nat -> vis q = false) /\
      (forall q, (i <= q < j)%nat -> vis q = true) /\ vis j = false /\
      PassTimes.rise p = time i /\ PassTimes.set p = time j /\
      (i <= m < j)%nat /\
      PassTimes.maxElevationTime p = time m /\
      PassTimes.maxElevation p = elev m /\
      (forall q, (i <= q < j)%nat -> elev q <= elev m) /\
      (forall q, (i <= q < m)%nat -> elev q < elev m)).
  { intros p Hp. unfold findNextPass in Hp. rewrite <- Hstart in Hp at 2.
    apply (search_phase (loop_fuel maxMinutes stepMinutes) 0 None (-90) 0);
      [ | exact Hp ].
    intros q Hq. lia. }
  split; [ exact Hsound | ].
  split.
  - intros Hnone [i [j [Hij [Ht [Hvi Hvj]]]]].
    pose proof (findNextPass_fuel j Ht) as Hfuel.
    apply (search_phase_returns (loop_fuel maxMinutes stepMinutes) 0
             None (-90) 0).
    + exists i, j. repeat split; try assumption; lia.
    + rewrite Hstart. exact Hnone.
  - intros Hno.
    destruct (findNextPass elements observer propagateFn jdStart tsinceStart
                maxMinutes stepMinutes) as [p |] eqn:Hp; [ | reflexivity ].
    exfalso. apply Hno.
    destruct (Hsound p eq_refl) as (i & j & m & Hij & Ht & _ & Hv & Hvj & _).
    exists i, j. repeat split; try assumption.
    apply Hv. lia.
Qed.

End FindNextPass.

Lemma findNextPass_first_pass_witness :
  findNextPass tt (Observer.mk 0 0 0)
    (fun _ t => mkResult zero_state t SGP4 true None) 0 0 1440 1 = None.
Proof.
  assert (Hstep : 0 < 1) by lra.
  apply (proj2 (findNextPass_first_pass unit tt (Observer.mk 0 0 0)
                  (fun _ t => mkResult zero_state t SGP4 true None)
                  0 0 1440 1 Hstep)).
  intros [i [j [_ [_ [Hvi _]]]]].
  unfold observation_at, observe in Hvi. cbn [error] in Hvi.
  cbn [ObservationResult.visible] in Hvi. discriminate Hvi.
Defined.
